(** * sql2latex: a shallow embedding of [sql2latex.py] and its properties

    The program reads a SQL script, splits it into numbered tasks, runs every
    statement against a database and prints a LaTeX report.  Python [str]
    values are modelled as [string] (characters are code points below 256),
    Python [int] values as [Z], lists as [list].  Exceptions are explicit:
    fallible code returns a [result].  The database driver, the SQL tokenizer
    and the LaTeX transliteration are external libraries and appear as
    interfaces (classes) that the program is parameterized by. *)

From Stdlib Require Import ZArith Ascii String List Lia DecimalString.
From Stdlib Require Import DecimalPos DecimalZ.
From stdpp Require Import base gmap strings list.

Local Open Scope string_scope.
Local Open Scope list_scope.
Local Open Scope Z_scope.

(** ** Python exceptions and results *)

(** [oracledb.Error] carries one error object with a code and a message. *)
Record db_error := DbError { err_code : Z; err_message : string }.

Inductive exn :=
| ValueError
| IndexError
| EOFError
| OracleError (e : db_error).

Inductive result (A : Type) :=
| Ok (a : A)
| Raise (e : exn).
Arguments Ok {A} a.
Arguments Raise {A} e.

(** ** Text primitives of the Python runtime *)

Module Py.

Definition LF : ascii := "010"%char.
Definition CR : ascii := "013"%char.
Definition TAB : ascii := "009"%char.
Definition nl : string := String LF "".

Definition code (c : ascii) : nat := nat_of_ascii c.

(** [s.startswith(p)] *)
Fixpoint startswith (p s : string) : bool :=
  match p, s with
  | EmptyString, _ => true
  | String a p', String b s' => if Ascii.eqb a b then startswith p' s' else false
  | String _ _, EmptyString => false
  end.

(** [s[n:]] for a non-negative literal [n] *)
Fixpoint slice_from (n : nat) (s : string) : string :=
  match n, s with
  | O, _ => s
  | S n', String _ s' => slice_from n' s'
  | S _, EmptyString => EmptyString
  end.

Fixpoint all_chars (f : ascii -> bool) (s : string) : bool :=
  match s with
  | EmptyString => true
  | String c s' => f c && all_chars f s'
  end.

(** Text-mode reading with universal newlines: CR LF and a lone CR are both
    read as LF. *)
Fixpoint universal_newlines (s : string) : string :=
  match s with
  | EmptyString => EmptyString
  | String c s' =>
      if Ascii.eqb c CR then
        String LF
          match s' with
          | String c2 s'' =>
              if Ascii.eqb c2 LF then universal_newlines s''
              else universal_newlines s'
          | EmptyString => EmptyString
          end
      else String c (universal_newlines s')
  end.

(** [for line in file]: every line keeps its terminating LF; the last line
    may lack one. *)
Fixpoint readlines (s : string) : list string :=
  match s with
  | EmptyString => []
  | String c s' =>
      if Ascii.eqb c LF then String c "" :: readlines s'
      else match readlines s' with
           | [] => [String c ""]
           | l :: ls => String c l :: ls
           end
  end.

Definition file_lines (contents : string) : list string :=
  readlines (universal_newlines contents).

(** *** [int(s)] in base 10

    Surrounding whitespace is ignored; an optional sign is followed by
    decimal digits, where single underscores may separate digits.  The
    whitespace of [int] is the C [isspace] set for code points below 127,
    and the Unicode whitespace above it (NEL and NBSP below 256).  A text
    with more digits than the interpreter allows in one conversion
    ([sys.int_max_str_digits], 4300 unless it is changed) is refused with
    [ValueError], like a text that is no number: leading zeros count, the
    sign, the underscores and the whitespace do not. *)

Definition max_str_digits : nat := 4300.

Definition int_space (c : ascii) : bool :=
  let n := code c in
  ((9 <=? n)%nat && (n <=? 13)%nat) || (n =? 32)%nat
  || (n =? 133)%nat || (n =? 160)%nat.

Definition is_digit (c : ascii) : bool :=
  let n := code c in (48 <=? n)%nat && (n <=? 57)%nat.

Definition digit_value (c : ascii) : Z := Z.of_nat (code c - 48).

Inductive scan_state := AtStart | AfterDigit | AfterUnderscore.

Fixpoint int_digits (st : scan_state) (acc : Z) (s : string) : option Z :=
  match s with
  | EmptyString =>
      match st with AfterDigit => Some acc | _ => None end
  | String c s' =>
      if is_digit c then int_digits AfterDigit (10 * acc + digit_value c) s'
      else if Ascii.eqb c "_" then
        match st with
        | AfterDigit => int_digits AfterUnderscore acc s'
        | _ => None
        end
      else
        match st with
        | AfterDigit => if all_chars int_space s then Some acc else None
        | _ => None
        end
  end.

Fixpoint skip_spaces (s : string) : string :=
  match s with
  | String c s' => if int_space c then skip_spaces s' else s
  | EmptyString => EmptyString
  end.

(** The number a text denotes, whatever its length. *)
Definition int_syntax (s : string) : option Z :=
  match skip_spaces s with
  | String "+" s' => int_digits AtStart 0 s'
  | String "-" s' => Z.opp <$> int_digits AtStart 0 s'
  | s' => int_digits AtStart 0 s'
  end.

Fixpoint count_digits (s : string) : nat :=
  match s with
  | EmptyString => 0
  | String c s' => (if is_digit c then 1 else 0) + count_digits s'
  end.

Definition int (s : string) : option Z :=
  if (count_digits s <=? max_str_digits)%nat then int_syntax s else None.

(** [str(n)] for an integer: its decimal text.  The conversion raises
    [ValueError] for an integer of more than [max_str_digits] digits;
    [str_ok] tells whether it goes through.  Of the integers the program
    prints, the task numbers come from the file and are tested where they
    are printed; the others are the length of a list and the numbers the
    driver reports (an error code, a row count). *)
Definition str_int (n : Z) : string := NilZero.string_of_int (Z.to_int n).

Definition str_ok (n : Z) : bool :=
  (count_digits (str_int n) <=? max_str_digits)%nat.

(** [s * n] *)
Fixpoint mul (s : string) (n : nat) : string :=
  match n with
  | O => EmptyString
  | S n' => s +:+ mul s n'
  end.

(** [sep.join(parts)] *)
Fixpoint join (sep : string) (parts : list string) : string :=
  match parts with
  | [] => EmptyString
  | [x] => x
  | x :: rest => x +:+ sep +:+ join sep rest
  end.

(** [s.split(c)] for a separator of one character *)
Fixpoint split (c : ascii) (s : string) : list string :=
  match s with
  | EmptyString => [EmptyString]
  | String a s' =>
      if Ascii.eqb a c then EmptyString :: split c s'
      else match split c s' with
           | [] => [String a ""]
           | x :: xs => String a x :: xs
           end
  end.

Fixpoint reverse_onto (s acc : string) : string :=
  match s with
  | EmptyString => acc
  | String c s' => reverse_onto s' (String c acc)
  end.

(** [s.endswith(p)] *)
Definition endswith (p s : string) : bool :=
  startswith (reverse_onto p "") (reverse_onto s "").

(** [s[:-1]] *)
Fixpoint drop_last (s : string) : string :=
  match s with
  | EmptyString => EmptyString
  | String c EmptyString => EmptyString
  | String c s' => String c (drop_last s')
  end.

(** [c.isspace()] for code points below 256 *)
Definition isspace (c : ascii) : bool :=
  let n := code c in
  ((9 <=? n)%nat && (n <=? 13)%nat) || ((28 <=? n)%nat && (n <=? 32)%nat)
  || (n =? 133)%nat || (n =? 160)%nat.

(** [s.lstrip()], [s.rstrip()] and [s.strip()] *)
Fixpoint lstrip (s : string) : string :=
  match s with
  | String c s' => if isspace c then lstrip s' else s
  | EmptyString => EmptyString
  end.

Fixpoint rstrip (s : string) : string :=
  match s with
  | EmptyString => EmptyString
  | String c s' =>
      match rstrip s' with
      | EmptyString => if isspace c then EmptyString else String c ""
      | r => String c r
      end
  end.

Definition strip (s : string) : string := lstrip (rstrip s).

(** [s.replace(old, new)]: the occurrences of [old] are found from the
    left and do not overlap; [skip] counts the characters of a match that
    are still to be passed over. *)
Fixpoint replace_from (old new : string) (skip : nat) (s : string) : string :=
  match s with
  | EmptyString => EmptyString
  | String c s' =>
      match skip with
      | S k => replace_from old new k s'
      | O =>
          if startswith old s
          then new +:+ replace_from old new (String.length old - 1) s'
          else String c (replace_from old new 0 s')
      end
  end.

Fixpoint intersperse (new s : string) : string :=
  match s with
  | EmptyString => EmptyString
  | String c s' => String c (new +:+ intersperse new s')
  end.

Definition replace (old new s : string) : string :=
  match old with
  | EmptyString => new +:+ intersperse new s
  | _ => replace_from old new 0 s
  end.

(** The number of spaces a string starts with: the longest match of the
    pattern [ *] at its start. *)
Fixpoint leading_spaces (s : string) : nat :=
  match s with
  | String c s' => if Ascii.eqb c " " then S (leading_spaces s') else O
  | EmptyString => O
  end.

(** [re.sub(r" {2,}", lambda m: "~" * len(m.group(0)), s)]: at every
    position outside a match, the greedy pattern matches when at least two
    spaces follow; the match is replaced and passed over. *)
Fixpoint sub_space_runs_from (skip : nat) (s : string) : string :=
  match s with
  | EmptyString => EmptyString
  | String c s' =>
      match skip with
      | S k => sub_space_runs_from k s'
      | O =>
          let n := leading_spaces s in
          if (2 <=? n)%nat
          then mul "~" n +:+ sub_space_runs_from (n - 1) s'
          else String c (sub_space_runs_from 0 s')
      end
  end.

Definition sub_space_runs (s : string) : string := sub_space_runs_from 0 s.

(** [d[k] = v] on a dictionary kept in insertion order *)
Fixpoint dict_set (k v : string) (d : list (string * string))
  : list (string * string) :=
  match d with
  | [] => [(k, v)]
  | (k', v') :: d' =>
      if String.eqb k k' then (k, v) :: d' else (k', v') :: dict_set k v d'
  end.

End Py.

(** ** The script splitter *)

Definition task : Type := Z * list string.

Definition marker : string := "-- Task".

Definition is_marker (line : string) : bool := Py.startswith marker line.

(** [int(line[8:])] *)
Definition marker_number (line : string) : option Z :=
  Py.int (Py.slice_from 8 line).

(** The state of the loop over the lines: [scripts], the closed blocks, and
    [script], the block being accumulated. *)
Definition splitter_state : Type := list task * list string.

(** The [if line.startswith("-- Task")] statement of the loop body. *)
Definition on_marker (st : splitter_state) (line : string)
  : result splitter_state :=
  let '(scripts, script) := st in
  if is_marker line then
    match marker_number line with
    | None => Raise ValueError
    | Some num =>
        match script with
        | [] => Ok (scripts, script)
        | _ :: _ => Ok (scripts ++ [(num - 1, script)], [])
        end
    end
  else Ok st.

(** One iteration: the marker test, then [script.append(line)]. *)
Definition loop_body (st : splitter_state) (line : string)
  : result splitter_state :=
  match on_marker st line with
  | Ok (scripts, script) => Ok (scripts, script ++ [line])
  | Raise e => Raise e
  end.

Fixpoint for_lines (st : splitter_state) (lines : list string)
  : result splitter_state :=
  match lines with
  | [] => Ok st
  | line :: rest =>
      match loop_body st line with
      | Ok st' => for_lines st' rest
      | Raise e => Raise e
      end
  end.

(** [scripts.append((scripts[-1][0] + 1, script))]: indexing the empty
    list raises [IndexError]. *)
Definition close_last (st : splitter_state) : result (list task) :=
  let '(scripts, script) := st in
  match last scripts with
  | None => Raise IndexError
  | Some (k, _) => Ok (scripts ++ [(k + 1, script)])
  end.

Definition parse_srcipts_lines (lines : list string) : result (list task) :=
  match for_lines ([], []) lines with
  | Ok st => close_last st
  | Raise e => Raise e
  end.

(** The function of the source, applied to the contents of the file. *)
Definition parse_srcipts (contents : string) : result (list task) :=
  parse_srcipts_lines (Py.file_lines contents).

(** The number of marker lines of a script. *)
Definition count_markers (lines : list string) : nat :=
  length (filter (fun l => is_marker l = true) lines).

(** A block opens with a marker line that carries the number [k]. *)
Definition heads_marker (k : Z) (blk : list string) : Prop :=
  exists m rest, blk = m :: rest /\ is_marker m = true /\ marker_number m = Some k.

(** Every block of [tasks] is numbered one less than the marker that opens
    the block after it; [next] is the block that follows the last one. *)
Fixpoint numbered_by_next (tasks : list task) (next : list string) : Prop :=
  match tasks with
  | [] => True
  | (n, _) :: rest =>
      heads_marker (n + 1) (match rest with [] => next | (_, b) :: _ => b end)
      /\ numbered_by_next rest next
  end.

Definition example_script : string :=
  "-- Task 1" +:+ Py.nl +:+ "SELECT 1 FROM DUAL;" +:+ Py.nl +:+
  "-- Task 2" +:+ Py.nl +:+ "SELECT 2 FROM DUAL;" +:+ Py.nl.

(** ** External libraries

    The Oracle driver, [sqlparse] and [pylatexenc] are not part of the
    program; they are interfaces here.  Of the driver, [connect],
    [execute] and [fetchall] may raise [oracledb.Error], and so may
    [init_oracle_client]; creating and closing a cursor and closing the
    connection are taken to succeed. *)

(** What a cursor holds after [execute]: its [description], its [rowcount]
    and what [fetchall] gives. *)
Record cursor_result (column cell : Type) := CursorResult {
  description : option (list column);
  rowcount : Z;
  fetchall : db_error + list (list cell) }.
Arguments CursorResult {column cell}.
Arguments description {column cell}.
Arguments rowcount {column cell}.
Arguments fetchall {column cell}.

Class Oracle := {
  db : Type;
  column : Type;
  cell : Type;
  (** [x[0]] of an entry of [cursor.description] *)
  col_name : column -> string;
  (** [str(x)] of a value of a row *)
  cell_str : cell -> string;
  init_oracle_client : db -> option db_error;
  connect : db -> option db_error;
  execute : db -> string -> list (string * string)
            -> db * (db_error + cursor_result column cell) }.

(** A leaf token of [sqlparse]: its type, a path such as
    [Name.Placeholder], and its text. *)
Record token := Token { ttype : list string; value : string }.

Class SqlParse := {
  (** [sqlparse.split(sql)] *)
  sqlparse_split : string -> list string;
  (** [sqlparse.parse(sql)[0].flatten()] *)
  sqlparse_tokens : string -> list token }.

Class LatexEncode := {
  (** [unicode_to_latex(s, non_ascii_only=False)] *)
  unicode_to_latex : string -> string }.

(** The order in which a [set] of strings is iterated: some enumeration of
    its elements, each once. *)
Class SetOrder := {
  set_iter : gset string -> list string;
  set_iter_perm : forall X, set_iter X ≡ₚ elements X }.

(** ** Events of a run *)

Inductive event :=
| Stdout (text : string)
| Stderr (text : string)
| Input (line : string)
| InitClient (outcome : option db_error)
| Connect (outcome : option db_error)
| ConnectionClose
| CursorOpen
| CursorClose
| Execute (query : string) (binds : list (string * string))
    (outcome : option db_error)
| FetchAll (outcome : option db_error).

(** The database error an event reports, if any. *)
Definition db_failure (ev : event) : option db_error :=
  match ev with
  | Connect o | Execute _ _ o | FetchAll o => o
  | _ => None
  end.

Inductive termination :=
| Exit (status : Z)
| Uncaught (e : exn).

(** An uncaught exception ends the interpreter with status 1. *)
Definition exit_status (t : termination) : Z :=
  match t with
  | Exit status => status
  | Uncaught _ => 1
  end.

Record arguments := Args {
  query_file : string;  (** the contents of the file named by [--query] *)
  author : string;
  title : string }.

Definition Placeholder : list string := ["Name"; "Placeholder"].

Definition preamble : string :=
  Py.nl +:+
  "\documentclass{article}" +:+ Py.nl +:+
  "\usepackage{minted}" +:+ Py.nl +:+
  "\usepackage{geometry}" +:+ Py.nl +:+
  "\usepackage{amsmath}" +:+ Py.nl +:+
  "\usepackage{tabularx}" +:+ Py.nl +:+
  Py.nl +:+
  "\geometry{a4paper,left=1cm,right=1cm,top=2cm,bottom=2cm}" +:+ Py.nl +:+
  "\author{AUTHOR}" +:+ Py.nl +:+
  "\title{\vspace{-2cm} TITLE}" +:+ Py.nl +:+
  "\date{}" +:+ Py.nl.

(** The text [print_header] hands to [print]. *)
Definition header_text (author title : string) : string :=
  Py.replace "TITLE" title (Py.replace "AUTHOR" author preamble).

(** The status line of a statement without a result set. *)
Definition status_line (rowcount : Z) : string :=
  if 0 <? rowcount then
    "\textbf{" +:+ Py.str_int rowcount +:+ "} " +:+
    (if rowcount =? 1 then "row" else "rows") +:+ " affected."
  else "Statement executed.".

(** ** The program *)

Section Program.

Context `{oracle : Oracle} `{sqlparse : SqlParse} `{latexenc : LatexEncode}
  `{order : SetOrder}.

(** What a run reads and changes: the lines still to be read from the
    standard input, the database, and the variable [connection] of
    [main]. *)
Record state := State {
  stdin : list string;
  database : db;
  connection : bool }.

(** A computation gives a value or raises, emits events, and leaves a
    state. *)
Definition M (A : Type) : Type := state -> result A * list event * state.

Definition ret {A} (a : A) : M A := fun st => (Ok a, [], st).

Definition raise {A} (e : exn) : M A := fun st => (Raise e, [], st).

Definition bind {A B} (m : M A) (k : A -> M B) : M B :=
  fun st =>
    match m st with
    | (Ok a, evs, st1) =>
        let '(r, evs', st2) := k a st1 in (r, evs ++ evs', st2)
    | (Raise e, evs, st1) => (Raise e, evs, st1)
    end.

Notation "x <- m ;; k" := (bind m (fun x => k))
  (at level 100, m at next level, right associativity).
Notation "m ;; k" := (bind m (fun _ => k))
  (at level 100, right associativity).

Definition emit (ev : event) : M unit := fun st => (Ok tt, [ev], st).

Definition lift {A} (r : result A) : M A := fun st => (r, [], st).

(** [for x in xs: body(x)] *)
Fixpoint for_each {A} (body : A -> M unit) (xs : list A) : M unit :=
  match xs with
  | [] => ret tt
  | x :: rest => body x ;; for_each body rest
  end.

(** [try: m  except oracledb.Error as e: handler(e)] *)
Definition try_except {A} (m : M A) (handler : db_error -> M A) : M A :=
  fun st =>
    match m st with
    | (Raise (OracleError e), evs, st1) =>
        let '(r, evs', st2) := handler e st1 in (r, evs ++ evs', st2)
    | other => other
    end.

(** [try: m  finally: final] *)
Definition try_finally {A} (m : M A) (final : M unit) : M A :=
  fun st =>
    let '(r, evs, st1) := m st in
    let '(r', evs', st2) := final st1 in
    (match r' with Ok _ => r | Raise e => Raise e end, evs ++ evs', st2).

(** [print(text)] *)
Definition print (text : string) : M unit := emit (Stdout (text +:+ Py.nl)).

(** [print(text, end="", file=stderr)] and [print(text, file=stderr)] *)
Definition eprint_raw (text : string) : M unit := emit (Stderr text).
Definition eprint (text : string) : M unit := emit (Stderr (text +:+ Py.nl)).

(** [input()] *)
Definition input : M string :=
  fun st =>
    match stdin st with
    | [] => (Raise EOFError, [], st)
    | line :: rest =>
        (Ok line, [Input line],
         {| stdin := rest; database := database st;
            connection := connection st |})
    end.

Definition print_header (author title : string) : M unit :=
  print (header_text author title).

Definition sanitize_latex (s : string) : string :=
  let s := unicode_to_latex s in
  let s := Py.replace "|" "\text{\textbar}" s in
  Py.sub_space_runs s.

Definition header_cell (col : string) : string :=
  "\multicolumn{1}{|c|}{\textbf{" +:+ sanitize_latex col +:+ "}}".

(** The texts of the header row and of a data row: the cells joined by
    [" & "], then a space and two backslashes. *)
Definition header_line (column_names : list string) : string :=
  Py.join " & " (map header_cell column_names) +:+ " " +:+ "\\".

Definition row_line (row : list cell) : string :=
  Py.join " & " (map (fun x => sanitize_latex (cell_str x)) row)
  +:+ " " +:+ "\\".

Definition print_table (column_names : list string) (rows : list (list cell))
  : M unit :=
  print "\begin{center}" ;;
  print ("\begin{tabularx}{\textwidth}{|" +:+
         Py.mul "X|" (length column_names) +:+ "}") ;;
  print "\hline" ;;
  print (header_line column_names) ;;
  print "\hline" ;;
  for_each (fun row => print (row_line row) ;; print "\hline") rows ;;
  print "\end{tabularx}" ;;
  print "\end{center}".

Definition find_parameters (query : string) : gset string :=
  fold_left
    (fun parameters tok =>
       if bool_decide (ttype tok = Placeholder) && Py.startswith ":" (value tok)
       then parameters ∪ {[ Py.slice_from 1 (value tok) ]}
       else parameters)
    (sqlparse_tokens query) ∅.

(** [for param in params]: prompt, read a line, store it in the
    dictionary. *)
Fixpoint fill_params (params : list string) (filled : list (string * string))
  : M (list (string * string)) :=
  match params with
  | [] => ret filled
  | param :: rest =>
      eprint_raw (":" +:+ param +:+ "=") ;;
      v <- input ;;
      fill_params rest (Py.dict_set param v filled)
  end.

(** [cursor.execute(query, filled_params)] *)
Definition cursor_execute (query : string) (binds : list (string * string))
  : M (cursor_result column cell) :=
  fun st =>
    match execute (database st) query binds with
    | (d, inl e) =>
        (Raise (OracleError e), [Execute query binds (Some e)],
         {| stdin := stdin st; database := d; connection := connection st |})
    | (d, inr c) =>
        (Ok c, [Execute query binds None],
         {| stdin := stdin st; database := d; connection := connection st |})
    end.

(** [cursor.fetchall()] *)
Definition cursor_fetchall (c : cursor_result column cell)
  : M (list (list cell)) :=
  match fetchall c with
  | inl e => emit (FetchAll (Some e)) ;; raise (OracleError e)
  | inr rows => emit (FetchAll None) ;; ret rows
  end.

(** The [if cursor.description is not None ... elif ... else] statement. *)
Definition report_outcome (c : cursor_result column cell) : M unit :=
  match description c with
  | Some desc =>
      let column_names := map col_name desc in
      rows <- cursor_fetchall c ;;
      print_table column_names rows
  | None => print (status_line (rowcount c))
  end.

(** The body of [for query in queries].  The statement [query.strip()]
    builds a stripped copy and drops it: [query] is unchanged. *)
Definition process_query (query : string) : M unit :=
  match query with
  | EmptyString => ret tt
  | _ =>
      print "\begin{minted}[breaklines]{sql}" ;;
      print query ;;
      print "\end{minted}" ;;
      let params := find_parameters query in
      let query :=
        if Py.endswith ";" query then Py.rstrip (Py.drop_last query)
        else query in
      filled_params <- fill_params (set_iter params) [] ;;
      c <- cursor_execute query filled_params ;;
      report_outcome c
  end.

Definition strip_markers (script : string) : string :=
  Py.join Py.nl
    (List.filter (fun line => negb (Py.startswith marker line))
       (Py.split Py.LF script)).

Definition process_script (script : string) : M unit :=
  let script := strip_markers script in
  let queries := sqlparse_split script in
  for_each process_query queries.

(** [with connection.cursor() as cursor: body] *)
Definition with_cursor {A} (body : M A) : M A :=
  emit CursorOpen ;; try_finally body (emit CursorClose).

(** The body of [for i, script in scripts].  The text of the progress
    line is built before it is printed: a task number that [str] refuses
    raises [ValueError] there, before any event of the task. *)
Definition run_task (t : task) : M unit :=
  let '(i, script) := t in
  if Py.str_ok i then
    eprint_raw ("Running task " +:+ Py.str_int i +:+ "..." +:+ String Py.TAB "") ;;
    with_cursor
      (print ("\section*{Task " +:+ Py.str_int i +:+ "}") ;;
       let script := Py.join "" script in
       process_script script ;;
       print "\pagebreak") ;;
    eprint "done"
  else raise ValueError.

(** [connection = oracledb.connect(...)] *)
Definition do_connect : M unit :=
  fun st =>
    match connect (database st) with
    | Some e => (Raise (OracleError e), [Connect (Some e)], st)
    | None =>
        (Ok tt, [Connect None],
         {| stdin := stdin st; database := database st; connection := true |})
    end.

Definition do_init_client : M unit :=
  fun st =>
    match init_oracle_client (database st) with
    | Some e => (Raise (OracleError e), [InitClient (Some e)], st)
    | None => (Ok tt, [InitClient None], st)
    end.

(** The block under [try] in [main]. *)
Definition main_try (args : arguments) (scripts : list task) : M bool :=
  eprint_raw "Connecting to the database... " ;;
  do_connect ;;
  eprint "connected!" ;;
  print_header (author args) (title args) ;;
  print "\begin{document}" ;;
  print "\maketitle" ;;
  for_each run_task scripts ;;
  print "\end{document}" ;;
  ret true.

Definition main_except (e : db_error) : M bool :=
  eprint ("Database error occurred: " +:+ Py.str_int (err_code e) +:+ " - "
          +:+ err_message e) ;;
  ret false.

Definition main_finally : M unit :=
  fun st =>
    if connection st
    then (Ok tt, [ConnectionClose; Stderr ("Connection closed." +:+ Py.nl)], st)
    else (Ok tt, [], st).

(** [connection = None] *)
Definition clear_connection : M unit :=
  fun st =>
    (Ok tt, [],
     {| stdin := stdin st; database := database st; connection := false |}).

Definition main (args : arguments) : M bool :=
  scripts <- lift (parse_srcipts (query_file args)) ;;
  eprint ("Scripts found: " +:+ Py.str_int (Z.of_nat (length scripts))) ;;
  do_init_client ;;
  clear_connection ;;
  try_finally (try_except (main_try args scripts) main_except) main_finally.

(** [if main() == False: exit(-1)] *)
Definition sql2latex (args : arguments) (st : state)
  : termination * list event * state :=
  let '(r, evs, st') := main args st in
  (match r with
   | Ok true => Exit 0
   | Ok false => Exit (-1)
   | Raise e => Uncaught e
   end, evs, st').

End Program.

Arguments state {oracle}.
Arguments State {oracle}.
Arguments M {oracle}.

(** ** Stand-ins for the libraries

    Small executable instances of the interfaces, used to run the program
    on concrete inputs. *)

Module Demo.

(** A database that answers by the text of the statement alone. *)
Definition scripted (on_connect : option db_error)
    (respond : string -> db_error + cursor_result string string) : Oracle :=
  {| db := unit;
     column := string;
     cell := string;
     col_name := fun c => c;
     cell_str := fun x => x;
     init_oracle_client := fun _ => None;
     connect := fun _ => on_connect;
     execute := fun d q _ => (d, respond q) |}.

Definition no_such_table : db_error :=
  DbError 942 "ORA-00942: table or view does not exist".

Definition no_listener : db_error :=
  DbError 12541 "ORA-12541: no listener".

(** [SELECT] gives one row, [DROP] fails, anything else changes a row. *)
Definition respond (q : string) : db_error + cursor_result string string :=
  if Py.startswith "SELECT" q then
    inr (CursorResult (Some ["X"]) 0 (inr [["1"]]))
  else if Py.startswith "DROP" q then inl no_such_table
  else inr (CursorResult None 1 (inr [])).

(** Statements end at a semicolon; every statement is stripped. *)
Fixpoint cut_statements (s : string) : list string :=
  match s with
  | EmptyString => [EmptyString]
  | String c s' =>
      if Ascii.eqb c ";" then String c "" :: cut_statements s'
      else match cut_statements s' with
           | [] => [String c ""]
           | x :: xs => String c x :: xs
           end
  end.

Definition split (s : string) : list string := map Py.strip (cut_statements s).

Inductive lexer_mode :=
| Plain
| InLiteral (text : string)
| InPlaceholder (text : string).

Definition is_name_char (c : ascii) : bool :=
  let n := Py.code c in
  ((48 <=? n)%nat && (n <=? 57)%nat) || ((65 <=? n)%nat && (n <=? 90)%nat)
  || ((97 <=? n)%nat && (n <=? 122)%nat) || (n =? 95)%nat.

Definition snoc (s : string) (c : ascii) : string := s +:+ String c "".

(** A lexer that knows quoted literals and [:name] placeholders; every
    other character is a token of its own. *)
Fixpoint lex (mode : lexer_mode) (s : string) : list token :=
  match s with
  | EmptyString =>
      match mode with
      | Plain => []
      | InLiteral text => [Token ["Error"] text]
      | InPlaceholder text => [Token Placeholder text]
      end
  | String c s' =>
      match mode with
      | InLiteral text =>
          if Ascii.eqb c "'"
          then Token ["Literal"; "String"; "Single"] (snoc text c) :: lex Plain s'
          else lex (InLiteral (snoc text c)) s'
      | InPlaceholder text =>
          if is_name_char c then lex (InPlaceholder (snoc text c)) s'
          else Token Placeholder text ::
               (if Ascii.eqb c "'" then lex (InLiteral (String c "")) s'
                else if Ascii.eqb c ":" then lex (InPlaceholder (String c "")) s'
                else Token ["Text"] (String c "") :: lex Plain s')
      | Plain =>
          if Ascii.eqb c "'" then lex (InLiteral (String c "")) s'
          else if Ascii.eqb c ":" then lex (InPlaceholder (String c "")) s'
          else Token ["Text"] (String c "") :: lex Plain s'
      end
  end.

Definition sqlparse : SqlParse :=
  {| sqlparse_split := split; sqlparse_tokens := lex Plain |}.

(** Only the ampersand is escaped. *)
Definition latexenc : LatexEncode :=
  {| unicode_to_latex := Py.replace "&" "\&" |}.

Definition order : SetOrder :=
  {| set_iter := elements; set_iter_perm := fun X => reflexivity (elements X) |}.

(** A run against one of the two databases above, with the given lines on
    the standard input. *)
Definition run (on_connect : option db_error) (args : arguments)
    (lines : list string) :=
  @sql2latex (scripted on_connect respond) sqlparse latexenc order args
    (@State (scripted on_connect respond) lines tt false).

End Demo.

(** ** Sample runs *)

Module Sample.

(** The script of two tasks, against a database that refuses the
    connection. *)
Definition refused :=
  Demo.run (Some Demo.no_listener) (Args example_script "A" "T") [].

(** A script whose second task drops a table that does not exist. *)
Definition failing_statement :=
  Demo.run None
    (Args ("-- Task 1" +:+ Py.nl +:+ "SELECT 1 FROM DUAL;" +:+ Py.nl +:+
                "-- Task 2" +:+ Py.nl +:+ "DROP TABLE t;" +:+ Py.nl) "A" "T")
    [].

(** A script without any marker line. *)
Definition no_marker :=
  Demo.run None (Args ("SELECT 1 FROM DUAL;" +:+ Py.nl) "A" "T") [].

(** A statement with a bind parameter, and nothing to read on the
    standard input. *)
Definition no_answer :=
  Demo.run None
    (Args ("-- Task 1" +:+ Py.nl +:+ "SELECT :x FROM DUAL;" +:+ Py.nl +:+
                "-- Task 2" +:+ Py.nl +:+ "SELECT 2 FROM DUAL;" +:+ Py.nl)
       "A" "T")
    [].

End Sample.

(** ** Auxiliary notions used in the statements *)

(** The number of a marker line can be read. *)
Definition parses (line : string) : Prop :=
  is_marker line = true -> is_Some (marker_number line).

(** What the loop of the splitter maintains. *)
Definition splitter_inv (st : splitter_state) : Prop :=
  numbered_by_next (fst st) (snd st) /\ (snd st = [] -> fst st = []).

(** The last character of a string is a space. *)
Fixpoint ends_in_space (s : string) : bool :=
  match s with
  | EmptyString => false
  | String c EmptyString => Ascii.eqb c " "
  | String _ s' => ends_in_space s'
  end.

(** The events of printing the given lines on the standard output. *)
Definition printed (lines : list string) : list event :=
  map (fun l => Stdout (l +:+ Py.nl)) lines.

(** The events of asking for the given parameters and reading the given
    values. *)
Definition prompts (binds : list (string * string)) : list event :=
  flat_map (fun '(name, v) => [Stderr (":" +:+ name +:+ "="); Input v]) binds.

(** A statement without any character that is not whitespace. *)
Definition blank (q : string) : bool := Py.all_chars Py.isspace q.

(** The events report the database error [e]: a failed [connect],
    [execute] or [fetchall]. *)
Definition failed_with (e : db_error) (evs : list event) : Prop :=
  exists ev, ev ∈ evs /\ db_failure ev = Some e.

(** An event that is neither a database failure nor a connection. *)
Definition quiet (ev : event) : Prop :=
  db_failure ev = None /\ ev <> Connect None.

(** A computation that leaves the variable [connection] alone, opens no
    connection, and raises a database error exactly when its events report
    one. *)
Definition regular `{oracle : Oracle} {A : Type} (m : M A) : Prop :=
  forall st r evs st',
    m st = (r, evs, st') ->
    connection st' = connection st /\
    (Connect None ∉ evs) /\
    (forall e, r = Raise (OracleError e) <-> failed_with e evs).

(** The line the handler of [main] prints for a database error. *)
Definition error_line (e : db_error) : event :=
  Stderr (("Database error occurred: " +:+ Py.str_int (err_code e) +:+ " - "
           +:+ err_message e) +:+ Py.nl).

(** The text [old] occurs somewhere in [s]. *)
Fixpoint occurs (old s : string) : bool :=
  Py.startswith old s ||
  match s with
  | EmptyString => false
  | String _ s' => occurs old s'
  end.

(** The preamble with the two strings put in as they are. *)
Definition literal_header (author title : string) : string :=
  (Py.nl +:+
   "\documentclass{article}" +:+ Py.nl +:+
   "\usepackage{minted}" +:+ Py.nl +:+
   "\usepackage{geometry}" +:+ Py.nl +:+
   "\usepackage{amsmath}" +:+ Py.nl +:+
   "\usepackage{tabularx}" +:+ Py.nl +:+
   Py.nl +:+
   "\geometry{a4paper,left=1cm,right=1cm,top=2cm,bottom=2cm}" +:+ Py.nl +:+
   "\author{") +:+ author +:+
  ("}" +:+ Py.nl +:+ "\title{\vspace{-2cm} ") +:+ title +:+
  ("}" +:+ Py.nl +:+ "\date{}" +:+ Py.nl).

(** What a run of [k] spaces becomes. *)
Definition run_image (k : nat) : string :=
  if (2 <=? k)%nat then Py.mul "~" k else Py.mul " " k.

(** A script with a statement before its only marker line. *)
Definition one_marker_script : string :=
  "SELECT 0 FROM DUAL;" +:+ Py.nl +:+ "-- Task 1" +:+ Py.nl +:+
  "SELECT 1 FROM DUAL;" +:+ Py.nl.

(** ** Further notions for the splitter *)

(** A marker line whose number cannot be read. *)
Definition bad_marker (line : string) : Prop :=
  is_marker line = true /\ marker_number line = None.

(** The numbers of the marker lines, in order. *)
Definition marker_values (lines : list string) : list Z :=
  omap (fun l => if is_marker l then marker_number l else None) lines.

(** No line after the first one of a block is a marker line. *)
Definition tail_clean (blk : list string) : Prop :=
  Forall (fun l => is_marker l = false) (tail blk).

(** The block opens with a marker line. *)
Definition headed (blk : list string) : Prop :=
  exists l rest, blk = l :: rest /\ is_marker l = true.

(** Every block after the first one opens with a marker line. *)
Definition headed_after_first (blocks : list (list string)) : Prop :=
  Forall headed (tail blocks).

(** What the loop of the splitter maintains about the shape of the
    blocks. *)
Definition cut_inv (st : splitter_state) : Prop :=
  Forall tail_clean (map snd (fst st)) /\
  tail_clean (snd st) /\
  headed_after_first (map snd (fst st) ++ [snd st]) /\
  (snd st = [] -> fst st = []).

(** Every number of the list is the one before it plus one. *)
Fixpoint consecutive (vs : list Z) : Prop :=
  match vs with
  | a :: (b :: _) as rest => b = a + 1 /\ consecutive rest
  | _ => True
  end.

(** The value of a decimal numeral read from the left, after the digits
    that gave [acc]. *)
Fixpoint uint_value (acc : Z) (d : Decimal.uint) : Z :=
  match d with
  | Decimal.Nil => acc
  | Decimal.D0 l => uint_value (10 * acc + 0) l
  | Decimal.D1 l => uint_value (10 * acc + 1) l
  | Decimal.D2 l => uint_value (10 * acc + 2) l
  | Decimal.D3 l => uint_value (10 * acc + 3) l
  | Decimal.D4 l => uint_value (10 * acc + 4) l
  | Decimal.D5 l => uint_value (10 * acc + 5) l
  | Decimal.D6 l => uint_value (10 * acc + 6) l
  | Decimal.D7 l => uint_value (10 * acc + 7) l
  | Decimal.D8 l => uint_value (10 * acc + 8) l
  | Decimal.D9 l => uint_value (10 * acc + 9) l
  end.

(** ** Further notions for the statement executor *)

(** A text without a line feed. *)
Definition lf_free (s : string) : bool :=
  Py.all_chars (fun c => negb (Ascii.eqb c Py.LF)) s.

(** The last character of a text. *)
Fixpoint last_char (s : string) : option ascii :=
  match s with
  | EmptyString => None
  | String c EmptyString => Some c
  | String _ s' => last_char s'
  end.

(** The text does not end in whitespace. *)
Definition rstripped (s : string) : Prop :=
  forall c, last_char s = Some c -> Py.isspace c = false.

(** ** Further notions for a whole run *)

(** How a computation ended: [None] for a value, the exception
    otherwise. *)
Definition outcome {A : Type} (r : result A) : option exn :=
  match r with
  | Ok _ => None
  | Raise x => Some x
  end.

(** A relation between the state before, the way a computation ended,
    its events and the state after, that holds of doing nothing and of
    doing one thing after another. *)
Definition sequential `{oracle : Oracle}
    (Q : state -> option exn -> list event -> state -> Prop) : Prop :=
  (forall st, Q st None [] st) /\
  (forall st st1 st2 evs1 evs2 o,
      Q st None evs1 st1 -> Q st1 o evs2 st2 -> Q st o (evs1 ++ evs2) st2).

(** Every run of the computation is in the relation. *)
Definition respects `{oracle : Oracle} {A : Type}
    (Q : state -> option exn -> list event -> state -> Prop) (m : M A) : Prop :=
  forall st r evs st', m st = (r, evs, st') -> Q st (outcome r) evs st'.

(** What the steps of a statement are to satisfy. *)
Record inner_laws `{oracle : Oracle}
    (Q : state -> option exn -> list event -> state -> Prop) : Prop :=
  InnerLaws {
    in_seq : sequential Q;
    in_stdout : forall st text, Q st None [Stdout text] st;
    in_prompt : forall st name, Q st None [Stderr (":" +:+ name +:+ "=")] st;
    in_input : forall st line rest,
      stdin st = line :: rest ->
      Q st None [Input line]
        {| stdin := rest; database := database st;
           connection := connection st |};
    in_eof : forall st, stdin st = [] -> Q st (Some EOFError) [] st;
    in_execute_ok : forall st q b d c,
      execute (database st) q b = (d, inr c) ->
      Q st None [Execute q b None]
        {| stdin := stdin st; database := d; connection := connection st |};
    in_execute_fail : forall st q b d e,
      execute (database st) q b = (d, inl e) ->
      Q st (Some (OracleError e)) [Execute q b (Some e)]
        {| stdin := stdin st; database := d; connection := connection st |};
    in_fetch_ok : forall st, Q st None [FetchAll None] st;
    in_fetch_fail : forall st e,
      Q st (Some (OracleError e)) [FetchAll (Some e)] st }.

(** What the steps around the statements are to satisfy, [Qin] being the
    relation inside a cursor. *)
Record outer_laws `{oracle : Oracle}
    (Qin Qout : state -> option exn -> list event -> state -> Prop) : Prop :=
  OuterLaws {
    out_seq : sequential Qout;
    out_stdout : forall st text, Qout st None [Stdout text] st;
    out_stderr : forall st text, Qout st None [Stderr text] st;
    out_refused : forall st, Qout st (Some ValueError) [] st;
    out_cursor : forall st o evs st',
      Qin st o evs st' -> Qout st o (CursorOpen :: evs ++ [CursorClose]) st' }.

(** The phases of the use of the driver. *)
Inductive phase :=
| Starting
| Halted
| Refused
| Connected
| InCursor
| FailedInCursor
| FailedOpen
| Closed.

(** The events each phase admits, and the phase they lead to. *)
Definition step (p : phase) (ev : event) : option phase :=
  match p, ev with
  | Starting, Stderr _ => Some Starting
  | Starting, InitClient None => Some Starting
  | Starting, InitClient (Some _) => Some Halted
  | Starting, Connect None => Some Connected
  | Starting, Connect (Some _) => Some Refused
  | Refused, Stderr _ => Some Refused
  | Connected, Stdout _ => Some Connected
  | Connected, Stderr _ => Some Connected
  | Connected, CursorOpen => Some InCursor
  | Connected, ConnectionClose => Some Closed
  | InCursor, Stdout _ => Some InCursor
  | InCursor, Stderr _ => Some InCursor
  | InCursor, Input _ => Some InCursor
  | InCursor, Execute _ _ None => Some InCursor
  | InCursor, FetchAll None => Some InCursor
  | InCursor, Execute _ _ (Some _) => Some FailedInCursor
  | InCursor, FetchAll (Some _) => Some FailedInCursor
  | InCursor, CursorClose => Some Connected
  | FailedInCursor, CursorClose => Some FailedOpen
  | FailedOpen, Stderr _ => Some FailedOpen
  | FailedOpen, ConnectionClose => Some Closed
  | Closed, Stderr _ => Some Closed
  | _, _ => None
  end.

Fixpoint scan (p : phase) (evs : list event) : option phase :=
  match evs with
  | [] => Some p
  | ev :: rest =>
      match step p ev with
      | Some p' => scan p' rest
      | None => None
      end
  end.

(** The phase a computation leaves the driver in: [failed] after a
    database error, [p] otherwise. *)
Definition phase_after (p failed : phase) (o : option exn) : phase :=
  match o with
  | Some (OracleError _) => failed
  | _ => p
  end.

(** The lines read from the standard input, in order. *)
Definition inputs_of (evs : list event) : list string :=
  omap (fun ev => match ev with Input line => Some line | _ => None end) evs.

(** The phases in which no cursor and no connection is open. *)
Definition terminal (p : phase) : bool :=
  match p with
  | Starting | Halted | Refused | Closed => true
  | _ => false
  end.

(** The events of cleaning up and reporting. *)
Definition aftermath (ev : event) : bool :=
  match ev with
  | Stderr _ | CursorClose | ConnectionClose => true
  | _ => false
  end.

(** The texts written to the standard output, in order. *)
Definition stdout_of (evs : list event) : list string :=
  omap (fun ev => match ev with Stdout text => Some text | _ => None end) evs.

Section Course.

Context `{oracle : Oracle} `{sqlparse : SqlParse} `{latexenc : LatexEncode}
  `{order : SetOrder}.

(** The block under [try] after the connection is made. *)
Definition once_connected (args : arguments) (scripts : list task) : M bool :=
  bind (eprint "connected!") (fun _ =>
  bind (print_header (author args) (title args)) (fun _ =>
  bind (print "\begin{document}") (fun _ =>
  bind (print "\maketitle") (fun _ =>
  bind (for_each run_task scripts) (fun _ =>
  bind (print "\end{document}") (fun _ => ret true)))))).

(** The five ways [main] can go. *)
Inductive course (args : arguments) (st : state)
  : result bool -> list event -> state -> Prop :=
| BadScript x :
    parse_srcipts (query_file args) = Raise x ->
    course args st (Raise x) [] st
| NoClient scripts e :
    parse_srcipts (query_file args) = Ok scripts ->
    init_oracle_client (database st) = Some e ->
    course args st (Raise (OracleError e))
      [Stderr ("Scripts found: " +:+ Py.str_int (Z.of_nat (length scripts))
               +:+ Py.nl);
       InitClient (Some e)]
      st
| NoConnection scripts e :
    parse_srcipts (query_file args) = Ok scripts ->
    init_oracle_client (database st) = None ->
    connect (database st) = Some e ->
    course args st (Ok false)
      [Stderr ("Scripts found: " +:+ Py.str_int (Z.of_nat (length scripts))
               +:+ Py.nl);
       InitClient None;
       Stderr "Connecting to the database... ";
       Connect (Some e);
       error_line e]
      {| stdin := stdin st; database := database st; connection := false |}
| Failed scripts e evs1 st' :
    parse_srcipts (query_file args) = Ok scripts ->
    init_oracle_client (database st) = None ->
    connect (database st) = None ->
    once_connected args scripts
      {| stdin := stdin st; database := database st; connection := true |}
    = (Raise (OracleError e), evs1, st') ->
    course args st (Ok false)
      (Stderr ("Scripts found: " +:+ Py.str_int (Z.of_nat (length scripts))
               +:+ Py.nl)
       :: InitClient None
       :: Stderr "Connecting to the database... "
       :: Connect None
       :: evs1
       ++ [error_line e; ConnectionClose;
           Stderr ("Connection closed." +:+ Py.nl)])
      st'
| Through scripts r1 evs1 st' :
    parse_srcipts (query_file args) = Ok scripts ->
    init_oracle_client (database st) = None ->
    connect (database st) = None ->
    once_connected args scripts
      {| stdin := stdin st; database := database st; connection := true |}
    = (r1, evs1, st') ->
    (forall e, r1 <> Raise (OracleError e)) ->
    course args st r1
      (Stderr ("Scripts found: " +:+ Py.str_int (Z.of_nat (length scripts))
               +:+ Py.nl)
       :: InitClient None
       :: Stderr "Connecting to the database... "
       :: Connect None
       :: evs1
       ++ [ConnectionClose; Stderr ("Connection closed." +:+ Py.nl)])
      st'.

End Course.

(** The events of reporting the outcome of a statement: rows fetched,
    text written to the standard output. *)
Definition reports (ev : event) : bool :=
  match ev with
  | Stdout _ | FetchAll _ => true
  | _ => false
  end.

(** The phases after a database error. *)
Definition spent (p : phase) : bool :=
  match p with
  | Halted | Refused | FailedInCursor | FailedOpen | Closed => true
  | _ => false
  end.

(** The events of a cursor at work: a statement run, its rows fetched, a
    line read for a bind parameter. *)
Definition needs_cursor (ev : event) : bool :=
  match ev with
  | Execute _ _ _ | FetchAll _ | Input _ => true
  | _ => false
  end.

(** The events of one task whose statements gave the events [body]. *)
Definition task_events (i : Z) (body : list event) : list event :=
  Stderr ("Running task " +:+ Py.str_int i +:+ "..." +:+ String Py.TAB "")
  :: CursorOpen
  :: Stdout (("\section*{Task " +:+ Py.str_int i +:+ "}") +:+ Py.nl)
  :: body
  ++ [Stdout ("\pagebreak" +:+ Py.nl); CursorClose;
      Stderr ("done" +:+ Py.nl)].

(** The events of a run up to the first task, and after the last. *)
Definition opening_events (args : arguments) (scripts : list task)
  : list event :=
  [Stderr (("Scripts found: " +:+ Py.str_int (Z.of_nat (length scripts)))
           +:+ Py.nl);
   InitClient None;
   Stderr "Connecting to the database... ";
   Connect None;
   Stderr ("connected!" +:+ Py.nl);
   Stdout (header_text (author args) (title args) +:+ Py.nl);
   Stdout ("\begin{document}" +:+ Py.nl);
   Stdout ("\maketitle" +:+ Py.nl)].

Definition closing_events : list event :=
  [Stdout ("\end{document}" +:+ Py.nl);
   ConnectionClose;
   Stderr ("Connection closed." +:+ Py.nl)].

Section TasksDone.

Context `{oracle : Oracle} `{sqlparse : SqlParse} `{latexenc : LatexEncode}
  `{order : SetOrder}.

(** The tasks are carried out one after the other, each with a number
    that can be printed and with all its statements, from the state the
    one before left. *)
Inductive tasks_done : list task -> state -> list event -> state -> Prop :=
| NoTask st : tasks_done [] st [] st
| TaskDone i script rest st body st1 evs st2 :
    Py.str_ok i = true ->
    process_script (Py.join "" script) st = (Ok tt, body, st1) ->
    tasks_done rest st1 evs st2 ->
    tasks_done ((i, script) :: rest) st (task_events i body ++ evs) st2.

End TasksDone.

(** A statement with a bind parameter, and two lines on the standard
    input. *)
Definition asked_once :=
  Demo.run None
    (Args ("-- Task 1" +:+ Py.nl +:+ "SELECT :x FROM DUAL;" +:+ Py.nl +:+
           "-- Task 2" +:+ Py.nl +:+ "SELECT 2 FROM DUAL;" +:+ Py.nl)
       "A" "T")
    ["7"; "8"].

(** * Properties of the splitter *)

Section Splitter.

Implicit Types (st : splitter_state) (scripts : list task)
  (script lines : list string) (line : string).

Lemma loop_body_plain scripts script line :
  is_marker line = false ->
  loop_body (scripts, script) line = Ok (scripts, script ++ [line]).
Proof. intros H. unfold loop_body, on_marker. now rewrite H. Qed.

Lemma loop_body_close scripts script line num :
  is_marker line = true -> marker_number line = Some num -> script <> [] ->
  loop_body (scripts, script) line = Ok (scripts ++ [(num - 1, script)], [line]).
Proof.
  intros H1 H2 H3. unfold loop_body, on_marker. rewrite H1, H2.
  destruct script; [congruence | reflexivity].
Qed.

Lemma loop_body_bad st line :
  is_marker line = true -> marker_number line = None ->
  loop_body st line = Raise ValueError.
Proof.
  intros H1 H2. destruct st. unfold loop_body, on_marker. now rewrite H1, H2.
Qed.

(** The only exception of the loop is the [ValueError] of [int]. *)
Lemma loop_body_raises st line e :
  loop_body st line = Raise e -> e = ValueError.
Proof.
  destruct st as [scripts script]. unfold loop_body, on_marker.
  destruct (is_marker line); [|discriminate].
  destruct (marker_number line); [destruct script; discriminate|].
  congruence.
Qed.

(** A marker whose number does not parse stops the loop. *)
Lemma for_lines_bad lines : forall st,
  Exists (fun l => is_marker l = true /\ marker_number l = None) lines ->
  for_lines st lines = Raise ValueError.
Proof.
  induction lines as [|l ls IH]; intros st H; [inversion H|].
  simpl. destruct (loop_body st l) eqn:E.
  - inversion H as [? ? [H1 H2]|]; subst; [|now apply IH].
    rewrite (loop_body_bad st l H1 H2) in E. discriminate.
  - f_equal. eauto using loop_body_raises.
Qed.

Lemma loop_body_ok st line :
  parses line -> exists st', loop_body st line = Ok st'.
Proof.
  intros H. destruct st as [scripts script]. unfold loop_body, on_marker.
  destruct (is_marker line) eqn:E; [|eauto].
  destruct (H E) as [num ->]. destruct script; eauto.
Qed.

Lemma for_lines_ok lines : forall st,
  Forall parses lines -> exists st', for_lines st lines = Ok st'.
Proof.
  induction lines as [|l ls IH]; intros st H; simpl; [eauto|].
  inversion H; subst.
  destruct (loop_body_ok st l) as [st' ->]; auto.
Qed.

(** *** No marker, no closed block *)

Lemma for_lines_no_marker lines : forall script,
  count_markers lines = 0%nat ->
  for_lines ([], script) lines = Ok ([], script ++ lines).
Proof.
  unfold count_markers.
  induction lines as [|l ls IH]; intros script H; simpl.
  - now rewrite app_nil_r.
  - rewrite filter_cons in H. destruct (decide (is_marker l = true)) as [E|E].
    + discriminate.
    + apply not_true_is_false in E. rewrite loop_body_plain by exact E.
      rewrite IH by exact H. now rewrite <- app_assoc.
Qed.

(** *** The blocks are the file, cut at the markers *)

Lemma loop_body_concat scripts script line scripts' script' :
  loop_body (scripts, script) line = Ok (scripts', script') ->
  concat (map snd scripts') ++ script'
  = (concat (map snd scripts) ++ script) ++ [line].
Proof.
  unfold loop_body, on_marker.
  destruct (is_marker line).
  - destruct (marker_number line); [|discriminate].
    destruct script as [|x xs]; intros [= <- <-].
    + now rewrite app_nil_r.
    + rewrite map_app, concat_app. simpl. now rewrite app_nil_r.
  - intros [= <- <-]. now rewrite app_assoc.
Qed.

Lemma for_lines_concat lines : forall scripts script scripts' script',
  for_lines (scripts, script) lines = Ok (scripts', script') ->
  concat (map snd scripts') ++ script'
  = (concat (map snd scripts) ++ script) ++ lines.
Proof.
  induction lines as [|l ls IH]; intros scripts script scripts' script'; simpl.
  - intros [= <- <-]. now rewrite app_nil_r.
  - destruct (loop_body (scripts, script) l) as [[sc1 s1]|] eqn:E; [|discriminate].
    intros H. rewrite (IH _ _ _ _ H), (loop_body_concat _ _ _ _ _ E).
    now rewrite <- app_assoc.
Qed.

(** Once a line has been read the accumulated block is never empty, and
    every later marker closes a block. *)
Lemma loop_body_count scripts script line scripts' script' :
  script <> [] -> Forall (fun t => snd t <> []) scripts ->
  loop_body (scripts, script) line = Ok (scripts', script') ->
  script' <> [] /\ Forall (fun t => snd t <> []) scripts' /\
  length scripts' = (length scripts + count_markers [line])%nat.
Proof.
  intros Hne Hall. unfold loop_body, on_marker, count_markers.
  rewrite filter_cons, filter_nil.
  destruct (is_marker line) eqn:E.
  - destruct (marker_number line); [|discriminate].
    destruct script as [|x xs]; [congruence|]. intros [= <- <-].
    rewrite decide_True by reflexivity. split; [discriminate|]. split.
    + apply Forall_app. split; [exact Hall|]. now constructor.
    + now rewrite length_app.
  - intros [= <- <-]. rewrite decide_False by discriminate.
    split; [now destruct script|]. split; [exact Hall|]. simpl. lia.
Qed.

Lemma count_markers_cons l ls :
  count_markers (l :: ls) = (count_markers [l] + count_markers ls)%nat.
Proof.
  unfold count_markers. rewrite !filter_cons, filter_nil.
  destruct (decide (is_marker l = true)); reflexivity.
Qed.

Lemma count_markers_single l :
  count_markers [l] = if is_marker l then 1%nat else 0%nat.
Proof.
  unfold count_markers. rewrite filter_cons, filter_nil.
  destruct (is_marker l).
  - now rewrite decide_True.
  - now rewrite decide_False.
Qed.

Lemma for_lines_count lines : forall scripts script scripts' script',
  script <> [] -> Forall (fun t => snd t <> []) scripts ->
  for_lines (scripts, script) lines = Ok (scripts', script') ->
  script' <> [] /\ Forall (fun t => snd t <> []) scripts' /\
  length scripts' = (length scripts + count_markers lines)%nat.
Proof.
  induction lines as [|l ls IH]; intros scripts script scripts' script' Hne Hall; simpl.
  - intros [= <- <-]. unfold count_markers. rewrite filter_nil. simpl.
    split; [exact Hne|]. split; [exact Hall|]. lia.
  - destruct (loop_body (scripts, script) l) as [[sc1 s1]|] eqn:E; [|discriminate].
    intros H. destruct (loop_body_count _ _ _ _ _ Hne Hall E) as (H1 & H2 & H3).
    destruct (IH _ _ _ _ H1 H2 H) as (H4 & H5 & H6).
    split; [exact H4|]. split; [exact H5|]. rewrite count_markers_cons. lia.
Qed.

(** The first line opens the first block, marker or not. *)
Lemma loop_body_start line st :
  loop_body ([], []) line = Ok st -> st = ([], [line]).
Proof.
  unfold loop_body, on_marker. destruct (is_marker line).
  - destruct (marker_number line); [|discriminate]. now intros [= <-].
  - now intros [= <-].
Qed.

(** *** The numbering invariant *)

Lemma heads_marker_grow k blk line :
  heads_marker k blk -> heads_marker k (blk ++ [line]).
Proof. intros (m & rest & -> & H1 & H2). exists m, (rest ++ [line]). auto. Qed.

Lemma numbered_by_next_grow tasks : forall next line,
  next <> [] -> numbered_by_next tasks next ->
  numbered_by_next tasks (next ++ [line]).
Proof.
  induction tasks as [|[n b] rest IH]; intros next line Hne; simpl; [auto|].
  intros [H1 H2]. split; [|now apply IH].
  destruct rest as [|[? ?] ?]; [now apply heads_marker_grow | exact H1].
Qed.

Lemma numbered_by_next_snoc tasks : forall n b next,
  numbered_by_next tasks b -> heads_marker (n + 1) next ->
  numbered_by_next (tasks ++ [(n, b)]) next.
Proof.
  induction tasks as [|[n' b'] rest IH]; intros n b next; simpl; [auto|].
  intros [H1 H2] H3. split; [|now apply IH].
  destruct rest as [|[? ?] ?]; simpl; exact H1.
Qed.

Lemma loop_body_inv st line st' :
  splitter_inv st -> loop_body st line = Ok st' -> splitter_inv st'.
Proof.
  destruct st as [scripts script]. intros [H1 H2].
  unfold loop_body, on_marker, splitter_inv. simpl in *.
  destruct (is_marker line) eqn:E.
  - destruct (marker_number line) as [num|] eqn:En; [|discriminate].
    destruct script as [|x xs]; intros [= <-]; simpl.
    + rewrite (H2 eq_refl). split; [exact I | discriminate].
    + split; [|discriminate].
      apply numbered_by_next_snoc; [exact H1|].
      exists line, []. replace (num - 1 + 1) with num by lia. auto.
  - intros [= <-]. simpl. split.
    + destruct script as [|x xs]; [now rewrite (H2 eq_refl)|].
      now apply numbered_by_next_grow.
    + now destruct script.
Qed.

Lemma for_lines_inv lines : forall st st',
  splitter_inv st -> for_lines st lines = Ok st' -> splitter_inv st'.
Proof.
  induction lines as [|l ls IH]; intros st st' Hinv; simpl.
  - now intros [= <-].
  - destruct (loop_body st l) eqn:E; [|discriminate].
    eauto using loop_body_inv.
Qed.

(** C3: a script without any marker line makes the splitter fail: no block
    is ever closed, so the final [scripts[-1]] raises [IndexError] and no
    task list is returned. *)
Theorem no_marker_fails contents :
  count_markers (Py.file_lines contents) = 0%nat ->
  parse_srcipts contents = Raise IndexError.
Proof.
  intros H. unfold parse_srcipts, parse_srcipts_lines.
  now rewrite (for_lines_no_marker _ [] H).
Qed.

Lemma no_marker_fails_witness :
  count_markers (Py.file_lines ("SELECT 1 FROM DUAL;" +:+ Py.nl)) = 0%nat /\
  parse_srcipts ("SELECT 1 FROM DUAL;" +:+ Py.nl) = Raise IndexError.
Proof.
  split; [reflexivity|]. apply no_marker_fails. reflexivity.
Defined.

(** C10: the number of a marker line is read from offset 8 on, so the
    character at offset 7 is passed over whatever it is; [-- Task42] gives
    2, and a marker line with no integer from offset 8 on, such as
    [-- Task1] and a line end, raises [ValueError]. *)
Theorem marker_offset_rule :
  (forall c rest,
      is_marker (marker +:+ String c rest) = true /\
      marker_number (marker +:+ String c rest) = Py.int rest)
  /\ marker_number "-- Task42" = Some 2
  /\ marker_number ("-- Task1" +:+ Py.nl) = None
  /\ (forall contents,
        Exists (fun l => is_marker l = true /\ marker_number l = None)
          (Py.file_lines contents) ->
        parse_srcipts contents = Raise ValueError)
  /\ parse_srcipts ("-- Task1" +:+ Py.nl) = Raise ValueError.
Proof.
  split; [intros c rest; split; reflexivity|].
  split; [reflexivity|]. split; [reflexivity|]. split; [|reflexivity].
  intros contents H. unfold parse_srcipts, parse_srcipts_lines.
  now rewrite (for_lines_bad _ _ H).
Qed.

Lemma marker_offset_rule_witness :
  parse_srcipts ("SELECT 0 FROM DUAL;" +:+ Py.nl +:+ "-- Task7" +:+ Py.nl)
  = Raise ValueError.
Proof.
  apply (proj1 (proj2 (proj2 (proj2 marker_offset_rule)))).
  apply Exists_cons_tl, Exists_cons_hd. split; reflexivity.
Defined.

(** C1: a marker line met while the accumulated block is not empty closes
    that block with the number of the marker minus one; the last block is
    appended with the number of the block before it plus one; the script
    with the markers [-- Task 1] and [-- Task 2] gives two tasks, numbered
    1 and 2. *)
Theorem splitter_numbering_rule :
  (forall scripts script line num,
      is_marker line = true -> marker_number line = Some num -> script <> [] ->
      loop_body (scripts, script) line
      = Ok (scripts ++ [(num - 1, script)], [line]))
  /\ (forall scripts k blk script,
        close_last (scripts ++ [(k, blk)], script)
        = Ok ((scripts ++ [(k, blk)]) ++ [(k + 1, script)]))
  /\ (forall contents tasks,
        parse_srcipts contents = Ok tasks ->
        exists closed k blk final,
          tasks = closed ++ [(k, blk); (k + 1, final)] /\
          numbered_by_next (closed ++ [(k, blk)]) final)
  /\ parse_srcipts example_script
     = Ok [(1, ["-- Task 1" +:+ Py.nl; "SELECT 1 FROM DUAL;" +:+ Py.nl]);
           (2, ["-- Task 2" +:+ Py.nl; "SELECT 2 FROM DUAL;" +:+ Py.nl])].
Proof.
  split; [intros; now apply loop_body_close|].
  split; [intros; unfold close_last; now rewrite last_snoc|].
  split; [|reflexivity].
  intros contents tasks. unfold parse_srcipts, parse_srcipts_lines.
  destruct (for_lines ([], []) (Py.file_lines contents)) as [[scripts script]|] eqn:E;
    [|discriminate].
  assert (Hinv : splitter_inv (scripts, script)).
  { eapply for_lines_inv; [|exact E]. now split. }
  destruct Hinv as [Hnum _]. simpl in Hnum.
  unfold close_last. destruct (last scripts) as [[k blk]|] eqn:El; [|discriminate].
  intros [= <-].
  destruct (last_Some scripts (k, blk)) as [[closed ->] _]; [exact El|].
  exists closed, k, blk, script. rewrite <- app_assoc. split; [reflexivity|].
  exact Hnum.
Qed.

Lemma splitter_numbering_rule_witness :
  loop_body ([(3, ["-- Task 3" +:+ Py.nl])], ["-- Task 4" +:+ Py.nl])
    ("-- Task 9" +:+ Py.nl)
  = Ok ([(3, ["-- Task 3" +:+ Py.nl])] ++ [(9 - 1, ["-- Task 4" +:+ Py.nl])],
        ["-- Task 9" +:+ Py.nl])
  /\ exists closed k blk final,
       [(1, ["-- Task 1" +:+ Py.nl; "SELECT 1 FROM DUAL;" +:+ Py.nl]);
        (2, ["-- Task 2" +:+ Py.nl; "SELECT 2 FROM DUAL;" +:+ Py.nl])]
       = closed ++ [(k, blk); (k + 1, final)] /\
       numbered_by_next (closed ++ [(k, blk)]) final.
Proof.
  split.
  - apply (proj1 splitter_numbering_rule); [reflexivity | reflexivity | discriminate].
  - apply (proj1 (proj2 (proj2 splitter_numbering_rule)) example_script).
    reflexivity.
Defined.

(** C2, as the code has it: when every marker carries a number and some
    marker comes after the first line, a script with N marker lines gives N
    tasks if its first line is a marker and N + 1 tasks otherwise (the
    lines before the first marker are a task of their own); every task
    carries a non-empty block, and the blocks, in order, are the lines of
    the file. *)
Theorem splitter_blocks contents :
  Forall parses (Py.file_lines contents) ->
  (1 <= count_markers (tail (Py.file_lines contents)))%nat ->
  exists tasks,
    parse_srcipts contents = Ok tasks /\
    length tasks
    = (if is_marker (hd "" (Py.file_lines contents))
       then count_markers (Py.file_lines contents)
       else S (count_markers (Py.file_lines contents))) /\
    Forall (fun t => snd t <> []) tasks /\
    concat (map snd tasks) = Py.file_lines contents.
Proof.
  unfold parse_srcipts, parse_srcipts_lines.
  destruct (Py.file_lines contents) as [|l ls]; intros Hp Hc.
  { vm_compute in Hc. lia. }
  simpl in Hc. simpl hd.
  destruct (for_lines_ok (l :: ls) ([], []) Hp) as [[scripts script] E].
  rewrite E. pose proof (for_lines_concat _ _ _ _ _ E) as Hcat.
  simpl in E. destruct (loop_body ([], []) l) as [st1|] eqn:E1; [|discriminate].
  apply loop_body_start in E1. subst st1.
  destruct (for_lines_count ls [] [l] scripts script) as (H1 & H2 & H3);
    [discriminate | constructor | exact E |].
  simpl in H3. unfold close_last.
  destruct (last scripts) as [[k blk]|] eqn:El.
  - eexists. split; [reflexivity|]. split; [|split].
    + rewrite length_app, H3, count_markers_cons, count_markers_single.
      destruct (is_marker l); simpl; lia.
    + apply Forall_app. split; [exact H2|]. now constructor.
    + rewrite map_app, concat_app. simpl. rewrite app_nil_r. exact Hcat.
  - apply last_None in El. subst scripts. simpl in H3. lia.
Qed.

Lemma splitter_blocks_witness :
  exists tasks,
    parse_srcipts example_script = Ok tasks /\
    length tasks = 2%nat /\
    Forall (fun t => snd t <> []) tasks /\
    concat (map snd tasks) = Py.file_lines example_script.
Proof.
  apply (splitter_blocks example_script).
  - change (Py.file_lines example_script)
      with ["-- Task 1" +:+ Py.nl; "SELECT 1 FROM DUAL;" +:+ Py.nl;
            "-- Task 2" +:+ Py.nl; "SELECT 2 FROM DUAL;" +:+ Py.nl].
    repeat (apply List.Forall_cons;
            [intros H; vm_compute in H |- *; first [discriminate | eauto]|]).
    apply List.Forall_nil.
  - vm_compute. lia.
Defined.

(** C2 as stated fails: a script with one marker line after a leading
    statement gives two tasks. *)
Lemma splitter_blocks_counterexample :
  count_markers (Py.file_lines one_marker_script) = 1%nat /\
  parse_srcipts one_marker_script
  = Ok [(0, ["SELECT 0 FROM DUAL;" +:+ Py.nl]);
        (1, ["-- Task 1" +:+ Py.nl; "SELECT 1 FROM DUAL;" +:+ Py.nl])] /\
  ~ (exists tasks,
       parse_srcipts one_marker_script = Ok tasks /\ length tasks = 1%nat).
Proof.
  split; [reflexivity|]. split; [reflexivity|].
  intros (tasks & H & Hlen). vm_compute in H. injection H as <-. discriminate.
Qed.

End Splitter.

(** * Properties of the text functions *)

Section Text.

Implicit Types (s t a b : string) (c : ascii) (k n : nat).

Lemma append_cons c s t : String c s +:+ t = String c (s +:+ t).
Proof. reflexivity. Qed.

Lemma append_nil_l s : "" +:+ s = s.
Proof. reflexivity. Qed.

Lemma length_append s t :
  String.length (s +:+ t) = (String.length s + String.length t)%nat.
Proof.
  induction s as [|c s IH]; [reflexivity|].
  rewrite append_cons. simpl. now rewrite IH.
Qed.

Lemma append_assoc s t a : (s +:+ t) +:+ a = s +:+ (t +:+ a).
Proof.
  induction s as [|c s IH]; [reflexivity|].
  rewrite !append_cons. now f_equal.
Qed.

Lemma append_nil_r s : s +:+ "" = s.
Proof.
  induction s as [|c s IH]; [reflexivity|]. rewrite append_cons. now f_equal.
Qed.

Lemma length_mul_char c n : String.length (Py.mul (String c "") n) = n.
Proof.
  induction n as [|n IH]; [reflexivity|].
  cbn [Py.mul]. rewrite append_cons, append_nil_l. simpl. now rewrite IH.
Qed.

Lemma slice_from_nil n : Py.slice_from n "" = "".
Proof. now destruct n. Qed.

Lemma length_slice_from n : forall s,
  String.length (Py.slice_from n s) = (String.length s - n)%nat.
Proof.
  induction n as [|n IH]; intros [|c s]; simpl; try reflexivity. apply IH.
Qed.

(** Passing over [k] characters of a match is dropping them. *)
Lemma sub_space_runs_skip s : forall k,
  Py.sub_space_runs_from k s = Py.sub_space_runs (Py.slice_from k s).
Proof.
  unfold Py.sub_space_runs.
  induction s as [|c s IH]; intros [|k]; simpl; try reflexivity.
  apply IH.
Qed.

Lemma leading_spaces_le s : (Py.leading_spaces s <= String.length s)%nat.
Proof.
  induction s as [|c s IH]; simpl; [lia|]. destruct (Ascii.eqb c " "); lia.
Qed.

(** The two cases of the scan at a position outside a match. *)
Lemma sub_space_runs_match s :
  (2 <= Py.leading_spaces s)%nat ->
  Py.sub_space_runs s
  = Py.mul "~" (Py.leading_spaces s)
    +:+ Py.sub_space_runs (Py.slice_from (Py.leading_spaces s) s).
Proof.
  intros H. destruct s as [|c s]; [simpl in H; lia|].
  unfold Py.sub_space_runs at 1. cbn [Py.sub_space_runs_from].
  destruct (Nat.leb_spec 2 (Py.leading_spaces (String c s))) as [_|H']; [|lia].
  rewrite sub_space_runs_skip. do 2 f_equal.
  destruct (Py.leading_spaces (String c s)) as [|n]; [lia|].
  simpl. now rewrite Nat.sub_0_r.
Qed.

Lemma sub_space_runs_pass c s :
  (Py.leading_spaces (String c s) < 2)%nat ->
  Py.sub_space_runs (String c s) = String c (Py.sub_space_runs s).
Proof.
  intros H. unfold Py.sub_space_runs at 1. cbn [Py.sub_space_runs_from].
  destruct (Nat.leb_spec 2 (Py.leading_spaces (String c s))) as [H'|_]; [lia|].
  reflexivity.
Qed.

Lemma length_sub_space_runs_aux n : forall s,
  (String.length s <= n)%nat ->
  String.length (Py.sub_space_runs s) = String.length s.
Proof.
  induction n as [|n IH]; intros s Hn.
  - destruct s; [reflexivity | simpl in Hn; lia].
  - destruct s as [|c s]; [reflexivity|].
    destruct (Nat.leb_spec 2 (Py.leading_spaces (String c s))) as [H|H].
    + pose proof (leading_spaces_le (String c s)) as Hle.
      rewrite sub_space_runs_match by exact H.
      remember (Py.leading_spaces (String c s)) as m eqn:Em.
      remember (String c s) as t eqn:Et.
      assert (Ht : (String.length t <= S n)%nat) by exact Hn.
      rewrite length_append, length_mul_char, IH;
        rewrite length_slice_from; lia.
    + rewrite sub_space_runs_pass by exact H. simpl. f_equal. apply IH.
      simpl in Hn. lia.
Qed.

Lemma length_sub_space_runs s :
  String.length (Py.sub_space_runs s) = String.length s.
Proof. now apply (length_sub_space_runs_aux (String.length s)). Qed.

(** *** Runs of spaces *)

Lemma ends_in_space_tail c s : ends_in_space (String c s) = false ->
  ends_in_space s = false.
Proof. destruct s; [reflexivity | simpl; auto]. Qed.

Lemma reverse_onto_head s : forall acc c,
  Py.startswith " " (Py.reverse_onto (String c s) acc)
  = ends_in_space (String c s).
Proof.
  induction s as [|c' s IH]; intros acc c.
  - cbn [Py.startswith Py.reverse_onto ends_in_space].
    rewrite (Ascii.eqb_sym c " "). now destruct (Ascii.eqb " " c).
  - change (Py.reverse_onto (String c (String c' s)) acc)
      with (Py.reverse_onto (String c' s) (String c acc)).
    now rewrite IH.
Qed.

Lemma endswith_space s : Py.endswith " " s = ends_in_space s.
Proof.
  destruct s as [|c s]; [reflexivity|]. unfold Py.endswith.
  change (Py.reverse_onto " " "") with " ". apply reverse_onto_head.
Qed.

Lemma leading_spaces_append a t :
  a <> "" -> ends_in_space a = false ->
  Py.leading_spaces (a +:+ t) = Py.leading_spaces a.
Proof.
  induction a as [|c a IH]; intros Hne He; [congruence|].
  rewrite append_cons. simpl Py.leading_spaces.
  destruct (Ascii.eqb c " ") eqn:Ec; [|reflexivity].
  f_equal. destruct a as [|c' a].
  - simpl in He. congruence.
  - apply IH; [discriminate | exact He].
Qed.

(** A run of spaces cannot reach across the end of a text that does not
    end in a space. *)
Lemma sub_space_runs_from_append t a : ends_in_space a = false ->
  forall k, (k <= String.length a)%nat ->
  Py.sub_space_runs_from k (a +:+ t)
  = Py.sub_space_runs_from k a +:+ Py.sub_space_runs t.
Proof.
  induction a as [|c a IH]; intros He k Hk.
  - simpl in Hk. replace k with O by lia. now destruct t.
  - pose proof (ends_in_space_tail _ _ He) as He'.
    rewrite append_cons. destruct k as [|k].
    + cbn [Py.sub_space_runs_from]. rewrite <- append_cons.
      rewrite leading_spaces_append by (discriminate || exact He).
      pose proof (leading_spaces_le (String c a)) as Hle.
      change (String.length (String c a)) with (S (String.length a)) in Hle.
      destruct (2 <=? Py.leading_spaces (String c a))%nat.
      * rewrite IH by (first [exact He' | lia]). now rewrite append_assoc.
      * rewrite IH by (first [exact He' | lia]). now rewrite append_cons.
    + cbn [Py.sub_space_runs_from].
      change (String.length (String c a)) with (S (String.length a)) in Hk.
      apply IH; [exact He' | lia].
Qed.

Lemma sub_space_runs_append a t : ends_in_space a = false ->
  Py.sub_space_runs (a +:+ t) = Py.sub_space_runs a +:+ Py.sub_space_runs t.
Proof.
  intros He. apply (sub_space_runs_from_append t a He 0%nat). lia.
Qed.

Lemma leading_spaces_run k b : Py.startswith " " b = false ->
  Py.leading_spaces (Py.mul " " k +:+ b) = k.
Proof.
  intros Hb. induction k as [|k IH].
  - destruct b as [|c b]; [reflexivity|].
    cbn [Py.startswith] in Hb. cbn [Py.mul Py.leading_spaces]. rewrite append_nil_l.
    cbn [Py.leading_spaces].
    rewrite Ascii.eqb_sym. now destruct (Ascii.eqb " " c).
  - cbn [Py.mul]. rewrite !append_cons, append_nil_l.
    cbn [Py.leading_spaces]. rewrite Ascii.eqb_refl. now rewrite IH.
Qed.

Lemma slice_from_run k b : Py.slice_from k (Py.mul " " k +:+ b) = b.
Proof.
  induction k as [|k IH]; [reflexivity|].
  cbn [Py.mul]. rewrite !append_cons, append_nil_l. exact IH.
Qed.

(** A run of [k] spaces at the start of a text. *)
Lemma sub_space_runs_run k b : Py.startswith " " b = false ->
  Py.sub_space_runs (Py.mul " " k +:+ b) = run_image k +:+ Py.sub_space_runs b.
Proof.
  intros Hb. unfold run_image.
  destruct (Nat.leb_spec 2 k) as [H|H].
  - rewrite sub_space_runs_match; rewrite leading_spaces_run by exact Hb;
      [|exact H]. now rewrite slice_from_run.
  - destruct k as [|[|k]]; [reflexivity | | lia].
    change (Py.mul " " 1 +:+ b) with (String " " b).
    rewrite sub_space_runs_pass; [reflexivity|].
    change (String " " b) with (Py.mul " " 1 +:+ b).
    rewrite leading_spaces_run by exact Hb. lia.
Qed.

(** *** Stripping *)

Lemma rstrip_cons c s :
  Py.rstrip (String c s)
  = match Py.rstrip s with
    | EmptyString => if Py.isspace c then EmptyString else String c ""
    | r => String c r
    end.
Proof. reflexivity. Qed.

Lemma rstrip_idem s : Py.rstrip (Py.rstrip s) = Py.rstrip s.
Proof.
  induction s as [|c s IH]; [reflexivity|].
  rewrite rstrip_cons. destruct (Py.rstrip s) as [|d r] eqn:E.
  - destruct (Py.isspace c) eqn:Ec; [reflexivity|].
    rewrite rstrip_cons. cbn [Py.rstrip]. now rewrite Ec.
  - rewrite rstrip_cons, IH. reflexivity.
Qed.

Lemma lstrip_idem s : Py.lstrip (Py.lstrip s) = Py.lstrip s.
Proof.
  induction s as [|c s IH]; [reflexivity|]. cbn [Py.lstrip].
  destruct (Py.isspace c) eqn:Ec; [exact IH|]. cbn [Py.lstrip]. now rewrite Ec.
Qed.

Lemma rstrip_lstrip s : Py.rstrip (Py.lstrip s) = Py.lstrip (Py.rstrip s).
Proof.
  induction s as [|c s IH]; [reflexivity|].
  cbn [Py.lstrip]. rewrite rstrip_cons.
  destruct (Py.isspace c) eqn:Ec.
  - rewrite IH. destruct (Py.rstrip s) as [|d r]; [reflexivity|].
    cbn [Py.lstrip]. now rewrite Ec.
  - rewrite rstrip_cons.
    destruct (Py.rstrip s) as [|d r]; rewrite ?Ec; cbn [Py.lstrip]; now rewrite Ec.
Qed.

Lemma strip_idem s : Py.strip (Py.strip s) = Py.strip s.
Proof.
  unfold Py.strip. now rewrite rstrip_lstrip, rstrip_idem, lstrip_idem.
Qed.

(** The stand-in splitter returns stripped statements, as [sqlparse]
    does. *)
Lemma demo_split_strips s q : q ∈ Demo.split s -> Py.strip q = q.
Proof.
  unfold Demo.split. intros H. apply list_elem_of_fmap in H as (x & -> & _).
  apply strip_idem.
Qed.

End Text.

(** * Properties of the report *)

Section Report.

Context `{oracle : Oracle} `{sqlparse : SqlParse} `{latexenc : LatexEncode}
  `{order : SetOrder}.

(** C7: in the text the sanitizer hands to the regular expression (the
    transliterated text with its bars escaped), every maximal run of two
    or more spaces becomes as many tildes, and the length of the text is
    kept; with a transliteration that leaves ["a  b"] alone, sanitizing
    ["a  b"] gives ["a~~b"]. *)
Theorem sanitize_space_runs :
  (forall s a k b,
      Py.replace "|" "\text{\textbar}" (unicode_to_latex s)
      = a +:+ Py.mul " " k +:+ b ->
      Py.endswith " " a = false -> Py.startswith " " b = false ->
      (2 <= k)%nat ->
      sanitize_latex s
      = Py.sub_space_runs a +:+ Py.mul "~" k +:+ Py.sub_space_runs b)
  /\ (forall s,
        String.length (sanitize_latex s)
        = String.length (Py.replace "|" "\text{\textbar}" (unicode_to_latex s)))
  /\ (unicode_to_latex "a  b" = "a  b" -> sanitize_latex "a  b" = "a~~b").
Proof.
  split; [|split].
  - intros s a k b Ht Ha Hb Hk. unfold sanitize_latex. rewrite Ht.
    rewrite endswith_space in Ha.
    rewrite sub_space_runs_append by exact Ha.
    rewrite sub_space_runs_run by exact Hb. unfold run_image.
    destruct (Nat.leb_spec 2 k); [reflexivity | lia].
  - intros s. unfold sanitize_latex. apply length_sub_space_runs.
  - intros H. unfold sanitize_latex. rewrite H. vm_compute. reflexivity.
Qed.

(** *** The header *)

(** A match of TITLE cannot reach across the brace that closes the
    author. *)
Lemma title_boundary a t :
  Py.startswith "TITLE" (a +:+ String "}" t) = true ->
  Py.startswith "TITLE" a = true.
Proof.
  destruct a as [|c1 [|c2 [|c3 [|c4 [|c5 a]]]]];
    rewrite ?append_cons, ?append_nil_l; cbn [Py.startswith];
    repeat match goal with
           | |- context [Ascii.eqb ?x c1] => destruct (Ascii.eqb x c1)
           | |- context [Ascii.eqb ?x c2] => destruct (Ascii.eqb x c2)
           | |- context [Ascii.eqb ?x c3] => destruct (Ascii.eqb x c3)
           | |- context [Ascii.eqb ?x c4] => destruct (Ascii.eqb x c4)
           | |- context [Ascii.eqb ?x c5] => destruct (Ascii.eqb x c5)
           end;
    try discriminate; try reflexivity.
Qed.

Lemma replace_from_clear old new t a :
  (forall a1 c a2, a = a1 +:+ String c a2 ->
                   Py.startswith old (String c a2 +:+ t) = false) ->
  Py.replace_from old new 0 (a +:+ t) = a +:+ Py.replace_from old new 0 t.
Proof.
  induction a as [|c a IH]; intros H; [reflexivity|].
  rewrite append_cons. cbn [Py.replace_from]. rewrite <- append_cons.
  rewrite (H "" c a eq_refl). rewrite append_cons. f_equal. apply IH.
  intros a1 c' a2 ->. apply (H (String c a1) c' a2). reflexivity.
Qed.

Lemma occurs_suffix old a1 a2 :
  occurs old (a1 +:+ a2) = false -> occurs old a2 = false.
Proof.
  induction a1 as [|c a1 IH]; [auto|]. rewrite append_cons.
  cbn [occurs]. intros H. apply orb_false_iff in H as [_ H]. auto.
Qed.

(** X10: when the author does not contain the word TITLE, both strings
    are put into the preamble as they are, whatever the title contains. *)
Lemma header_literal author title :
  occurs "TITLE" author = false ->
  header_text author title = literal_header author title.
Proof.
  intros Hocc. unfold header_text, literal_header.
  set (tail := "}" +:+ Py.nl +:+ "\title{\vspace{-2cm} TITLE}" +:+ Py.nl +:+
               "\date{}" +:+ Py.nl).
  assert (H1 : Py.replace "AUTHOR" author preamble
    = (Py.nl +:+
       "\documentclass{article}" +:+ Py.nl +:+
       "\usepackage{minted}" +:+ Py.nl +:+
       "\usepackage{geometry}" +:+ Py.nl +:+
       "\usepackage{amsmath}" +:+ Py.nl +:+
       "\usepackage{tabularx}" +:+ Py.nl +:+
       Py.nl +:+
       "\geometry{a4paper,left=1cm,right=1cm,top=2cm,bottom=2cm}" +:+ Py.nl +:+
       "\author{") +:+ (author +:+ tail))
    by (vm_compute; reflexivity).
  rewrite H1. clear H1.
  assert (H2 : forall x,
    Py.replace "TITLE" title
      ((Py.nl +:+
        "\documentclass{article}" +:+ Py.nl +:+
        "\usepackage{minted}" +:+ Py.nl +:+
        "\usepackage{geometry}" +:+ Py.nl +:+
        "\usepackage{amsmath}" +:+ Py.nl +:+
        "\usepackage{tabularx}" +:+ Py.nl +:+
        Py.nl +:+
        "\geometry{a4paper,left=1cm,right=1cm,top=2cm,bottom=2cm}" +:+ Py.nl +:+
        "\author{") +:+ x)
    = (Py.nl +:+
       "\documentclass{article}" +:+ Py.nl +:+
       "\usepackage{minted}" +:+ Py.nl +:+
       "\usepackage{geometry}" +:+ Py.nl +:+
       "\usepackage{amsmath}" +:+ Py.nl +:+
       "\usepackage{tabularx}" +:+ Py.nl +:+
       Py.nl +:+
       "\geometry{a4paper,left=1cm,right=1cm,top=2cm,bottom=2cm}" +:+ Py.nl +:+
       "\author{") +:+ Py.replace_from "TITLE" title 0 x)
    by (intros x; vm_compute; reflexivity).
  rewrite H2. clear H2. f_equal.
  rewrite replace_from_clear.
  - f_equal; vm_compute; reflexivity.
  - intros a1 c a2 ->. apply occurs_suffix in Hocc.
    cbn [occurs] in Hocc. apply orb_false_iff in Hocc as [Hocc _].
    destruct (Py.startswith "TITLE" (String c a2 +:+ tail)) eqn:E; [|reflexivity].
    apply title_boundary in E. congruence.
Qed.

(** C8, at the input where it fails: an author that contains the word
    TITLE is not inserted as it is; the second replacement rewrites it, so
    the header for the author ["TITLE"] is the header for the author
    ["Report"]. *)
Theorem header_author_rewritten :
  header_text "TITLE" "Report" = header_text "Report" "Report" /\
  header_text "TITLE" "Report"
  = Py.nl +:+
    "\documentclass{article}" +:+ Py.nl +:+
    "\usepackage{minted}" +:+ Py.nl +:+
    "\usepackage{geometry}" +:+ Py.nl +:+
    "\usepackage{amsmath}" +:+ Py.nl +:+
    "\usepackage{tabularx}" +:+ Py.nl +:+
    Py.nl +:+
    "\geometry{a4paper,left=1cm,right=1cm,top=2cm,bottom=2cm}" +:+ Py.nl +:+
    "\author{Report}" +:+ Py.nl +:+
    "\title{\vspace{-2cm} Report}" +:+ Py.nl +:+
    "\date{}" +:+ Py.nl.
Proof. split; vm_compute; reflexivity. Qed.

Lemma bind_emit {B} ev (k : unit -> M B) st :
  bind (emit ev) k st = let '(r, evs, st') := k tt st in (r, ev :: evs, st').
Proof. unfold bind, emit. now destruct (k tt st) as [[r evs] st']. Qed.

Lemma bind_assoc {A B C} (m : M A) (k : A -> M B) (h : B -> M C) st :
  bind (bind m k) h st = bind m (fun a => bind (k a) h) st.
Proof.
  unfold bind. destruct (m st) as [[[a|e] evs] st1]; [|reflexivity].
  destruct (k a st1) as [[[b|e] evs1] st2]; [|reflexivity].
  destruct (h b st2) as [[r evs2] st3]. now rewrite app_assoc.
Qed.

Lemma for_each_rows (rows : list (list cell)) st :
  for_each (fun row => bind (print (row_line row)) (fun _ => print "\hline"))
    rows st
  = (Ok tt, printed (flat_map (fun row => [row_line row; "\hline"]) rows), st).
Proof.
  induction rows as [|row rows IH]; [reflexivity|].
  cbn [for_each flat_map]. rewrite bind_assoc. unfold print in *.
  rewrite !bind_emit, IH. reflexivity.
Qed.

Lemma print_table_events column_names rows st :
  print_table column_names rows st
  = (Ok tt,
     printed
       (["\begin{center}";
         "\begin{tabularx}{\textwidth}{|" +:+
           Py.mul "X|" (length column_names) +:+ "}";
         "\hline"; header_line column_names; "\hline"]
        ++ flat_map (fun row => [row_line row; "\hline"]) rows
        ++ ["\end{tabularx}"; "\end{center}"]),
     st).
Proof.
  unfold print_table, print. rewrite !bind_emit.
  unfold bind at 1. rewrite for_each_rows. rewrite !bind_emit.
  unfold emit, printed. rewrite !map_app. reflexivity.
Qed.

(** C4, as the code has it: with a column description all rows are fetched
    and printed as a table whose header row lists the column names, and
    with no rows the table has the header row alone; without a
    description, a row count of 1 prints [\textbf{1} row affected.], a row
    count of 2 or more prints the count in bold and [rows affected.], and
    a row count of 0 prints [Statement executed.]. *)
Theorem outcome_classification (c : cursor_result column cell) (st : state) :
  (forall desc rows,
      description c = Some desc -> fetchall c = inr rows ->
      report_outcome c st
      = (Ok tt,
         FetchAll None ::
         printed
           (["\begin{center}";
             "\begin{tabularx}{\textwidth}{|" +:+
               Py.mul "X|" (length desc) +:+ "}";
             "\hline"; header_line (map col_name desc); "\hline"]
            ++ flat_map (fun row => [row_line row; "\hline"]) rows
            ++ ["\end{tabularx}"; "\end{center}"]),
         st))
  /\ (forall desc,
        description c = Some desc -> fetchall c = inr [] ->
        report_outcome c st
        = (Ok tt,
           FetchAll None ::
           printed
             ["\begin{center}";
              "\begin{tabularx}{\textwidth}{|" +:+
                Py.mul "X|" (length desc) +:+ "}";
              "\hline"; header_line (map col_name desc); "\hline";
              "\end{tabularx}"; "\end{center}"],
           st))
  /\ (description c = None -> rowcount c = 1 ->
      report_outcome c st = (Ok tt, printed ["\textbf{1} row affected."], st))
  /\ (description c = None -> 2 <= rowcount c ->
      report_outcome c st
      = (Ok tt,
         printed ["\textbf{" +:+ Py.str_int (rowcount c) +:+ "} rows affected."],
         st))
  /\ (description c = None -> rowcount c = 0 ->
      report_outcome c st = (Ok tt, printed ["Statement executed."], st)).
Proof.
  assert (Htable : forall desc rows,
    description c = Some desc -> fetchall c = inr rows ->
    report_outcome c st
    = (Ok tt,
       FetchAll None ::
       printed
         (["\begin{center}";
           "\begin{tabularx}{\textwidth}{|" +:+
             Py.mul "X|" (length desc) +:+ "}";
           "\hline"; header_line (map col_name desc); "\hline"]
          ++ flat_map (fun row => [row_line row; "\hline"]) rows
          ++ ["\end{tabularx}"; "\end{center}"]),
       st)).
  { intros desc rows Hd Hf. unfold report_outcome, cursor_fetchall.
    rewrite Hd, Hf. unfold bind at 1. rewrite bind_emit. unfold ret.
    rewrite print_table_events, length_map. reflexivity. }
  split; [exact Htable|]. split; [intros desc Hd Hf; exact (Htable desc [] Hd Hf)|].
  unfold report_outcome, status_line, print, emit, printed.
  split; [|split].
  - intros -> ->. reflexivity.
  - intros -> H. destruct (Z.ltb_spec 0 (rowcount c)); [|lia].
    destruct (Z.eqb_spec (rowcount c) 1); [lia|]. reflexivity.
  - intros -> ->. reflexivity.
Qed.

End Report.

(** * Properties of the statement executor *)

Section Statements.

Context `{oracle : Oracle} `{sqlparse : SqlParse} `{latexenc : LatexEncode}
  `{order : SetOrder}.

Implicit Types (st : state) (query name : string) (toks : list token).

(** *** Collecting the placeholders *)

Lemma placeholder_text v name :
  Py.startswith ":" v = true /\ Py.slice_from 1 v = name <-> v = ":" +:+ name.
Proof.
  split.
  - intros [H1 <-]. destruct v as [|c v]; [discriminate|].
    cbn [Py.startswith] in H1. destruct (Ascii.eqb ":" c) eqn:E; [|discriminate].
    apply Ascii.eqb_eq in E. now subst c.
  - intros ->. split; reflexivity.
Qed.

Lemma collect_elem toks : forall (acc : gset string) name,
  name ∈ fold_left
    (fun parameters tok =>
       if bool_decide (ttype tok = Placeholder) && Py.startswith ":" (value tok)
       then parameters ∪ {[ Py.slice_from 1 (value tok) ]}
       else parameters) toks acc
  <-> name ∈ acc \/
      exists tok, tok ∈ toks /\ ttype tok = Placeholder /\
                  value tok = ":" +:+ name.
Proof.
  induction toks as [|tok toks IH]; intros acc name; cbn [fold_left].
  - split; [auto|]. intros [H|(tok & H & _)]; [exact H|]. inversion H.
  - rewrite IH. split.
    + intros [H|(tok' & H1 & H2)].
      * destruct (bool_decide (ttype tok = Placeholder)) eqn:Et;
          [|left; exact H].
        destruct (Py.startswith ":" (value tok)) eqn:Ev; [|left; exact H].
        cbn [andb] in H. apply elem_of_union in H as [H|H]; [left; exact H|].
        apply elem_of_singleton in H. right. exists tok.
        split; [apply list_elem_of_here|].
        split; [now apply bool_decide_eq_true in Et|].
        apply placeholder_text. auto.
      * right. exists tok'. split; [now apply list_elem_of_further | exact H2].
    + intros [H|(tok' & H1 & H2 & H3)].
      * left. destruct (_ && _); [apply elem_of_union; auto | exact H].
      * apply elem_of_cons in H1 as [->|H1].
        -- left. apply placeholder_text in H3 as [H3 H4].
           rewrite H3, (bool_decide_eq_true_2 _ H2). cbn [andb].
           apply elem_of_union. right. now apply elem_of_singleton.
        -- right. exists tok'. auto.
Qed.

Lemma find_parameters_elem query name :
  name ∈ find_parameters query
  <-> exists tok, tok ∈ sqlparse_tokens query /\ ttype tok = Placeholder /\
                  value tok = ":" +:+ name.
Proof.
  unfold find_parameters. rewrite collect_elem. split; [|auto].
  intros [H|H]; [|exact H]. now apply not_elem_of_empty in H.
Qed.

(** *** Asking for the values *)

Lemma dict_set_fresh name v (filled : list (string * string)) :
  name ∉ filled.*1 -> Py.dict_set name v filled = filled ++ [(name, v)].
Proof.
  induction filled as [|[k w] filled IH]; intros H; [reflexivity|].
  cbn [Py.dict_set]. rewrite fmap_cons in H. cbn [fst] in H.
  apply not_elem_of_cons in H as [H1 H2].
  destruct (String.eqb_spec name k); [congruence|].
  now rewrite IH.
Qed.

Lemma fill_params_events names : forall (filled : list (string * string)) st,
  NoDup names -> (forall name, name ∈ names -> name ∉ filled.*1) ->
  (length names <= length (stdin st))%nat ->
  fill_params names filled st
  = (Ok (filled ++ zip names (take (length names) (stdin st))),
     prompts (zip names (take (length names) (stdin st))),
     {| stdin := drop (length names) (stdin st);
        database := database st; connection := connection st |}).
Proof.
  induction names as [|name names IH]; intros filled st Hnd Hfresh Hlen.
  - cbn. rewrite app_nil_r, drop_0. now destruct st.
  - destruct st as [[|line lines] d conn]; [cbn in Hlen; lia|].
    cbn [fill_params]. unfold eprint_raw. rewrite bind_emit.
    unfold bind at 1. unfold input at 1. cbn [stdin database connection].
    apply NoDup_cons in Hnd as [Hn Hnd].
    rewrite IH; cbn [stdin database connection].
    + rewrite dict_set_fresh by (apply Hfresh, list_elem_of_here).
      cbn [length take zip zip_with prompts flat_map drop app].
      now rewrite <- app_assoc.
    + exact Hnd.
    + intros n Hin. rewrite dict_set_fresh by (apply Hfresh, list_elem_of_here).
      rewrite fmap_app. cbn [fmap list_fmap fst]. intros Hc.
      apply elem_of_app in Hc as [Hc|Hc].
      * revert Hc. apply Hfresh. now apply list_elem_of_further.
      * apply list_elem_of_singleton in Hc. congruence.
    + cbn in Hlen. lia.
Qed.

Lemma reports_printed lines :
  Forall (fun ev => reports ev = true) (printed lines).
Proof. induction lines as [|l lines IH]; now constructor. Qed.

Lemma report_outcome_reports (c : cursor_result column cell) st r evs st' :
  report_outcome c st = (r, evs, st') ->
  Forall (fun ev => reports ev = true) evs.
Proof.
  unfold report_outcome. destruct (description c) as [desc|].
  - unfold bind, cursor_fetchall. destruct (fetchall c) as [e|rows].
    + intros [= <- <- <-]. now repeat constructor.
    + rewrite bind_emit. unfold ret. rewrite print_table_events.
      intros E. apply (f_equal (fun p => snd (fst p))) in E.
      cbn [fst snd] in E. subst evs. apply Forall_app.
      split; [now repeat constructor | apply reports_printed].
  - intros [= <- <- <-]. now repeat constructor.
Qed.

(** C5: the collected parameters are the names of the placeholder tokens
    of the tokenizer; a name that occurs only in other tokens, such as a
    string literal, is not collected; every collected name is asked for
    once and bound to the one line read for it; and this is what the
    program does with every statement it runs: after the code block it
    asks for each collected name once, reads one line for each, runs the
    statement once with these bindings, and asks for nothing more. *)
Theorem bind_parameter_detection query :
  (forall name,
      name ∈ find_parameters query
      <-> exists tok, tok ∈ sqlparse_tokens query /\
                      ttype tok = Placeholder /\ value tok = ":" +:+ name)
  /\ (forall name,
        (forall tok, tok ∈ sqlparse_tokens query ->
                     ttype tok = Placeholder -> value tok <> ":" +:+ name) ->
        name ∉ find_parameters query)
  /\ NoDup (set_iter (find_parameters query))
  /\ (forall name,
        name ∈ set_iter (find_parameters query)
        <-> name ∈ find_parameters query)
  /\ (forall st,
        let names := set_iter (find_parameters query) in
        let binds := zip names (take (length names) (stdin st)) in
        (length names <= length (stdin st))%nat ->
        fill_params names [] st
        = (Ok binds, prompts binds,
           {| stdin := drop (length names) (stdin st);
              database := database st; connection := connection st |}))
  /\ (forall st,
        let names := set_iter (find_parameters query) in
        let binds := zip names (take (length names) (stdin st)) in
        query <> "" ->
        (length names <= length (stdin st))%nat ->
        exists x o rest r st',
          process_query query st
          = (r,
             printed ["\begin{minted}[breaklines]{sql}"; query;
                      "\end{minted}"]
             ++ prompts binds ++ Execute x binds o :: rest,
             st')
          /\ Forall (fun ev => reports ev = true) rest).
Proof.
  split; [apply find_parameters_elem|]. split.
  { intros name H Hin. apply find_parameters_elem in Hin as (tok & H1 & H2 & H3).
    exact (H tok H1 H2 H3). }
  split.
  { rewrite set_iter_perm. apply NoDup_elements. }
  split.
  { intros name. rewrite set_iter_perm. apply elem_of_elements. }
  assert (Hfill : forall st,
    (length (set_iter (find_parameters query)) <= length (stdin st))%nat ->
    fill_params (set_iter (find_parameters query)) [] st
    = (Ok (zip (set_iter (find_parameters query))
             (take (length (set_iter (find_parameters query))) (stdin st))),
       prompts (zip (set_iter (find_parameters query))
                  (take (length (set_iter (find_parameters query)))
                     (stdin st))),
       {| stdin := drop (length (set_iter (find_parameters query))) (stdin st);
          database := database st; connection := connection st |})).
  { intros st Hlen. rewrite fill_params_events; [reflexivity | | | exact Hlen].
    - rewrite set_iter_perm. apply NoDup_elements.
    - intros name _ H. inversion H. }
  split; [exact Hfill|].
  intros st names binds Hq Hlen. subst binds names.
  destruct query as [|c q]; [congruence|].
  unfold process_query. cbv zeta.
  set (query := String c q) in *.
  unfold print. rewrite !bind_emit. unfold bind at 1.
  rewrite (Hfill st Hlen). unfold bind at 1.
  unfold cursor_execute. cbn [stdin database connection].
  destruct (execute (database st) _ _) as [d [e|cur]].
  - do 5 eexists. split; [reflexivity | constructor].
  - match goal with
    | |- context [report_outcome cur ?s] =>
        destruct (report_outcome cur s) as [[r evs] st'] eqn:Er
    end.
    do 5 eexists. split; [reflexivity|].
    exact (report_outcome_reports _ _ _ _ _ Er).
Qed.

(** *** Blank statements *)

Lemma rstrip_blank q : blank q = true -> Py.rstrip q = "".
Proof.
  unfold blank. induction q as [|c q IH]; [reflexivity|].
  cbn [Py.all_chars Py.rstrip]. intros H. apply andb_true_iff in H as [H1 H2].
  now rewrite (IH H2), H1.
Qed.

Lemma strip_blank q : blank q = true -> Py.strip q = "".
Proof. intros H. unfold Py.strip. now rewrite (rstrip_blank q H). Qed.

Lemma bind_skip {B} (m : M unit) (k : unit -> M B) st :
  m st = (Ok tt, [], st) -> bind m k st = k tt st.
Proof. intros H. unfold bind. rewrite H. now destruct (k tt st) as [[r evs] st']. Qed.

Lemma for_each_skip (queries : list string) : forall st,
  (forall q st', q ∈ queries -> blank q = true ->
                 process_query q st' = (Ok tt, [], st')) ->
  for_each process_query queries st
  = for_each process_query (List.filter (fun q => negb (blank q)) queries) st.
Proof.
  induction queries as [|q queries IH]; intros st H; [reflexivity|].
  cbn [for_each List.filter].
  assert (IH' : forall st1, for_each process_query queries st1
    = for_each process_query (List.filter (fun q => negb (blank q)) queries) st1).
  { intros st1. apply IH. intros q' st' Hin. apply H. now apply list_elem_of_further. }
  destruct (blank q) eqn:Eb; cbn [negb].
  - rewrite bind_skip by (apply H; [apply list_elem_of_here | exact Eb]).
    apply IH'.
  - cbn [for_each]. unfold bind.
    destruct (process_query q st) as [[[[]|e] evs] st1]; [|reflexivity].
    now rewrite IH'.
Qed.

(** C9: the loop passes over an empty statement: nothing is printed for
    it and nothing is executed; the statement splitter returns stripped
    statements, so a statement of whitespace only is the empty statement,
    and the loop over the statements of a task is the loop over those that
    are not blank. *)
Theorem blank_statements_skipped :
  (forall st, process_query "" st = (Ok tt, [], st))
  /\ ((forall s q, q ∈ sqlparse_split s -> Py.strip q = q) ->
      forall script,
        (forall q st,
            q ∈ sqlparse_split (strip_markers script) -> blank q = true ->
            process_query q st = (Ok tt, [], st))
        /\ (forall st,
              process_script script st
              = for_each process_query
                  (List.filter (fun q => negb (blank q))
                     (sqlparse_split (strip_markers script))) st)).
Proof.
  split; [reflexivity|]. intros split_strips script.
  assert (Hskip : forall q st,
    q ∈ sqlparse_split (strip_markers script) -> blank q = true ->
    process_query q st = (Ok tt, [], st)).
  { intros q st Hin Hb. rewrite <- (split_strips _ _ Hin), (strip_blank q Hb).
    reflexivity. }
  split; [exact Hskip|].
  intros st. unfold process_script. apply for_each_skip.
  intros q st' Hin Hb. now apply Hskip.
Qed.

End Statements.

(** * Properties of a whole run *)

Section Run.

Context `{oracle : Oracle} `{sqlparse : SqlParse} `{latexenc : LatexEncode}
  `{order : SetOrder}.

Implicit Types (st : state) (evs : list event) (e : db_error).

(** Every event of an explicit list is free of database failures. *)
Ltac all_quiet :=
  let ev := fresh "ev" in
  let Hin := fresh "Hin" in
  intros ev Hin;
  repeat (apply elem_of_cons in Hin; destruct Hin as [->|Hin]; [reflexivity|]);
  now apply elem_of_nil in Hin.

Lemma failed_with_nil e : ~ failed_with e [].
Proof. intros (ev & H & _). now apply elem_of_nil in H. Qed.

Lemma failed_with_app e evs1 evs2 :
  failed_with e (evs1 ++ evs2) <-> failed_with e evs1 \/ failed_with e evs2.
Proof.
  unfold failed_with. split.
  - intros (ev & H & Hf). apply elem_of_app in H as [H|H]; eauto.
  - intros [(ev & H & Hf)|(ev & H & Hf)]; exists ev; rewrite elem_of_app; auto.
Qed.

Lemma failed_with_single e ev :
  failed_with e [ev] <-> db_failure ev = Some e.
Proof.
  unfold failed_with. split.
  - intros (ev' & H & Hf). apply list_elem_of_singleton in H. now subst.
  - intros H. exists ev. split; [apply list_elem_of_here | exact H].
Qed.

Lemma regular_ret {A} (a : A) : regular (ret a).
Proof.
  intros st r evs st' [= <- <- <-]. split; [reflexivity|].
  split; [apply not_elem_of_nil|]. intros e. split; [discriminate|].
  intros H. now apply failed_with_nil in H.
Qed.

Lemma regular_emit ev : quiet ev -> regular (emit ev).
Proof.
  intros [Hq Hc] st r evs st' [= <- <- <-]. split; [reflexivity|]. split.
  - intros H. apply list_elem_of_singleton in H. congruence.
  - intros e. split; [discriminate|]. rewrite failed_with_single. congruence.
Qed.

Lemma regular_bind {A B} (m : M A) (k : A -> M B) :
  regular m -> (forall a, regular (k a)) -> regular (bind m k).
Proof.
  intros Hm Hk st r evs st'. unfold bind.
  destruct (m st) as [[[a|x] evs1] st1] eqn:Em.
  - destruct (k a st1) as [[r2 evs2] st2] eqn:Ek. intros [= <- <- <-].
    destruct (Hm _ _ _ _ Em) as (Hc1 & Hn1 & Hf1).
    destruct (Hk a _ _ _ _ Ek) as (Hc2 & Hn2 & Hf2).
    split; [congruence|]. split.
    + rewrite elem_of_app. tauto.
    + intros e. rewrite failed_with_app, <- Hf2. split; [auto|].
      intros [H|H]; [|exact H]. apply Hf1 in H. discriminate.
  - intros [= <- <- <-]. destruct (Hm _ _ _ _ Em) as (Hc & Hn & Hf).
    split; [exact Hc|]. split; [exact Hn|]. intros e. rewrite <- Hf.
    split; intros [= ->]; reflexivity.
Qed.

Lemma regular_for_each {A} (body : A -> M unit) xs :
  (forall x, regular (body x)) -> regular (for_each body xs).
Proof.
  intros Hb. induction xs as [|x xs IH]; cbn [for_each].
  - apply regular_ret.
  - apply regular_bind; auto.
Qed.

Lemma regular_input : regular input.
Proof.
  intros st r evs st'. unfold input. destruct (stdin st) as [|line rest].
  - intros [= <- <- <-]. split; [reflexivity|]. split; [apply not_elem_of_nil|].
    intros e. split; [discriminate|]. intros H. now apply failed_with_nil in H.
  - intros [= <- <- <-]. split; [reflexivity|]. split.
    + intros H. apply list_elem_of_singleton in H. discriminate.
    + intros e. split; [discriminate|]. rewrite failed_with_single. discriminate.
Qed.

Lemma regular_raise_after {A} e ev :
  db_failure ev = Some e -> ev <> Connect None ->
  regular (bind (emit ev) (fun _ => @raise _ A (OracleError e))).
Proof.
  intros Hf Hc st r evs st' [= <- <- <-]. split; [reflexivity|]. split.
  - intros H. apply list_elem_of_singleton in H. congruence.
  - intros e'. cbn [app]. rewrite failed_with_single, Hf.
    split; congruence.
Qed.

Lemma regular_cursor_execute query binds : regular (cursor_execute query binds).
Proof.
  intros st r evs st'. unfold cursor_execute.
  destruct (execute (database st) query binds) as [d [e|c]];
    intros [= <- <- <-]; (split; [reflexivity|]); split.
  - intros H. apply list_elem_of_singleton in H. discriminate.
  - intros e'. rewrite failed_with_single. cbn [db_failure]. split; congruence.
  - intros H. apply list_elem_of_singleton in H. discriminate.
  - intros e'. rewrite failed_with_single. cbn [db_failure]. split; congruence.
Qed.

Lemma quiet_stdout text : quiet (Stdout text).
Proof. split; [reflexivity | discriminate]. Qed.

Lemma quiet_stderr text : quiet (Stderr text).
Proof. split; [reflexivity | discriminate]. Qed.

Lemma regular_print text : regular (print text).
Proof. apply regular_emit, quiet_stdout. Qed.

Lemma regular_eprint text : regular (eprint text).
Proof. apply regular_emit, quiet_stderr. Qed.

Lemma regular_eprint_raw text : regular (eprint_raw text).
Proof. apply regular_emit, quiet_stderr. Qed.

Lemma regular_cursor_fetchall c : regular (cursor_fetchall c).
Proof.
  unfold cursor_fetchall. destruct (fetchall c) as [e|rows].
  - apply regular_raise_after; [reflexivity | discriminate].
  - apply regular_bind; [apply regular_emit; split; [reflexivity | discriminate]|].
    intros _. apply regular_ret.
Qed.

Lemma regular_print_table column_names rows :
  regular (print_table column_names rows).
Proof.
  unfold print_table.
  repeat (apply regular_bind; [|intros _]);
    try apply regular_print.
  apply regular_for_each. intros row.
  apply regular_bind; [|intros _]; apply regular_print.
Qed.

Lemma regular_report_outcome c : regular (report_outcome c).
Proof.
  unfold report_outcome. destruct (description c) as [desc|].
  - apply regular_bind; [apply regular_cursor_fetchall|].
    intros rows. apply regular_print_table.
  - apply regular_print.
Qed.

Lemma regular_fill_params params : forall filled,
  regular (fill_params params filled).
Proof.
  induction params as [|param rest IH]; intros filled; cbn [fill_params].
  - apply regular_ret.
  - apply regular_bind; [apply regular_eprint_raw|]. intros _.
    apply regular_bind; [apply regular_input|]. intros v. apply IH.
Qed.

Lemma regular_process_query query : regular (process_query query).
Proof.
  destruct query as [|c q]; [apply regular_ret|]. cbn [process_query].
  repeat (apply regular_bind; [apply regular_print|intros _]).
  apply regular_bind; [apply regular_fill_params|]. intros filled.
  apply regular_bind; [apply regular_cursor_execute|]. intros cur.
  apply regular_report_outcome.
Qed.

Lemma regular_process_script script : regular (process_script script).
Proof. apply regular_for_each, regular_process_query. Qed.

Lemma regular_with_cursor {A} (body : M A) :
  regular body -> regular (with_cursor body).
Proof.
  intros Hb. unfold with_cursor.
  apply regular_bind; [apply regular_emit; split; [reflexivity | discriminate]|].
  intros _ st r evs st'. unfold try_finally, emit.
  destruct (body st) as [[r1 evs1] st1] eqn:Eb. intros [= <- <- <-].
  destruct (Hb _ _ _ _ Eb) as (Hc & Hn & Hf).
  split; [exact Hc|]. split.
  - rewrite elem_of_app, list_elem_of_singleton. intros [H|H]; [auto | discriminate].
  - intros e. rewrite failed_with_app, failed_with_single, <- Hf.
    cbn [db_failure]. split; [auto|]. intros [H|H]; [exact H | discriminate].
Qed.

Lemma regular_value_error {A} : regular (@raise _ A ValueError).
Proof.
  intros st r evs st' [= <- <- <-]. split; [reflexivity|].
  split; [apply not_elem_of_nil|]. intros e. split; [discriminate|].
  intros H. now apply failed_with_nil in H.
Qed.

Lemma regular_run_task t : regular (run_task t).
Proof.
  destruct t as [i script]. unfold run_task.
  destruct (Py.str_ok i); [|apply regular_value_error].
  apply regular_bind; [apply regular_eprint_raw|]. intros _.
  apply regular_bind; [|intros _; apply regular_eprint].
  apply regular_with_cursor.
  apply regular_bind; [apply regular_print|]. intros _.
  apply regular_bind; [apply regular_process_script|]. intros _.
  apply regular_print.
Qed.

(** What follows the connection in the block under [try]. *)
Local Abbreviation after_connect args scripts :=
  (bind (eprint "connected!") (fun _ =>
   bind (print_header (author args) (title args)) (fun _ =>
   bind (print "\begin{document}") (fun _ =>
   bind (print "\maketitle") (fun _ =>
   bind (for_each run_task scripts) (fun _ =>
   bind (print "\end{document}") (fun _ => ret true))))))).

Lemma regular_after_connect args scripts :
  regular (after_connect args scripts).
Proof.
  apply regular_bind; [apply regular_eprint|]. intros _.
  apply regular_bind; [apply regular_print|]. intros _.
  apply regular_bind; [apply regular_print|]. intros _.
  apply regular_bind; [apply regular_print|]. intros _.
  apply regular_bind; [apply regular_for_each, regular_run_task|]. intros _.
  apply regular_bind; [apply regular_print|]. intros _.
  apply regular_ret.
Qed.

Lemma bind_value {A B} (m : M A) (k : M B) st b evs st' :
  bind m (fun _ => k) st = (Ok b, evs, st') ->
  exists st1 evs1, k st1 = (Ok b, evs1, st').
Proof.
  unfold bind. destruct (m st) as [[[a|x] evs0] st0]; [|discriminate].
  destruct (k st0) as [[r evs1] st1] eqn:Ek. intros [= -> <- <-]. eauto.
Qed.

(** The block under [try] returns [True] when it returns. *)
Lemma after_connect_value args scripts st b evs st' :
  after_connect args scripts st = (Ok b, evs, st') -> b = true.
Proof.
  intros H.
  repeat (apply bind_value in H; destruct H as (? & ? & H)).
  now injection H as <-.
Qed.

Lemma main_try_offline args scripts st e :
  connect (database st) = Some e ->
  main_try args scripts st
  = (Raise (OracleError e),
     [Stderr "Connecting to the database... "; Connect (Some e)], st).
Proof.
  intros H. unfold main_try, eprint_raw. rewrite bind_emit.
  unfold bind at 1. unfold do_connect. now rewrite H.
Qed.

Lemma main_try_online args scripts st :
  connect (database st) = None ->
  main_try args scripts st
  = let '(r, evs, st') :=
      after_connect args scripts
        {| stdin := stdin st; database := database st; connection := true |} in
    (r, Stderr "Connecting to the database... " :: Connect None :: evs, st').
Proof.
  intros H. unfold main_try, eprint_raw. rewrite bind_emit.
  unfold bind at 1. unfold do_connect. rewrite H.
  now destruct (bind _ _ _) as [[r evs] st'].
Qed.

(** The [try] statement of [main], entered with [connection = None]. *)
Lemma protected_run args scripts st r evs st' :
  connection st = false ->
  try_finally (try_except (main_try args scripts) main_except) main_finally st
  = (r, evs, st') ->
  (forall e, failed_with e evs -> r = Ok false /\ error_line e ∈ evs)
  /\ (Connect None ∈ evs ->
      exists before,
        evs = before ++ [ConnectionClose; Stderr ("Connection closed." +:+ Py.nl)])
  /\ ((forall e, ~ failed_with e evs) -> (forall x, r <> Raise x) -> r = Ok true).
Proof.
  intros Hconn. unfold try_finally, try_except.
  destruct (connect (database st)) as [e|] eqn:Ec.
  - rewrite (main_try_offline _ _ _ _ Ec).
    unfold main_except, eprint. rewrite bind_emit. unfold ret, main_finally.
    rewrite Hconn. intros [= <- <- <-]. cbn [app].
    assert (Hf : failed_with e
      [Stderr "Connecting to the database... "; Connect (Some e); error_line e]).
    { exists (Connect (Some e)). split; [|reflexivity].
      apply list_elem_of_further, list_elem_of_here. }
    split; [|split].
    + intros e' (ev & Hin & Hev). split; [reflexivity|].
      repeat (apply elem_of_cons in Hin; destruct Hin as [->|Hin];
              [try discriminate Hev|]).
      * injection Hev as <-. do 2 apply list_elem_of_further.
        apply list_elem_of_here.
      * now apply elem_of_nil in Hin.
    + intros Hin.
      repeat (apply elem_of_cons in Hin; destruct Hin as [Hin|Hin];
              [discriminate Hin|]).
      now apply elem_of_nil in Hin.
    + intros Hno. now apply Hno in Hf.
  - rewrite (main_try_online _ _ _ Ec).
    set (st1 := {| stdin := stdin st; database := database st;
                   connection := true |}).
    destruct (after_connect args scripts st1) as [[r1 evs1] st2] eqn:Ea.
    destruct (regular_after_connect args scripts _ _ _ _ Ea) as (Hc & Hn & Hf).
    cbn [connection st1] in Hc.
    assert (Hfail : forall e evs2,
      failed_with e
        ((Stderr "Connecting to the database... " :: Connect None :: evs1) ++ evs2)
      -> (forall ev, ev ∈ evs2 -> db_failure ev = None)
      -> r1 = Raise (OracleError e)).
    { intros e evs2 (ev & Hin & Hev) Hq. apply Hf. exists ev. split; [|exact Hev].
      apply elem_of_app in Hin as [Hin|Hin].
      - apply elem_of_cons in Hin as [->|Hin]; [discriminate Hev|].
        apply elem_of_cons in Hin as [->|Hin]; [discriminate Hev|]. exact Hin.
      - rewrite (Hq ev Hin) in Hev. discriminate. }
    destruct r1 as [b|x].
    + unfold main_finally. rewrite Hc. intros [= <- <- <-].
      split; [|split].
      * intros e H.
        apply (Hfail e [ConnectionClose; Stderr ("Connection closed." +:+ Py.nl)])
          in H; [discriminate | all_quiet].
      * intros _.
        now exists (Stderr "Connecting to the database... " :: Connect None :: evs1).
      * intros _ _. f_equal. exact (after_connect_value _ _ _ _ _ _ Ea).
    + destruct x as [| | |e].
      1-3: unfold main_finally; rewrite Hc; intros [= <- <- <-];
        (split; [|split]);
        [ intros e H;
          apply (Hfail e
                   [ConnectionClose; Stderr ("Connection closed." +:+ Py.nl)])
            in H; [discriminate | all_quiet]
        | intros _;
          now exists (Stderr "Connecting to the database... "
                      :: Connect None :: evs1)
        | intros _ Hx; now contradiction (Hx _ eq_refl) ].
      unfold main_except, eprint. rewrite bind_emit. unfold ret, main_finally.
      rewrite Hc. intros [= <- <- <-].
      split; [|split].
      * intros e' H. split; [reflexivity|].
        rewrite <- app_assoc in H.
        apply (Hfail e'
                 ([error_line e] ++
                  [ConnectionClose; Stderr ("Connection closed." +:+ Py.nl)]))
          in H; [|all_quiet].
        injection H as <-. do 2 apply list_elem_of_further.
        rewrite !elem_of_app. left. right. apply list_elem_of_here.
      * intros _.
        now exists ((Stderr "Connecting to the database... "
                     :: Connect None :: evs1) ++ [error_line e]).
      * intros Hno _. exfalso. apply (Hno e).
        destruct (proj1 (Hf e) eq_refl) as (ev & Hin & Hev).
        exists ev. split; [|exact Hev].
        do 2 apply list_elem_of_further. rewrite !elem_of_app. now do 2 left.
Qed.

(** C6, as the code has it: a database error raised by [connect],
    [execute] or [fetchall] is caught by the handler of [main], which
    prints its code and message on the diagnostic stream, and the program
    exits with status -1; a connection that was opened is closed at the end
    of every run, whatever its outcome; and a run that meets no database
    error and no other exception exits with status 0. *)
Theorem error_exit_protocol args st t evs st' :
  sql2latex args st = (t, evs, st') ->
  (forall e, failed_with e evs ->
     t = Exit (-1) /\ exit_status t = -1 /\ error_line e ∈ evs)
  /\ (Connect None ∈ evs ->
      exists before,
        evs = before ++ [ConnectionClose; Stderr ("Connection closed." +:+ Py.nl)])
  /\ ((forall e, ~ failed_with e evs) -> (forall x, t <> Uncaught x) ->
      t = Exit 0 /\ exit_status t = 0).
Proof.
  unfold sql2latex, main.
  destruct (parse_srcipts (query_file args)) as [scripts|x] eqn:Ep.
  2:{ unfold bind, lift. intros [= <- <- <-]. split; [|split].
      - intros e H. now apply failed_with_nil in H.
      - intros H. now apply elem_of_nil in H.
      - intros _ Hx. now contradiction (Hx x). }
  unfold bind at 1. unfold lift. unfold eprint. rewrite bind_emit.
  unfold bind at 1. unfold do_init_client.
  destruct (init_oracle_client (database st)) as [e0|].
  { intros [= <- <- <-]. split; [|split].
    - intros e (ev & Hin & Hev).
      repeat (apply elem_of_cons in Hin; destruct Hin as [->|Hin];
              [discriminate Hev|]).
      now apply elem_of_nil in Hin.
    - intros Hin.
      repeat (apply elem_of_cons in Hin; destruct Hin as [Hin|Hin];
              [discriminate Hin|]).
      now apply elem_of_nil in Hin.
    - intros _ Hx. now contradiction (Hx (OracleError e0)). }
  unfold bind at 1. unfold clear_connection.
  set (st0 := {| stdin := stdin st; database := database st;
                 connection := false |}).
  destruct (try_finally _ _ st0) as [[r evs0] st1] eqn:Et.
  destruct (protected_run args scripts st0 r evs0 st1 eq_refl Et)
    as (H1 & H2 & H3).
  cbn [app]. intros [= <- <- <-].
  assert (Hfw : forall e,
    failed_with e
      (Stderr ("Scripts found: " +:+ Py.str_int (Z.of_nat (length scripts))
               +:+ Py.nl) :: InitClient None :: evs0)
    -> failed_with e evs0).
  { intros e (ev & Hin & Hev). exists ev. split; [|exact Hev].
    apply elem_of_cons in Hin as [->|Hin]; [discriminate Hev|].
    apply elem_of_cons in Hin as [->|Hin]; [discriminate Hev|]. exact Hin. }
  split; [|split].
  - intros e H. apply Hfw in H. destruct (H1 e H) as [-> Hin].
    split; [reflexivity|]. split; [reflexivity|].
    now do 2 apply list_elem_of_further.
  - intros Hin.
    apply elem_of_cons in Hin as [Hin|Hin]; [discriminate Hin|].
    apply elem_of_cons in Hin as [Hin|Hin]; [discriminate Hin|].
    destruct (H2 Hin) as [before ->].
    exists (Stderr ("Scripts found: " +:+ Py.str_int (Z.of_nat (length scripts))
                    +:+ Py.nl) :: InitClient None :: before).
    reflexivity.
  - intros Hno Hx. rewrite H3; [split; reflexivity | |].
    + intros e H. apply (Hno e). destruct H as (ev & Hin & Hev).
      exists ev. split; [|exact Hev]. now do 2 apply list_elem_of_further.
    + intros x ->. now apply (Hx x).
Qed.

End Run.

Lemma sanitize_space_runs_witness :
  @sanitize_latex Demo.latexenc "a  b" = "a~~b" /\
  @sanitize_latex Demo.latexenc "q   r|"
  = Py.sub_space_runs "q" +:+ Py.mul "~" 3
    +:+ Py.sub_space_runs "r\text{\textbar}".
Proof.
  split.
  - apply (proj2 (proj2 (@sanitize_space_runs Demo.latexenc))).
    vm_compute. reflexivity.
  - apply (proj1 (@sanitize_space_runs Demo.latexenc) "q   r|" "q" 3%nat).
    + vm_compute. reflexivity.
    + vm_compute. reflexivity.
    + vm_compute. reflexivity.
    + lia.
Defined.

Lemma outcome_classification_witness :
  @report_outcome (Demo.scripted None Demo.respond) Demo.latexenc
    (CursorResult None 1 (inr []))
    (@State (Demo.scripted None Demo.respond) [] tt false)
  = (Ok tt, printed ["\textbf{1} row affected."],
     @State (Demo.scripted None Demo.respond) [] tt false)
  /\
  @report_outcome (Demo.scripted None Demo.respond) Demo.latexenc
    (CursorResult (Some ["ID"; "NAME"]) 0 (inr []))
    (@State (Demo.scripted None Demo.respond) [] tt false)
  = (Ok tt,
     FetchAll None ::
     printed
       ["\begin{center}"; "\begin{tabularx}{\textwidth}{|X|X|}"; "\hline";
        "\multicolumn{1}{|c|}{\textbf{ID}} & \multicolumn{1}{|c|}{\textbf{NAME}} \\";
        "\hline"; "\end{tabularx}"; "\end{center}"],
     @State (Demo.scripted None Demo.respond) [] tt false).
Proof.
  split.
  - apply (proj1 (proj2 (proj2
      (@outcome_classification (Demo.scripted None Demo.respond) Demo.latexenc
         (CursorResult None 1 (inr [])) _)))); reflexivity.
  - apply (proj1 (proj2
      (@outcome_classification (Demo.scripted None Demo.respond) Demo.latexenc
         (CursorResult (Some ["ID"; "NAME"]) 0 (inr [])) _))
      ["ID"; "NAME"]); reflexivity.
Defined.

(** C4 as stated fails: the line for one affected row is not
    [1 row affected.], the count is wrapped in [\textbf{}]. *)
Lemma status_line_counterexample :
  status_line 1 = "\textbf{1} row affected." /\
  status_line 1 <> "1 row affected.".
Proof.
  split; [vm_compute; reflexivity|]. intros H. vm_compute in H. discriminate.
Qed.

Lemma bind_parameter_detection_witness :
  ("c" ∈ @find_parameters Demo.sqlparse "':a :b' = :c") /\
  ("a" ∉ @find_parameters Demo.sqlparse "':a :b' = :c") /\
  @fill_params (Demo.scripted None Demo.respond)
    (@set_iter Demo.order (@find_parameters Demo.sqlparse "':a :b' = :c")) []
    (@State (Demo.scripted None Demo.respond) ["7"; "8"] tt false)
  = (Ok [("c", "7")], [Stderr ":c="; Input "7"],
     @State (Demo.scripted None Demo.respond) ["8"] tt false)
  /\ exists x o rest r st',
       @process_query (Demo.scripted None Demo.respond) Demo.sqlparse
         Demo.latexenc Demo.order "':a :b' = :c"
         (@State (Demo.scripted None Demo.respond) ["7"; "8"] tt false)
       = (r,
          printed ["\begin{minted}[breaklines]{sql}"; "':a :b' = :c";
                   "\end{minted}"]
          ++ prompts [("c", "7")] ++ Execute x [("c", "7")] o :: rest,
          st')
       /\ Forall (fun ev => reports ev = true) rest.
Proof.
  split; [|split; [|split]].
  - apply (proj1 (@bind_parameter_detection (Demo.scripted None Demo.respond)
                    Demo.sqlparse Demo.latexenc Demo.order "':a :b' = :c")).
    exists (Token Placeholder ":c"). split; [|split; reflexivity].
    vm_compute. repeat constructor.
  - apply (proj1 (proj2 (@bind_parameter_detection
                    (Demo.scripted None Demo.respond)
                    Demo.sqlparse Demo.latexenc Demo.order "':a :b' = :c"))).
    intros tok Hin Ht. vm_compute in Hin.
    repeat (apply elem_of_cons in Hin; destruct Hin as [->|Hin];
            [first [discriminate Ht | discriminate]|]).
    now apply elem_of_nil in Hin.
  - apply (proj1 (proj2 (proj2 (proj2 (proj2 (@bind_parameter_detection
                    (Demo.scripted None Demo.respond)
                    Demo.sqlparse Demo.latexenc Demo.order "':a :b' = :c")))))
             (@State (Demo.scripted None Demo.respond) ["7"; "8"] tt false)).
    vm_compute. lia.
  - apply (proj2 (proj2 (proj2 (proj2 (proj2 (@bind_parameter_detection
                    (Demo.scripted None Demo.respond)
                    Demo.sqlparse Demo.latexenc Demo.order "':a :b' = :c")))))
             (@State (Demo.scripted None Demo.respond) ["7"; "8"] tt false)).
    + discriminate.
    + vm_compute. lia.
Defined.

Lemma blank_statements_skipped_witness :
  @process_script (Demo.scripted None Demo.respond) Demo.sqlparse Demo.latexenc
    Demo.order
    ("-- Task 1" +:+ Py.nl +:+ "SELECT 1 FROM DUAL;" +:+ Py.nl)
    (@State (Demo.scripted None Demo.respond) [] tt false)
  = @for_each (Demo.scripted None Demo.respond) _
      (@process_query (Demo.scripted None Demo.respond) Demo.sqlparse
         Demo.latexenc Demo.order)
      (List.filter (fun q => negb (blank q)) ["SELECT 1 FROM DUAL;"; ""])
      (@State (Demo.scripted None Demo.respond) [] tt false).
Proof.
  apply (proj2 (proj2 (@blank_statements_skipped
                         (Demo.scripted None Demo.respond)
                         Demo.sqlparse Demo.latexenc Demo.order)
                  demo_split_strips
                  ("-- Task 1" +:+ Py.nl +:+ "SELECT 1 FROM DUAL;" +:+ Py.nl))).
Defined.

Lemma error_exit_protocol_witness :
  (fst (fst Sample.refused) = Exit (-1) /\
   exit_status (fst (fst Sample.refused)) = -1 /\
   error_line Demo.no_listener ∈ snd (fst Sample.refused))
  /\
  (fst (fst Sample.failing_statement) = Exit (-1) /\
   exit_status (fst (fst Sample.failing_statement)) = -1 /\
   error_line Demo.no_such_table ∈ snd (fst Sample.failing_statement))
  /\
  (exists before,
     snd (fst Sample.failing_statement)
     = before ++ [ConnectionClose; Stderr ("Connection closed." +:+ Py.nl)]).
Proof.
  assert (Hpair : forall (A B C : Type) (x : A * B * C),
             x = (fst (fst x), snd (fst x), snd x))
    by (now intros A B C [[a b] c]).
  split; [|split].
  - apply (proj1 (@error_exit_protocol
                    (Demo.scripted (Some Demo.no_listener) Demo.respond)
                    Demo.sqlparse Demo.latexenc Demo.order _ _ _ _ _
                    (Hpair _ _ _ Sample.refused))).
    exists (Connect (Some Demo.no_listener)). split; [|reflexivity].
    vm_compute. repeat constructor.
  - apply (proj1 (@error_exit_protocol
                    (Demo.scripted None Demo.respond)
                    Demo.sqlparse Demo.latexenc Demo.order _ _ _ _ _
                    (Hpair _ _ _ Sample.failing_statement))).
    exists (Execute "DROP TABLE t" [] (Some Demo.no_such_table)).
    split; [|reflexivity]. vm_compute. repeat constructor.
  - apply (proj1 (proj2 (@error_exit_protocol
                    (Demo.scripted None Demo.respond)
                    Demo.sqlparse Demo.latexenc Demo.order _ _ _ _ _
                    (Hpair _ _ _ Sample.failing_statement)))).
    vm_compute. repeat constructor.
Defined.

(** C6 as stated fails: a run can meet no database error and still end
    with a status that is not 0, because another exception ends it: the
    [IndexError] of a script without markers, or the [EOFError] of a prompt
    without an answer. *)
Lemma exit_status_counterexample :
  ((forall e, ~ failed_with e (snd (fst Sample.no_marker))) /\
   fst (fst Sample.no_marker) = Uncaught IndexError /\
   exit_status (fst (fst Sample.no_marker)) = 1)
  /\
  ((forall e, ~ failed_with e (snd (fst Sample.no_answer))) /\
   fst (fst Sample.no_answer) = Uncaught EOFError /\
   exit_status (fst (fst Sample.no_answer)) = 1).
Proof.
  split; (split; [|split; vm_compute; reflexivity]).
  - intros e (ev & Hin & _). vm_compute in Hin. now apply elem_of_nil in Hin.
  - intros e (ev & Hin & Hev). vm_compute in Hin.
    repeat (apply elem_of_cons in Hin; destruct Hin as [->|Hin];
            [discriminate Hev|]).
    now apply elem_of_nil in Hin.
Qed.

(** * More on the splitter *)

Section SplitterOutcome.

Implicit Types (st : splitter_state) (scripts : list task)
  (script lines : list string) (line : string).

Lemma parses_or_bad lines :
  Forall parses lines \/ Exists bad_marker lines.
Proof.
  induction lines as [|l ls [IH|IH]].
  - left. constructor.
  - destruct (is_marker l) eqn:Em.
    + destruct (marker_number l) as [n|] eqn:En.
      * left. constructor; [|exact IH]. intros _. rewrite En. eauto.
      * right. apply Exists_cons_hd. now split.
    + left. constructor; [|exact IH]. intros H. congruence.
  - right. now apply Exists_cons_tl.
Qed.

Lemma parses_not_bad lines :
  Forall parses lines -> ~ Exists bad_marker lines.
Proof.
  intros Hp Hb. apply Exists_exists in Hb as (l & Hin & Hm & Hn).
  rewrite Forall_forall in Hp. destruct (Hp l Hin Hm) as [n Hs]. congruence.
Qed.

(** The state the loop ends in when every marker can be read. *)
Lemma for_lines_end lines :
  Forall parses lines ->
  exists scripts script,
    for_lines ([], []) lines = Ok (scripts, script) /\
    length scripts = count_markers (tail lines) /\
    Forall (fun t => snd t <> []) scripts.
Proof.
  intros Hp. destruct lines as [|l ls].
  - exists [], []. split; [reflexivity|]. split; [reflexivity | constructor].
  - destruct (for_lines_ok (l :: ls) ([], []) Hp) as [[scripts script] E].
    exists scripts, script. split; [exact E|].
    simpl in E. destruct (loop_body ([], []) l) as [st1|] eqn:E1; [|discriminate].
    apply loop_body_start in E1. subst st1.
    destruct (for_lines_count ls [] [l] scripts script) as (H1 & H2 & H3);
      [discriminate | constructor | exact E |].
    split; [exact H3 | exact H2].
Qed.

(** X1: how the splitter ends.  It raises [ValueError] exactly when some
    marker line carries no readable number, it raises [IndexError] exactly
    when all markers can be read but none comes after the first line (an
    empty file, a file without markers, a file whose only marker is its
    first line), and it returns a task list in every other case. *)
Theorem splitter_outcome contents :
  (parse_srcipts contents = Raise ValueError
   <-> Exists bad_marker (Py.file_lines contents))
  /\ (parse_srcipts contents = Raise IndexError
      <-> Forall parses (Py.file_lines contents) /\
          count_markers (tail (Py.file_lines contents)) = 0%nat)
  /\ ((exists tasks, parse_srcipts contents = Ok tasks)
      <-> Forall parses (Py.file_lines contents) /\
          (1 <= count_markers (tail (Py.file_lines contents)))%nat).
Proof.
  unfold parse_srcipts, parse_srcipts_lines.
  destruct (parses_or_bad (Py.file_lines contents)) as [Hp|Hb].
  - pose proof (parses_not_bad _ Hp) as Hnb.
    destruct (for_lines_end _ Hp) as (scripts & script & E & Hlen & _).
    rewrite E. unfold close_last.
    destruct (last scripts) as [[k blk]|] eqn:El.
    + assert (Hpos : (1 <= count_markers (tail (Py.file_lines contents)))%nat).
      { rewrite <- Hlen. destruct scripts; [discriminate | simpl; lia]. }
      split; [|split].
      * split; [discriminate | intros H; contradiction].
      * split; [discriminate | intros [_ H]; lia].
      * split; [auto | eauto].
    + apply last_None in El. subst scripts. simpl in Hlen.
      split; [|split].
      * split; [discriminate | intros H; contradiction].
      * split; [auto | reflexivity].
      * split; [intros [tasks H]; discriminate | intros [_ H]; lia].
  - rewrite (for_lines_bad _ _ Hb).
    split; [|split].
    + split; auto.
    + split; [discriminate|]. intros [Hp _]. now apply parses_not_bad in Hp.
    + split; [intros [tasks H]; discriminate|].
      intros [Hp _]. now apply parses_not_bad in Hp.
Qed.

Lemma splitter_outcome_witness :
  parse_srcipts ("-- Task 1" +:+ Py.nl +:+ "SELECT 1 FROM DUAL;" +:+ Py.nl)
  = Raise IndexError.
Proof.
  apply (proj1 (proj2 (splitter_outcome
           ("-- Task 1" +:+ Py.nl +:+ "SELECT 1 FROM DUAL;" +:+ Py.nl)))).
  split; [|reflexivity].
  change (Py.file_lines
            ("-- Task 1" +:+ Py.nl +:+ "SELECT 1 FROM DUAL;" +:+ Py.nl))
    with ["-- Task 1" +:+ Py.nl; "SELECT 1 FROM DUAL;" +:+ Py.nl].
  repeat (apply List.Forall_cons;
          [intros H; vm_compute in H |- *; first [discriminate | eauto]|]).
  apply List.Forall_nil.
Defined.

End SplitterOutcome.

Section SplitterShape.

Implicit Types (st : splitter_state) (scripts : list task)
  (script lines blk : list string) (line : string)
  (blocks : list (list string)).

Lemma tail_clean_snoc blk line :
  tail_clean blk -> is_marker line = false -> tail_clean (blk ++ [line]).
Proof.
  unfold tail_clean. destruct blk as [|x xs]; intros H Hl; [constructor|].
  simpl in *. apply Forall_app. split; [exact H|]. now constructor.
Qed.

Lemma headed_snoc blk line : headed blk -> headed (blk ++ [line]).
Proof. intros (l & rest & -> & H). exists l, (rest ++ [line]). auto. Qed.

Lemma headed_after_first_grow blocks blk line :
  (blocks <> [] -> blk <> []) ->
  headed_after_first (blocks ++ [blk]) ->
  headed_after_first (blocks ++ [blk ++ [line]]).
Proof.
  unfold headed_after_first. destruct blocks as [|b bs]; intros Hne H.
  - constructor.
  - simpl in *. apply Forall_app in H as [H1 H2]. apply Forall_app.
    split; [exact H1|]. inversion H2; subst. constructor; [|constructor].
    now apply headed_snoc.
Qed.

Lemma headed_after_first_close blocks blk line :
  blk <> [] -> is_marker line = true ->
  headed_after_first (blocks ++ [blk]) ->
  headed_after_first ((blocks ++ [blk]) ++ [[line]]).
Proof.
  unfold headed_after_first. intros Hne Hm H.
  destruct blocks as [|b bs]; simpl in *.
  - constructor; [|constructor]. now exists line, [].
  - apply Forall_app. split; [exact H|]. constructor; [|constructor].
    now exists line, [].
Qed.

Lemma loop_body_cut st line st' :
  cut_inv st -> loop_body st line = Ok st' -> cut_inv st'.
Proof.
  destruct st as [scripts script]. intros (H1 & H2 & H3 & H4).
  unfold loop_body, on_marker, cut_inv. simpl in *.
  destruct (is_marker line) eqn:Em.
  - destruct (marker_number line) as [num|]; [|discriminate].
    destruct script as [|x xs]; intros [= <-]; simpl.
    + rewrite (H4 eq_refl). simpl.
      split; [constructor|]. split; [constructor|].
      split; [constructor | discriminate].
    + split; [|split; [|split]].
      * rewrite map_app. apply Forall_app. split; [exact H1|].
        now constructor.
      * constructor.
      * rewrite map_app. simpl.
        now apply (headed_after_first_close (map snd scripts) (x :: xs)).
      * discriminate.
  - intros [= <-]. simpl. split; [exact H1|]. split; [|split].
    + now apply tail_clean_snoc.
    + apply headed_after_first_grow; [|exact H3].
      intros Hne ->. rewrite (H4 eq_refl) in Hne. now apply Hne.
    + now destruct script.
Qed.

Lemma for_lines_cut lines : forall st st',
  cut_inv st -> for_lines st lines = Ok st' -> cut_inv st'.
Proof.
  induction lines as [|l ls IH]; intros st st' Hinv; simpl.
  - now intros [= <-].
  - destruct (loop_body st l) eqn:E; [|discriminate].
    eauto using loop_body_cut.
Qed.

(** X2: the blocks are cut exactly at the marker lines.  In every task
    list the splitter returns, no block has a marker line after its first
    line, and every block but the first opens with a marker line. *)
Theorem blocks_cut_at_markers contents tasks :
  parse_srcipts contents = Ok tasks ->
  Forall tail_clean (map snd tasks) /\ headed_after_first (map snd tasks).
Proof.
  unfold parse_srcipts, parse_srcipts_lines.
  destruct (for_lines ([], []) (Py.file_lines contents))
    as [[scripts script]|] eqn:E; [|discriminate].
  assert (Hinv : cut_inv (scripts, script)).
  { eapply for_lines_cut; [|exact E]. unfold cut_inv. simpl.
    repeat split; constructor. }
  destruct Hinv as (H1 & H2 & H3 & _). simpl in *.
  unfold close_last. destruct (last scripts) as [[k blk]|]; [|discriminate].
  intros [= <-]. rewrite map_app. simpl. split; [|exact H3].
  apply Forall_app. split; [exact H1|]. now constructor.
Qed.

Lemma blocks_cut_at_markers_witness :
  Forall tail_clean
    [["-- Task 1" +:+ Py.nl; "SELECT 1 FROM DUAL;" +:+ Py.nl];
     ["-- Task 2" +:+ Py.nl; "SELECT 2 FROM DUAL;" +:+ Py.nl]] /\
  headed_after_first
    [["-- Task 1" +:+ Py.nl; "SELECT 1 FROM DUAL;" +:+ Py.nl];
     ["-- Task 2" +:+ Py.nl; "SELECT 2 FROM DUAL;" +:+ Py.nl]].
Proof.
  apply (blocks_cut_at_markers example_script
           [(1, ["-- Task 1" +:+ Py.nl; "SELECT 1 FROM DUAL;" +:+ Py.nl]);
            (2, ["-- Task 2" +:+ Py.nl; "SELECT 2 FROM DUAL;" +:+ Py.nl])]).
  reflexivity.
Defined.

(** *** The numbers of the tasks *)

Lemma marker_values_marker line lines num :
  is_marker line = true -> marker_number line = Some num ->
  marker_values (line :: lines) = num :: marker_values lines.
Proof.
  intros H1 H2. unfold marker_values. cbn [omap list_omap]. now rewrite H1, H2.
Qed.

Lemma marker_values_plain line lines :
  is_marker line = false ->
  marker_values (line :: lines) = marker_values lines.
Proof.
  intros H1. unfold marker_values. cbn [omap list_omap]. now rewrite H1.
Qed.

Lemma for_lines_numbers lines : forall scripts script scripts' script',
  script <> [] ->
  for_lines (scripts, script) lines = Ok (scripts', script') ->
  map fst scripts'
  = map fst scripts ++ map (fun v => v - 1) (marker_values lines).
Proof.
  induction lines as [|l ls IH]; intros scripts script scripts' script' Hne;
    cbn [for_lines].
  - intros [= <- <-]. now rewrite app_nil_r.
  - destruct (loop_body (scripts, script) l) as [[sc1 s1]|] eqn:E; [|discriminate].
    intros H. unfold loop_body, on_marker in E.
    destruct (is_marker l) eqn:Em.
    + destruct (marker_number l) as [num|] eqn:En; [|discriminate].
      destruct script as [|x xs]; [congruence|]. cbn in E. injection E as <- <-.
      rewrite (IH (scripts ++ [(num - 1, x :: xs)]) [l] _ _
                 ltac:(discriminate) H).
      rewrite (marker_values_marker _ _ _ Em En), map_app. simpl.
      now rewrite <- app_assoc.
    + cbn in E. injection E as <- <-.
      rewrite (IH scripts (script ++ [l]) _ _ ltac:(now destruct script) H).
      now rewrite (marker_values_plain _ _ Em).
Qed.

Lemma parse_lines_numbers lines tasks :
  parse_srcipts_lines lines = Ok tasks ->
  exists vs v,
    marker_values (tail lines) = vs ++ [v] /\
    map fst tasks = map (fun x => x - 1) vs ++ [v - 1; v].
Proof.
  unfold parse_srcipts_lines.
  destruct lines as [|l ls]; [discriminate|].
  simpl. destruct (loop_body ([], []) l) as [st1|] eqn:E1; [|discriminate].
  apply loop_body_start in E1. subst st1.
  destruct (for_lines ([], [l]) ls) as [[scripts script]|] eqn:E; [|discriminate].
  pose proof (for_lines_numbers ls [] [l] scripts script ltac:(discriminate) E)
    as Hnum. simpl in Hnum.
  unfold close_last. destruct (last scripts) as [[k blk]|] eqn:El; [|discriminate].
  intros [= <-].
  destruct (last_Some scripts (k, blk)) as [[closed ->] _]; [exact El|].
  destruct (marker_values ls) as [|w ws] eqn:Ev using rev_ind.
  - rewrite map_app in Hnum. simpl in Hnum.
    symmetry in Hnum. now apply app_cons_not_nil in Hnum.
  - exists ws, w. split; [reflexivity|].
    rewrite !map_app in Hnum |- *. simpl in Hnum |- *.
    apply app_inj_tail in Hnum as [-> ->].
    rewrite <- app_assoc. simpl. do 3 f_equal. lia.
Qed.

(** X3: the numbers of the tasks in closed form.  With [v1 ... vn] the
    numbers of the marker lines after the first line of the file, the
    tasks are numbered [v1 - 1, ..., vn - 1, vn]: every task carries the
    number of the next marker minus one, and the last task carries the
    number of the last marker. *)
Theorem task_numbers contents tasks :
  parse_srcipts contents = Ok tasks ->
  exists vs v,
    marker_values (tail (Py.file_lines contents)) = vs ++ [v] /\
    map fst tasks = map (fun x => x - 1) vs ++ [v - 1; v].
Proof. apply parse_lines_numbers. Qed.

Lemma task_numbers_witness :
  exists vs v,
    marker_values (tail (Py.file_lines example_script)) = vs ++ [v] /\
    [1; 2] = map (fun x => x - 1) vs ++ [v - 1; v].
Proof.
  apply (task_numbers example_script
           [(1, ["-- Task 1" +:+ Py.nl; "SELECT 1 FROM DUAL;" +:+ Py.nl]);
            (2, ["-- Task 2" +:+ Py.nl; "SELECT 2 FROM DUAL;" +:+ Py.nl])]).
  reflexivity.
Defined.

Lemma consecutive_tail v vs : consecutive (v :: vs) -> consecutive vs.
Proof. destruct vs as [|w ws]; [auto | now intros [_ H]]. Qed.

Lemma consecutive_shift v ws : forall v0,
  consecutive (v0 :: ws ++ [v]) ->
  map (fun x => x - 1) (ws ++ [v]) ++ [v] = v0 :: ws ++ [v].
Proof.
  induction ws as [|w ws IH]; intros v0 H.
  - destruct H as [-> _]. simpl. f_equal. lia.
  - destruct H as [-> H]. rewrite <- !app_comm_cons. cbn [map].
    rewrite <- app_comm_cons, (IH _ H). f_equal. lia.
Qed.

Lemma first_marker_value l ls tasks :
  parse_srcipts_lines (l :: ls) = Ok tasks -> is_marker l = true ->
  exists v0, marker_values (l :: ls) = v0 :: marker_values ls.
Proof.
  unfold parse_srcipts_lines. cbn [for_lines]. unfold loop_body, on_marker.
  intros H Hm. rewrite Hm in H.
  destruct (marker_number l) as [v0|] eqn:En; [|discriminate].
  exists v0. exact (marker_values_marker l ls v0 Hm En).
Qed.

(** X4: a script that opens with a marker line and whose markers are
    numbered consecutively gives tasks that carry the numbers of their own
    markers: the off-by-one rule and the final plus one cancel out. *)
Theorem consecutive_markers_number_tasks contents tasks :
  parse_srcipts contents = Ok tasks ->
  is_marker (hd "" (Py.file_lines contents)) = true ->
  consecutive (marker_values (Py.file_lines contents)) ->
  map fst tasks = marker_values (Py.file_lines contents).
Proof.
  unfold parse_srcipts. destruct (Py.file_lines contents) as [|l ls].
  - discriminate.
  - intros Hp Hm Hc. simpl in Hm.
    destruct (first_marker_value _ _ _ Hp Hm) as [v0 Hv].
    destruct (parse_lines_numbers _ _ Hp) as (vs & v & Htail & Hnum).
    simpl in Htail. rewrite Hv, Htail in Hc |- *. rewrite Hnum.
    apply consecutive_shift in Hc. rewrite <- Hc.
    rewrite map_app, <- app_assoc. reflexivity.
Qed.

Lemma consecutive_markers_number_tasks_witness :
  map fst
    [(1, ["-- Task 1" +:+ Py.nl; "SELECT 1 FROM DUAL;" +:+ Py.nl]);
     (2, ["-- Task 2" +:+ Py.nl; "SELECT 2 FROM DUAL;" +:+ Py.nl])]
  = marker_values (Py.file_lines example_script).
Proof.
  apply (consecutive_markers_number_tasks example_script).
  - reflexivity.
  - reflexivity.
  - vm_compute. auto.
Defined.

(** *** Nothing of the file is lost *)

Lemma join_empty_cons x xs : Py.join "" (x :: xs) = x +:+ Py.join "" xs.
Proof. destruct xs; [now rewrite append_nil_r | reflexivity]. Qed.

Lemma join_empty_app xs ys :
  Py.join "" (xs ++ ys) = Py.join "" xs +:+ Py.join "" ys.
Proof.
  induction xs as [|x xs IH]; [reflexivity|].
  rewrite <- app_comm_cons, !join_empty_cons, IH. now rewrite append_assoc.
Qed.

Lemma join_empty_concat blocks :
  Py.join "" (concat blocks) = Py.join "" (map (Py.join "") blocks).
Proof.
  induction blocks as [|b bs IH]; [reflexivity|].
  cbn [concat map]. now rewrite join_empty_app, join_empty_cons, IH.
Qed.

Lemma readlines_nil s : Py.readlines s = [] -> s = "".
Proof.
  destruct s as [|c s]; [reflexivity|]. cbn [Py.readlines].
  destruct (Ascii.eqb c Py.LF); [discriminate|].
  destruct (Py.readlines s); discriminate.
Qed.

(** The lines of a text, put together again, are the text. *)
Lemma readlines_join s : Py.join "" (Py.readlines s) = s.
Proof.
  induction s as [|c s IH]; [reflexivity|]. cbn [Py.readlines].
  destruct (Ascii.eqb c Py.LF).
  - now rewrite join_empty_cons, IH.
  - destruct (Py.readlines s) as [|l ls] eqn:E.
    + apply readlines_nil in E. now subst.
    + rewrite join_empty_cons in IH |- *. rewrite append_cons. now f_equal.
Qed.

(** X5: the splitter loses nothing.  The texts of the tasks, each the
    lines of its block put together as [main] does, give back the text of
    the file (with its line ends read as LF) when put one after the
    other. *)
Theorem splitter_lossless contents tasks :
  parse_srcipts contents = Ok tasks ->
  Py.join "" (map (fun t => Py.join "" (snd t)) tasks)
  = Py.universal_newlines contents.
Proof.
  unfold parse_srcipts, parse_srcipts_lines, Py.file_lines.
  destruct (for_lines ([], []) (Py.readlines (Py.universal_newlines contents)))
    as [[scripts script]|] eqn:E; [|discriminate].
  pose proof (for_lines_concat _ _ _ _ _ E) as Hcat. simpl in Hcat.
  unfold close_last. destruct (last scripts) as [[k blk]|]; [|discriminate].
  intros [= <-].
  rewrite <- (readlines_join (Py.universal_newlines contents)), <- Hcat.
  rewrite <- map_map, <- join_empty_concat, map_app, concat_app. simpl.
  now rewrite app_nil_r.
Qed.

Lemma splitter_lossless_witness :
  Py.join ""
    (map (fun t => Py.join "" (snd t))
       [(1, ["-- Task 1" +:+ Py.nl; "SELECT 1 FROM DUAL;" +:+ Py.nl]);
        (2, ["-- Task 2" +:+ Py.nl; "SELECT 2 FROM DUAL;" +:+ Py.nl])])
  = Py.universal_newlines example_script.
Proof. apply (splitter_lossless example_script). reflexivity. Defined.

End SplitterShape.

(** * Marker lines and their numbers *)

Section MarkerNumbers.

Implicit Types (acc n : Z) (d : Decimal.uint) (rest ws : string) (c : ascii).

Lemma int_space_other c :
  Py.int_space c = true -> Py.is_digit c = false /\ Ascii.eqb c "_" = false.
Proof.
  destruct c as [[] [] [] [] [] [] [] []]; vm_compute; intros H;
    first [discriminate H | split; reflexivity].
Qed.

Lemma int_digits_spaces acc rest :
  Py.all_chars Py.int_space rest = true ->
  Py.int_digits Py.AfterDigit acc rest = Some acc.
Proof.
  destruct rest as [|c r]; [reflexivity|]. intros H.
  cbn [Py.int_digits]. rewrite H.
  cbn [Py.all_chars] in H. apply andb_true_iff in H as [Hc _].
  destruct (int_space_other c Hc) as [-> ->]. reflexivity.
Qed.

Lemma int_digits_uint rest :
  Py.all_chars Py.int_space rest = true ->
  forall d acc,
    Py.int_digits Py.AfterDigit acc (NilEmpty.string_of_uint d +:+ rest)
    = Some (uint_value acc d).
Proof.
  intros Hrest. induction d as [|d IH|d IH|d IH|d IH|d IH|d IH|d IH|d IH|d IH|d IH];
    intros acc; cbn [NilEmpty.string_of_uint uint_value];
    [now apply int_digits_spaces | ..];
    rewrite append_cons; exact (IH _).
Qed.

Lemma int_digits_start rest d :
  Py.all_chars Py.int_space rest = true -> d <> Decimal.Nil ->
  Py.int_digits Py.AtStart 0 (NilEmpty.string_of_uint d +:+ rest)
  = Some (uint_value 0 d).
Proof.
  intros Hrest Hd. destruct d; [congruence | ..];
    cbn [NilEmpty.string_of_uint uint_value]; rewrite append_cons;
    exact (int_digits_uint rest Hrest _ _).
Qed.

Lemma int_digit_head c rest :
  Py.is_digit c = true ->
  Py.int_syntax (String c rest)
  = Py.int_digits Py.AtStart 0 (String c rest).
Proof.
  destruct c as [[] [] [] [] [] [] [] []]; intros H;
    first [vm_compute in H; discriminate H | reflexivity].
Qed.

Lemma uint_value_pos d : forall p,
  uint_value (Z.pos p) d = Z.pos (Pos.of_uint_acc d p).
Proof.
  induction d; intros p; cbn [uint_value Pos.of_uint_acc];
    [reflexivity | ..]; rewrite <- IHd; f_equal; lia.
Qed.

Lemma uint_value_of_uint d : uint_value 0 d = Z.of_uint d.
Proof.
  unfold Z.of_uint. induction d; cbn [uint_value Pos.of_uint];
    [reflexivity | exact IHd | ..]; apply uint_value_pos.
Qed.

Lemma string_of_uint_head d :
  d <> Decimal.Nil ->
  exists c s, NilEmpty.string_of_uint d = String c s /\ Py.is_digit c = true.
Proof.
  destruct d; [congruence | ..]; intros _; eexists _, _; split; reflexivity.
Qed.

(** Reading the decimal text of a number, followed by whitespace. *)
Lemma int_syntax_str_int n ws :
  Py.all_chars Py.int_space ws = true ->
  Py.int_syntax (Py.str_int n +:+ ws) = Some n.
Proof.
  intros Hws. unfold Py.str_int.
  rewrite <- (DecimalZ.of_to n) at 2.
  destruct n as [|p|p]; cbn [Z.to_int NilZero.string_of_int Z.of_int].
  - change (Py.int_syntax (String "0" ws) = Some 0).
    rewrite int_digit_head by reflexivity.
    change (Py.int_digits Py.AtStart 0 (String "0" ws))
      with (Py.int_digits Py.AfterDigit 0 ws).
    now apply int_digits_spaces.
  - pose proof (Unsigned.to_uint_nonnil p) as Hd.
    unfold NilZero.string_of_uint.
    replace (match Pos.to_uint p with
             | Decimal.Nil => "0"
             | _ => NilEmpty.string_of_uint (Pos.to_uint p)
             end) with (NilEmpty.string_of_uint (Pos.to_uint p))
      by (now destruct (Pos.to_uint p)).
    destruct (string_of_uint_head _ Hd) as (c & s & Hs & Hc).
    pose proof (int_digits_start ws _ Hws Hd) as Hi.
    rewrite Hs in Hi |- *. rewrite append_cons in Hi |- *.
    rewrite (int_digit_head _ _ Hc), Hi. now rewrite uint_value_of_uint.
  - pose proof (Unsigned.to_uint_nonnil p) as Hd.
    unfold NilZero.string_of_uint.
    replace (match Pos.to_uint p with
             | Decimal.Nil => "0"
             | _ => NilEmpty.string_of_uint (Pos.to_uint p)
             end) with (NilEmpty.string_of_uint (Pos.to_uint p))
      by (now destruct (Pos.to_uint p)).
    rewrite append_cons.
    change (Py.int_syntax
              (String "-" (NilEmpty.string_of_uint (Pos.to_uint p) +:+ ws)))
      with (Z.opp <$> Py.int_digits Py.AtStart 0
                        (NilEmpty.string_of_uint (Pos.to_uint p) +:+ ws)).
    rewrite (int_digits_start ws _ Hws Hd). now rewrite uint_value_of_uint.
Qed.

Lemma count_digits_append s t :
  Py.count_digits (s +:+ t) = (Py.count_digits s + Py.count_digits t)%nat.
Proof.
  induction s as [|c s IH]; [reflexivity|].
  rewrite append_cons. cbn [Py.count_digits]. rewrite IH. lia.
Qed.

Lemma count_digits_spaces ws :
  Py.all_chars Py.int_space ws = true -> Py.count_digits ws = 0%nat.
Proof.
  induction ws as [|c ws IH]; [reflexivity|]. cbn [Py.all_chars Py.count_digits].
  intros H. apply andb_true_iff in H as [Hc Hws].
  destruct (int_space_other c Hc) as [-> _]. now rewrite (IH Hws).
Qed.

(** [int] on the decimal text of a number, followed by whitespace: the
    number when [str] can give its text, and [ValueError] otherwise. *)
Lemma int_str_int n ws :
  Py.all_chars Py.int_space ws = true ->
  Py.int (Py.str_int n +:+ ws) = if Py.str_ok n then Some n else None.
Proof.
  intros Hws. unfold Py.int, Py.str_ok.
  rewrite count_digits_append, (count_digits_spaces ws Hws), Nat.add_0_r.
  destruct (_ <=? _)%nat; [now apply int_syntax_str_int | reflexivity].
Qed.

(** X6: a marker line written as the program prints task numbers is read
    back to that number.  For every integer [n] that [str] can print (at
    most 4300 digits), the line [-- Task ], the decimal text of [n] and
    any trailing whitespace (the line end) has the marker number [n]; the
    decimal text of an integer of more digits is refused, as [int]
    refuses it. *)
Theorem marker_number_of_text n ws :
  Py.all_chars Py.int_space ws = true ->
  is_marker ("-- Task " +:+ Py.str_int n +:+ ws) = true /\
  marker_number ("-- Task " +:+ Py.str_int n +:+ ws)
  = if Py.str_ok n then Some n else None.
Proof.
  intros Hws. split; [reflexivity|].
  change (marker_number ("-- Task " +:+ Py.str_int n +:+ ws))
    with (Py.int (Py.str_int n +:+ ws)).
  now apply int_str_int.
Qed.

Lemma marker_number_of_text_witness :
  is_marker ("-- Task " +:+ Py.str_int 2025 +:+ Py.nl) = true /\
  marker_number ("-- Task " +:+ Py.str_int 2025 +:+ Py.nl) = Some 2025.
Proof. exact (marker_number_of_text 2025 Py.nl eq_refl). Defined.

End MarkerNumbers.

(** * More on the sanitizer *)

Section Sanitizer.

Context `{latexenc : LatexEncode}.

Implicit Types (s t : string) (c : ascii) (n : nat).

Lemma all_chars_append P s t :
  Py.all_chars P (s +:+ t) = Py.all_chars P s && Py.all_chars P t.
Proof.
  induction s as [|c s IH]; [reflexivity|].
  rewrite append_cons. cbn [Py.all_chars]. now rewrite IH, andb_assoc.
Qed.

Lemma all_chars_slice P n : forall s,
  Py.all_chars P s = true -> Py.all_chars P (Py.slice_from n s) = true.
Proof.
  induction n as [|n IH]; intros [|c s]; cbn [Py.slice_from Py.all_chars]; auto.
  intros H. apply andb_true_iff in H as [_ H]. auto.
Qed.

Lemma all_chars_mul P c n :
  P c = true -> Py.all_chars P (Py.mul (String c "") n) = true.
Proof.
  intros H. induction n as [|n IH]; [reflexivity|].
  cbn [Py.mul]. rewrite append_cons, append_nil_l. cbn [Py.all_chars].
  now rewrite H, IH.
Qed.

(** The replacement of runs keeps every property of characters that the
    tilde has. *)
Lemma all_chars_sub_space_runs_aux P k :
  P "~"%char = true ->
  forall s, (String.length s <= k)%nat ->
    Py.all_chars P s = true -> Py.all_chars P (Py.sub_space_runs s) = true.
Proof.
  intros Ht. induction k as [|k IH]; intros s Hk Hs.
  - destruct s; [reflexivity | simpl in Hk; lia].
  - destruct s as [|c s]; [reflexivity|].
    destruct (Nat.leb_spec 2 (Py.leading_spaces (String c s))) as [H|H].
    + rewrite sub_space_runs_match by exact H.
      rewrite all_chars_append, (all_chars_mul P "~" _ Ht). cbn [andb].
      apply IH; [|now apply all_chars_slice].
      rewrite length_slice_from.
      change (String.length (String c s)) with (S (String.length s)) in *. lia.
    + rewrite sub_space_runs_pass by exact H.
      cbn [Py.all_chars] in Hs |- *. apply andb_true_iff in Hs as [Hc Hs].
      rewrite Hc. cbn [andb]. apply IH; [|exact Hs].
      change (String.length (String c s)) with (S (String.length s)) in Hk. lia.
Qed.

Lemma all_chars_sub_space_runs P s :
  P "~"%char = true ->
  Py.all_chars P s = true -> Py.all_chars P (Py.sub_space_runs s) = true.
Proof.
  intros Ht. now apply (all_chars_sub_space_runs_aux P (String.length s)).
Qed.

Lemma occurs_char c s :
  occurs (String c "") s
  = negb (Py.all_chars (fun x => negb (Ascii.eqb c x)) s).
Proof.
  induction s as [|x s IH]; [reflexivity|].
  cbn [occurs Py.startswith Py.all_chars]. rewrite IH.
  destruct (Ascii.eqb c x); [reflexivity|]. now destruct s.
Qed.

Lemma replace_bar_clean s :
  Py.all_chars (fun x => negb (Ascii.eqb "|" x))
    (Py.replace "|" "\text{\textbar}" s) = true.
Proof.
  unfold Py.replace. induction s as [|c s IH]; [reflexivity|].
  cbn [Py.replace_from Py.startswith].
  destruct (Ascii.eqb "|" c) eqn:Ec.
  - replace (Py.startswith "" s) with true by (now destruct s).
    change (String.length "|" - 1)%nat with 0%nat.
    rewrite all_chars_append, IH. reflexivity.
  - cbn [Py.all_chars]. now rewrite Ec, IH.
Qed.

(** X7: the sanitized text never contains a vertical bar, whatever the
    transliteration gives: every bar is replaced, the replacement has no
    bar, and the treatment of spaces adds none. *)
Theorem sanitize_no_bar s : occurs "|" (sanitize_latex s) = false.
Proof.
  rewrite occurs_char. apply negb_false_iff. unfold sanitize_latex.
  apply all_chars_sub_space_runs; [reflexivity|]. apply replace_bar_clean.
Qed.

(** *** Adjacent spaces *)

Lemma leading_spaces_two s :
  (2 <= Py.leading_spaces s)%nat -> Py.startswith "  " s = true.
Proof.
  destruct s as [|c [|c' s]]; cbn [Py.leading_spaces Py.startswith].
  - lia.
  - destruct (Ascii.eqb c " "); lia.
  - rewrite (Ascii.eqb_sym c " "), (Ascii.eqb_sym c' " ").
    destruct (Ascii.eqb " " c); [|lia]. destruct (Ascii.eqb " " c'); [|lia].
    intros _. now destruct s.
Qed.

Lemma occurs_tildes n t :
  occurs "  " t = false -> occurs "  " (Py.mul "~" n +:+ t) = false.
Proof.
  intros H. induction n as [|n IH]; [exact H|].
  cbn [Py.mul]. rewrite !append_cons, append_nil_l.
  cbn [occurs Py.startswith]. change (Ascii.eqb " " "~") with false.
  exact IH.
Qed.

Lemma sub_space_runs_head s :
  Py.leading_spaces s = 0%nat ->
  Py.startswith " " (Py.sub_space_runs s) = false.
Proof.
  destruct s as [|c s]; [reflexivity|]. intros H.
  rewrite sub_space_runs_pass by lia.
  cbn [Py.leading_spaces] in H. cbn [Py.startswith].
  rewrite (Ascii.eqb_sym " " c). now destruct (Ascii.eqb c " ").
Qed.

Lemma no_adjacent_spaces_aux k : forall s,
  (String.length s <= k)%nat -> occurs "  " (Py.sub_space_runs s) = false.
Proof.
  induction k as [|k IH]; intros s Hk.
  - destruct s; [reflexivity | simpl in Hk; lia].
  - destruct s as [|c s]; [reflexivity|].
    change (String.length (String c s)) with (S (String.length s)) in Hk.
    destruct (Nat.leb_spec 2 (Py.leading_spaces (String c s))) as [H|H].
    + rewrite sub_space_runs_match by exact H. apply occurs_tildes, IH.
      rewrite length_slice_from.
      change (String.length (String c s)) with (S (String.length s)). lia.
    + rewrite sub_space_runs_pass by exact H.
      cbn [occurs Py.startswith]. rewrite (IH s) by lia.
      rewrite orb_false_r. destruct (Ascii.eqb " " c) eqn:Ec; [|reflexivity].
      cbn [Py.leading_spaces] in H. rewrite (Ascii.eqb_sym c " "), Ec in H.
      assert (H0 : Py.leading_spaces s = 0%nat) by lia.
      pose proof (sub_space_runs_head s H0) as Hh.
      destruct (Py.sub_space_runs s) as [|x r]; [reflexivity|].
      cbn [Py.startswith] in Hh |- *. destruct (Ascii.eqb " " x); [|reflexivity].
      now destruct r.
Qed.

(** X8: the sanitized text never contains two adjacent spaces: every run
    of two or more has become tildes. *)
Theorem sanitize_no_adjacent_spaces s : occurs "  " (sanitize_latex s) = false.
Proof.
  unfold sanitize_latex. now apply (no_adjacent_spaces_aux _ _ (Nat.le_refl _)).
Qed.

Lemma sub_space_runs_fixed t :
  occurs "  " t = false -> Py.sub_space_runs t = t.
Proof.
  induction t as [|c t IH]; [reflexivity|]. intros H.
  cbn [occurs] in H. apply orb_false_iff in H as [H1 H2].
  rewrite sub_space_runs_pass; [now rewrite IH|].
  destruct (Nat.leb_spec 2 (Py.leading_spaces (String c t))) as [H|H]; [|exact H].
  apply leading_spaces_two in H. congruence.
Qed.

(** X9: the treatment of spaces changes nothing but runs: a text without
    two adjacent spaces is left as it is, single spaces included, and so
    treating a text twice is treating it once. *)
Theorem space_runs_only :
  (forall t, occurs "  " t = false -> Py.sub_space_runs t = t)
  /\ (forall t,
        Py.sub_space_runs (Py.sub_space_runs t) = Py.sub_space_runs t).
Proof.
  split; [exact sub_space_runs_fixed|].
  intros t. apply sub_space_runs_fixed.
  now apply (no_adjacent_spaces_aux _ _ (Nat.le_refl _)).
Qed.

Lemma space_runs_only_witness :
  Py.sub_space_runs "SELECT a, b FROM t" = "SELECT a, b FROM t".
Proof.
  apply (proj1 space_runs_only). vm_compute. reflexivity.
Defined.

End Sanitizer.

Lemma header_literal_witness :
  header_text "Jan Kowalski 123456" "Lab 3: AUTHOR and TITLE"
  = literal_header "Jan Kowalski 123456" "Lab 3: AUTHOR and TITLE".
Proof. apply header_literal. vm_compute. reflexivity. Defined.

(** * More on the statement executor *)

Section StatementText.

Context `{oracle : Oracle} `{sqlparse : SqlParse} `{latexenc : LatexEncode}
  `{order : SetOrder}.

Implicit Types (s t q : string) (c : ascii) (ls : list string).

(** *** Lines *)

Lemma split_lf_free s : lf_free s = true -> Py.split Py.LF s = [s].
Proof.
  unfold lf_free. induction s as [|c s IH]; [reflexivity|].
  cbn [Py.all_chars Py.split]. intros H. apply andb_true_iff in H as [Hc H].
  apply negb_true_iff in Hc. now rewrite Hc, (IH H).
Qed.

Lemma split_line s t :
  lf_free s = true ->
  Py.split Py.LF (s +:+ Py.nl +:+ t) = s :: Py.split Py.LF t.
Proof.
  unfold lf_free. induction s as [|c s IH]; intros H.
  - reflexivity.
  - cbn [Py.all_chars] in H. apply andb_true_iff in H as [Hc H].
    apply negb_true_iff in Hc. rewrite append_cons. cbn [Py.split].
    now rewrite Hc, (IH H).
Qed.

Lemma split_join ls :
  ls <> [] -> Forall (fun l => lf_free l = true) ls ->
  Py.split Py.LF (Py.join Py.nl ls) = ls.
Proof.
  induction ls as [|x [|y r] IH]; intros Hne H; [congruence | |].
  - inversion H; subst. now apply split_lf_free.
  - inversion H; subst. cbn [Py.join]. rewrite split_line by assumption.
    f_equal. apply IH; [discriminate | assumption].
Qed.

Lemma split_not_nil c s : Py.split c s <> [].
Proof.
  destruct s as [|a s]; [discriminate|]. cbn [Py.split].
  destruct (Ascii.eqb a c); [discriminate|].
  destruct (Py.split c s); discriminate.
Qed.

Lemma join_split s : Py.join Py.nl (Py.split Py.LF s) = s.
Proof.
  induction s as [|c s IH]; [reflexivity|]. cbn [Py.split].
  destruct (Ascii.eqb c Py.LF) eqn:Ec.
  - apply Ascii.eqb_eq in Ec. subst c.
    destruct (Py.split Py.LF s) as [|x xs] eqn:E; [now apply split_not_nil in E|].
    cbn [Py.join]. rewrite append_nil_l. cbn [Py.join] in IH. now rewrite IH.
  - destruct (Py.split Py.LF s) as [|x xs] eqn:E; [now apply split_not_nil in E|].
    destruct xs as [|y r]; cbn [Py.join] in IH |- *.
    + now subst.
    + rewrite append_cons. now f_equal.
Qed.

Lemma split_lines_lf_free s :
  Forall (fun l => lf_free l = true) (Py.split Py.LF s).
Proof.
  induction s as [|c s IH]; [repeat constructor|]. cbn [Py.split].
  destruct (Ascii.eqb c Py.LF) eqn:Ec.
  - constructor; [reflexivity | exact IH].
  - destruct (Py.split Py.LF s) as [|x xs]; [repeat constructor|].
    + unfold lf_free. cbn [Py.all_chars]. now rewrite Ec.
    + inversion IH; subst. constructor; [|assumption].
      unfold lf_free in *. cbn [Py.all_chars]. rewrite Ec. assumption.
Qed.

Lemma filter_lf_free (f : string -> bool) ls :
  Forall (fun l => lf_free l = true) ls ->
  Forall (fun l => lf_free l = true) (List.filter f ls).
Proof.
  intros H. apply List.Forall_forall. intros l Hin.
  apply List.filter_In in Hin as [Hin _].
  rewrite List.Forall_forall in H. auto.
Qed.

(** X11: what is taken out of the text of a task.  For lines without
    line feeds, the stripped text of the lines joined by line feeds is the
    joined text of the lines that do not start with [-- Task], in order;
    no line of a stripped text starts with [-- Task]; and a text none of
    whose lines starts with [-- Task] is left as it is. *)
Theorem strip_markers_lines :
  (forall ls,
      ls <> [] -> Forall (fun l => lf_free l = true) ls ->
      strip_markers (Py.join Py.nl ls)
      = Py.join Py.nl
          (List.filter (fun l => negb (Py.startswith marker l)) ls))
  /\ (forall s l,
        List.In l (Py.split Py.LF (strip_markers s)) ->
        Py.startswith marker l = false)
  /\ (forall s,
        Forall (fun l => Py.startswith marker l = false) (Py.split Py.LF s) ->
        strip_markers s = s).
Proof.
  split; [|split].
  - intros ls Hne H. unfold strip_markers. now rewrite split_join.
  - intros s l. unfold strip_markers.
    set (kept := List.filter (fun l => negb (Py.startswith marker l))
                   (Py.split Py.LF s)).
    destruct kept as [|x xs] eqn:E.
    + cbn. intros [<-|[]]. reflexivity.
    + rewrite split_join.
      * rewrite <- E. subst kept. intros Hin.
        apply List.filter_In in Hin as [_ Hin]. now apply negb_true_iff in Hin.
      * discriminate.
      * rewrite <- E. subst kept. apply filter_lf_free, split_lines_lf_free.
  - intros s H. unfold strip_markers.
    replace (List.filter (fun l => negb (Py.startswith marker l))
               (Py.split Py.LF s)) with (Py.split Py.LF s).
    + apply join_split.
    + induction (Py.split Py.LF s) as [|x xs IH]; [reflexivity|].
      inversion H; subst. cbn [List.filter].
      rewrite H2. cbn [negb]. f_equal. now apply IH.
Qed.

Lemma strip_markers_lines_witness :
  strip_markers (Py.join Py.nl ["-- Task 1"; "SELECT 1 FROM DUAL;"; ""])
  = Py.join Py.nl
      (List.filter (fun l => negb (Py.startswith marker l))
         ["-- Task 1"; "SELECT 1 FROM DUAL;"; ""]).
Proof.
  apply (proj1 strip_markers_lines).
  - discriminate.
  - repeat constructor.
Defined.

End StatementText.

Section QueryRun.

Context `{oracle : Oracle} `{sqlparse : SqlParse} `{latexenc : LatexEncode}
  `{order : SetOrder}.

Implicit Types (s q : string) (c : ascii) (st : state).

(** *** The text that is executed *)

Lemma reverse_onto_last x s : forall acc c,
  Py.startswith (String x "") (Py.reverse_onto (String c s) acc)
  = match last_char (String c s) with
    | Some y => Ascii.eqb x y
    | None => false
    end.
Proof.
  induction s as [|c' s IH]; intros acc c.
  - cbn [Py.startswith Py.reverse_onto last_char].
    now destruct (Ascii.eqb x c).
  - change (Py.reverse_onto (String c (String c' s)) acc)
      with (Py.reverse_onto (String c' s) (String c acc)).
    now rewrite IH.
Qed.

Lemma endswith_last_char x s :
  Py.endswith (String x "") s = true <-> last_char s = Some x.
Proof.
  destruct s as [|c s].
  - split; discriminate.
  - unfold Py.endswith. change (Py.reverse_onto (String x "") "") with (String x "").
    rewrite reverse_onto_last. destruct (last_char (String c s)) as [y|].
    + split.
      * intros H. apply Ascii.eqb_eq in H. now subst.
      * intros [= ->]. apply Ascii.eqb_refl.
    + split; discriminate.
Qed.

Lemma drop_last_char s x :
  last_char s = Some x -> s = Py.drop_last s +:+ String x "".
Proof.
  induction s as [|c s IH]; [discriminate|]. destruct s as [|c' s].
  - cbn. now intros [= ->].
  - intros H. change (last_char (String c (String c' s)))
      with (last_char (String c' s)) in H.
    change (Py.drop_last (String c (String c' s)))
      with (String c (Py.drop_last (String c' s))).
    rewrite append_cons. f_equal. now apply IH.
Qed.

Lemma rstrip_split s :
  exists w, s = Py.rstrip s +:+ w /\ Py.all_chars Py.isspace w = true.
Proof.
  induction s as [|c s (w & Hs & Hw)]; [now exists ""|].
  rewrite rstrip_cons. destruct (Py.rstrip s) as [|d r] eqn:E.
  - rewrite append_nil_l in Hs. subst w.
    destruct (Py.isspace c) eqn:Ec.
    + exists (String c s). split; [reflexivity|].
      cbn [Py.all_chars]. now rewrite Ec, Hw.
    + exists s. split; [reflexivity | exact Hw].
  - exists w. split; [|exact Hw]. rewrite append_cons. now f_equal.
Qed.

Lemma rstrip_rstripped s : rstripped (Py.rstrip s).
Proof.
  unfold rstripped. induction s as [|c s IH]; [discriminate|].
  rewrite rstrip_cons. destruct (Py.rstrip s) as [|d r] eqn:E.
  - destruct (Py.isspace c) eqn:Ec; [discriminate|].
    cbn. now intros y [= <-].
  - intros y Hy. apply IH. exact Hy.
Qed.

Lemma names_fresh (names : list string) :
  forall name, name ∈ names -> name ∉ (@nil (string * string)).*1.
Proof. intros name _ H. now apply elem_of_nil in H. Qed.

(** X12: what a statement looks like in the report and in the database
    call.  The code block shows the statement as it was split, the prompts
    follow, and then the statement is executed with the values read; a
    statement that ends with a semicolon is executed without that one
    semicolon and without the whitespace before it, any other statement is
    executed as it is. *)
Theorem statement_text_executed q st :
  q <> "" ->
  (length (set_iter (find_parameters q)) <= length (stdin st))%nat ->
  exists x o rest r st',
    process_query q st
    = (r,
       printed ["\begin{minted}[breaklines]{sql}"; q; "\end{minted}"]
       ++ prompts (zip (set_iter (find_parameters q))
                     (take (length (set_iter (find_parameters q))) (stdin st)))
       ++ Execute x
            (zip (set_iter (find_parameters q))
               (take (length (set_iter (find_parameters q))) (stdin st))) o
          :: rest,
       st')
    /\ (Py.endswith ";" q = false -> x = q)
    /\ (Py.endswith ";" q = true ->
        rstripped x /\
        exists w, q = x +:+ w +:+ ";" /\ Py.all_chars Py.isspace w = true).
Proof.
  intros Hq Hlen. destruct q as [|c q]; [congruence|].
  set (query := String c q) in *.
  set (names := set_iter (find_parameters query)) in *.
  set (x := if Py.endswith ";" query then Py.rstrip (Py.drop_last query)
            else query).
  assert (Hx : (Py.endswith ";" query = false -> x = query)
    /\ (Py.endswith ";" query = true ->
        rstripped x /\
        exists w, query = x +:+ w +:+ ";" /\ Py.all_chars Py.isspace w = true)).
  { subst x. destruct (Py.endswith ";" query) eqn:E.
    - split; [discriminate|]. intros _. split; [apply rstrip_rstripped|].
      apply endswith_last_char, drop_last_char in E.
      destruct (rstrip_split (Py.drop_last query)) as (w & Hw & Hs).
      exists w. split; [|exact Hs]. rewrite <- append_assoc, <- Hw. exact E.
    - split; [reflexivity | discriminate]. }
  assert (Hfill := fill_params_events names [] st).
  unfold process_query. subst query. cbv zeta. fold names. fold x.
  unfold print. rewrite !bind_emit. unfold bind at 1.
  rewrite Hfill; [| subst names; rewrite set_iter_perm; apply NoDup_elements
                  | apply names_fresh | exact Hlen].
  rewrite app_nil_l. unfold bind at 1. unfold cursor_execute.
  cbn [stdin database connection].
  destruct (execute (database st) x _) as [d [e|cur]].
  - do 5 eexists. split; [reflexivity | exact Hx].
  - match goal with
    | |- context [report_outcome cur ?s] =>
        destruct (report_outcome cur s) as [[r evs] st']
    end.
    do 5 eexists. split; [reflexivity | exact Hx].
Qed.

(** *** A prompt without an answer *)

Lemma fill_params_eof names : forall (filled : list (string * string)) st,
  (length (stdin st) < length names)%nat ->
  exists name,
    names !! length (stdin st) = Some name /\
    fill_params names filled st
    = (Raise EOFError,
       prompts (zip names (stdin st)) ++ [Stderr (":" +:+ name +:+ "=")],
       {| stdin := []; database := database st; connection := connection st |}).
Proof.
  induction names as [|name names IH]; intros filled st Hlen;
    [cbn in Hlen; lia|].
  destruct st as [[|line lines] d conn]; cbn [stdin database connection] in *.
  - exists name. split; [reflexivity|].
    cbn [fill_params]. unfold eprint_raw. rewrite bind_emit. reflexivity.
  - destruct (IH (Py.dict_set name line filled)
                {| stdin := lines; database := d; connection := conn |})
      as (name' & Hlook & Hrun); [cbn in *; lia|].
    exists name'. split; [exact Hlook|].
    cbn [fill_params]. unfold eprint_raw. rewrite bind_emit.
    unfold bind at 1. unfold input at 1. cbn [stdin database connection].
    rewrite Hrun. reflexivity.
Qed.

(** X13: when the standard input ends before every parameter of a
    statement has its value, the statement is not executed: after the code
    block and the prompts that were answered, the next prompt is written,
    [input] raises [EOFError], and nothing is sent to the database. *)
Theorem prompt_without_answer q st :
  q <> "" ->
  (length (stdin st) < length (set_iter (find_parameters q)))%nat ->
  exists name,
    set_iter (find_parameters q) !! length (stdin st) = Some name /\
    process_query q st
    = (Raise EOFError,
       printed ["\begin{minted}[breaklines]{sql}"; q; "\end{minted}"]
       ++ prompts (zip (set_iter (find_parameters q)) (stdin st))
       ++ [Stderr (":" +:+ name +:+ "=")],
       {| stdin := []; database := database st; connection := connection st |}).
Proof.
  intros Hq Hlen. destruct q as [|c q]; [congruence|].
  destruct (fill_params_eof _ [] st Hlen) as (name & Hlook & Hrun).
  exists name. split; [exact Hlook|].
  unfold process_query. cbv zeta. unfold print. rewrite !bind_emit.
  unfold bind at 1. rewrite Hrun. reflexivity.
Qed.

End QueryRun.

Lemma statement_text_executed_witness :
  exists x o rest r st',
    @process_query (Demo.scripted None Demo.respond) Demo.sqlparse
      Demo.latexenc Demo.order "DELETE FROM t WHERE a = :a  ;"
      (@State (Demo.scripted None Demo.respond) ["7"] tt false)
    = (r,
       printed ["\begin{minted}[breaklines]{sql}";
                "DELETE FROM t WHERE a = :a  ;"; "\end{minted}"]
       ++ prompts [("a", "7")] ++ Execute x [("a", "7")] o :: rest,
       st')
    /\ (Py.endswith ";" "DELETE FROM t WHERE a = :a  ;" = false ->
        x = "DELETE FROM t WHERE a = :a  ;")
    /\ (Py.endswith ";" "DELETE FROM t WHERE a = :a  ;" = true ->
        rstripped x /\
        exists w, "DELETE FROM t WHERE a = :a  ;" = x +:+ w +:+ ";" /\
                  Py.all_chars Py.isspace w = true).
Proof.
  apply (@statement_text_executed (Demo.scripted None Demo.respond)
           Demo.sqlparse Demo.latexenc Demo.order
           "DELETE FROM t WHERE a = :a  ;"
           (@State (Demo.scripted None Demo.respond) ["7"] tt false)).
  - discriminate.
  - vm_compute. lia.
Defined.

Lemma prompt_without_answer_witness :
  exists name,
    @set_iter Demo.order (@find_parameters Demo.sqlparse "SELECT :x FROM DUAL;")
      !! 0%nat = Some name /\
    @process_query (Demo.scripted None Demo.respond) Demo.sqlparse
      Demo.latexenc Demo.order "SELECT :x FROM DUAL;"
      (@State (Demo.scripted None Demo.respond) [] tt true)
    = (Raise EOFError,
       printed ["\begin{minted}[breaklines]{sql}"; "SELECT :x FROM DUAL;";
                "\end{minted}"]
       ++ prompts [] ++ [Stderr (":" +:+ name +:+ "=")],
       @State (Demo.scripted None Demo.respond) [] tt true).
Proof.
  apply (@prompt_without_answer (Demo.scripted None Demo.respond)
           Demo.sqlparse Demo.latexenc Demo.order "SELECT :x FROM DUAL;"
           (@State (Demo.scripted None Demo.respond) [] tt true)).
  - discriminate.
  - vm_compute. lia.
Defined.

(** * More on a whole run *)

Section Framework.

Context `{oracle : Oracle} `{sqlparse : SqlParse} `{latexenc : LatexEncode}
  `{order : SetOrder}.

Implicit Types (st : state) (evs : list event)
  (Q : state -> option exn -> list event -> state -> Prop).

Lemma respects_ret Q {A} (a : A) : sequential Q -> respects Q (ret a).
Proof. intros [H _] st r evs st' [= <- <- <-]. apply H. Qed.

Lemma respects_bind Q {A B} (m : M A) (k : A -> M B) :
  sequential Q -> respects Q m -> (forall a, respects Q (k a)) ->
  respects Q (bind m k).
Proof.
  intros [_ Hseq] Hm Hk st r evs st'. unfold bind.
  destruct (m st) as [[[a|x] evs1] st1] eqn:Em.
  - destruct (k a st1) as [[r2 evs2] st2] eqn:Ek. intros [= <- <- <-].
    apply (Hseq st st1 st2); [exact (Hm _ _ _ _ Em) | exact (Hk a _ _ _ _ Ek)].
  - intros [= <- <- <-]. exact (Hm _ _ _ _ Em).
Qed.

Lemma respects_emit Q ev :
  (forall st, Q st None [ev] st) -> respects Q (emit ev).
Proof. intros H st r evs st' [= <- <- <-]. apply H. Qed.

Lemma respects_for_each Q {A} (body : A -> M unit) xs :
  sequential Q -> (forall x, respects Q (body x)) ->
  respects Q (for_each body xs).
Proof.
  intros Hseq Hb. induction xs as [|x xs IH]; cbn [for_each].
  - now apply respects_ret.
  - apply respects_bind; auto.
Qed.

Section Inner.

Variable Q : state -> option exn -> list event -> state -> Prop.
Hypothesis laws : inner_laws Q.

Lemma respects_print text : respects Q (print text).
Proof. apply respects_emit. intros st. apply (in_stdout Q laws). Qed.

Lemma respects_input : respects Q input.
Proof.
  intros st r evs st'. unfold input. destruct (stdin st) as [|line rest] eqn:E.
  - intros [= <- <- <-]. now apply (in_eof Q laws).
  - intros [= <- <- <-]. now apply (in_input Q laws).
Qed.

Lemma respects_fill_params params : forall filled,
  respects Q (fill_params params filled).
Proof.
  pose proof (in_seq Q laws) as Hseq.
  induction params as [|param rest IH]; intros filled; cbn [fill_params].
  - now apply respects_ret.
  - apply respects_bind; [exact Hseq | |].
    + apply respects_emit. intros st. apply (in_prompt Q laws).
    + intros _. apply respects_bind; [exact Hseq | apply respects_input |].
      intros v. apply IH.
Qed.

Lemma respects_cursor_execute query binds :
  respects Q (cursor_execute query binds).
Proof.
  intros st r evs st'. unfold cursor_execute.
  destruct (execute (database st) query binds) as [d [e|c]] eqn:E;
    intros [= <- <- <-].
  - now apply (in_execute_fail Q laws).
  - now apply (in_execute_ok Q laws) with c.
Qed.

Lemma respects_cursor_fetchall c : respects Q (cursor_fetchall c).
Proof.
  intros st r evs st'. unfold cursor_fetchall.
  destruct (fetchall c) as [e|rows]; intros [= <- <- <-].
  - apply (in_fetch_fail Q laws).
  - apply (in_fetch_ok Q laws).
Qed.

Lemma respects_print_table column_names rows :
  respects Q (print_table column_names rows).
Proof.
  pose proof (in_seq Q laws) as Hseq. unfold print_table.
  repeat (apply respects_bind; [exact Hseq | | intros _]);
    try apply respects_print.
  apply respects_for_each; [exact Hseq|]. intros row.
  apply respects_bind; [exact Hseq | | intros _]; apply respects_print.
Qed.

Lemma respects_report_outcome c : respects Q (report_outcome c).
Proof.
  pose proof (in_seq Q laws) as Hseq. unfold report_outcome.
  destruct (description c) as [desc|].
  - apply respects_bind; [exact Hseq | apply respects_cursor_fetchall |].
    intros rows. apply respects_print_table.
  - apply respects_print.
Qed.

Lemma respects_process_query query : respects Q (process_query query).
Proof.
  pose proof (in_seq Q laws) as Hseq.
  destruct query as [|c q]; [now apply respects_ret|]. cbn [process_query].
  repeat (apply respects_bind; [exact Hseq | apply respects_print | intros _]).
  apply respects_bind; [exact Hseq | apply respects_fill_params |].
  intros filled.
  apply respects_bind; [exact Hseq | apply respects_cursor_execute |].
  intros cur. apply respects_report_outcome.
Qed.

Lemma respects_process_script script : respects Q (process_script script).
Proof.
  apply respects_for_each; [exact (in_seq Q laws)|].
  apply respects_process_query.
Qed.

(** The block under [with]: the heading, the statements, the page
    break. *)
Lemma respects_task_body i script :
  respects Q
    (bind (print ("\section*{Task " +:+ Py.str_int i +:+ "}")) (fun _ =>
     bind (process_script (Py.join "" script)) (fun _ =>
     print "\pagebreak"))).
Proof.
  pose proof (in_seq Q laws) as Hseq.
  apply respects_bind; [exact Hseq | apply respects_print | intros _].
  apply respects_bind; [exact Hseq | apply respects_process_script | intros _].
  apply respects_print.
Qed.

End Inner.

Lemma respects_with_cursor Qin Qout {A} (body : M A) :
  outer_laws Qin Qout -> respects Qin body -> respects Qout (with_cursor body).
Proof.
  intros Hout Hb st r evs st'. unfold with_cursor, bind, emit, try_finally.
  destruct (body st) as [[r1 evs1] st1] eqn:Eb. intros [= <- <- <-].
  apply (out_cursor Qin Qout Hout). exact (Hb _ _ _ _ Eb).
Qed.

Lemma respects_run_task Qin Qout t :
  inner_laws Qin -> outer_laws Qin Qout -> respects Qout (run_task t).
Proof.
  intros Hin Hout. pose proof (out_seq Qin Qout Hout) as Hseq.
  destruct t as [i script]. unfold run_task.
  destruct (Py.str_ok i).
  2:{ intros st r evs st' [= <- <- <-]. apply (out_refused Qin Qout Hout). }
  apply respects_bind; [exact Hseq | | intros _].
  { apply respects_emit. intros st. apply (out_stderr Qin Qout Hout). }
  apply respects_bind; [exact Hseq | | intros _].
  { apply (respects_with_cursor Qin Qout); [exact Hout|].
    now apply respects_task_body. }
  apply respects_emit. intros st. apply (out_stderr Qin Qout Hout).
Qed.

(** What follows the connection in the block under [try]. *)
Lemma respects_after_connect Qin Qout args scripts :
  inner_laws Qin -> outer_laws Qin Qout ->
  respects Qout
    (bind (eprint "connected!") (fun _ =>
     bind (print_header (author args) (title args)) (fun _ =>
     bind (print "\begin{document}") (fun _ =>
     bind (print "\maketitle") (fun _ =>
     bind (for_each run_task scripts) (fun _ =>
     bind (print "\end{document}") (fun _ => ret true))))))).
Proof.
  intros Hin Hout. pose proof (out_seq Qin Qout Hout) as Hseq.
  assert (Hp : forall text, respects Qout (print text)).
  { intros text. apply respects_emit. intros st.
    apply (out_stdout Qin Qout Hout). }
  apply respects_bind; [exact Hseq | | intros _].
  { apply respects_emit. intros st. apply (out_stderr Qin Qout Hout). }
  apply respects_bind; [exact Hseq | apply Hp | intros _].
  apply respects_bind; [exact Hseq | apply Hp | intros _].
  apply respects_bind; [exact Hseq | apply Hp | intros _].
  apply respects_bind; [exact Hseq | | intros _].
  { apply respects_for_each; [exact Hseq|]. intros t.
    now apply (respects_run_task Qin Qout). }
  apply respects_bind; [exact Hseq | apply Hp | intros _].
  now apply respects_ret.
Qed.

End Framework.

Section WholeRun.

Context `{oracle : Oracle} `{sqlparse : SqlParse} `{latexenc : LatexEncode}
  `{order : SetOrder}.

Lemma main_course args st r evs st' :
  main args st = (r, evs, st') -> course args st r evs st'.
Proof.
  unfold main.
  destruct (parse_srcipts (query_file args)) as [scripts|x] eqn:Ep.
  2:{ unfold bind, lift. intros [= <- <- <-]. now apply BadScript. }
  unfold bind at 1. unfold lift. unfold eprint. rewrite bind_emit.
  unfold bind at 1. unfold do_init_client.
  destruct (init_oracle_client (database st)) as [e0|] eqn:Ei.
  { intros [= <- <- <-]. now apply NoClient. }
  unfold bind at 1. unfold clear_connection.
  set (st0 := {| stdin := stdin st; database := database st;
                 connection := false |}).
  unfold try_finally, try_except.
  destruct (connect (database st)) as [e|] eqn:Ec.
  - rewrite (main_try_offline args scripts st0 e Ec).
    unfold main_except, eprint. rewrite bind_emit. unfold ret, main_finally.
    cbn [connection st0]. intros [= <- <- <-]. now apply NoConnection.
  - rewrite (main_try_online args scripts st0 Ec).
    change (bind (eprint "connected!") _) with (once_connected args scripts).
    cbn [stdin database st0].
    set (st1 := {| stdin := stdin st; database := database st;
                   connection := true |}).
    destruct (once_connected args scripts st1) as [[r1 evs1] st2] eqn:Ea.
    destruct (regular_after_connect args scripts _ _ _ _ Ea) as (Hc & _ & _).
    cbn [connection st1] in Hc.
    destruct r1 as [b|x].
    + unfold main_finally. rewrite Hc. intros [= <- <- <-].
      now apply (Through args st scripts (Ok b) evs1 st2).
    + destruct x as [| | |e].
      1-3: unfold main_finally; rewrite Hc; intros [= <- <- <-];
        now apply (Through args st scripts _ evs1 st2).
      unfold main_except, eprint. rewrite bind_emit. unfold ret, main_finally.
      rewrite Hc. intros [= <- <- <-].
      rewrite <- app_assoc.
      now apply (Failed args st scripts e evs1 st2).
Qed.

End WholeRun.

Section Protocol.

Context `{oracle : Oracle} `{sqlparse : SqlParse} `{latexenc : LatexEncode}
  `{order : SetOrder}.

Lemma scan_app p evs1 evs2 :
  scan p (evs1 ++ evs2)
  = match scan p evs1 with
    | Some q => scan q evs2
    | None => None
    end.
Proof.
  revert p. induction evs1 as [|ev evs1 IH]; intros p; cbn [scan app].
  - reflexivity.
  - destruct (step p ev); [apply IH | reflexivity].
Qed.

Lemma scan_split p before ev after q :
  scan p (before ++ ev :: after) = Some q ->
  exists p1 p2,
    scan p before = Some p1 /\ step p1 ev = Some p2 /\ scan p2 after = Some q.
Proof.
  rewrite scan_app. destruct (scan p before) as [p1|]; [|discriminate].
  cbn [scan]. destruct (step p1 ev) as [p2|] eqn:Es; [|discriminate].
  intros H. now exists p1, p2.
Qed.

Lemma step_spent p ev q :
  spent p = true -> step p ev = Some q -> aftermath ev = true /\ spent q = true.
Proof.
  destruct p; try discriminate; intros _;
    destruct ev as [? | ? | ? | [?|] | [?|] | | | | ? ? [?|] | [?|]]; try discriminate;
    intros [= <-]; now split.
Qed.

Lemma scan_spent p evs q :
  spent p = true -> scan p evs = Some q ->
  Forall (fun ev => aftermath ev = true) evs.
Proof.
  revert p. induction evs as [|ev evs IH]; intros p Hp; cbn [scan].
  - constructor.
  - destruct (step p ev) as [p'|] eqn:Es; [|discriminate]. intros H.
    destruct (step_spent p ev p' Hp Es) as [Ha Hs].
    constructor; [exact Ha | exact (IH p' Hs H)].
Qed.

Lemma step_failure p ev q e :
  step p ev = Some q ->
  db_failure ev = Some e \/ ev = InitClient (Some e) ->
  spent q = true.
Proof.
  intros Hs [Hf | ->].
  - destruct p; destruct ev as [? | ? | ? | [?|] | [?|] | | | | ? ? [?|] | [?|]];
      try discriminate; now injection Hs as <-.
  - destruct p; try discriminate. now injection Hs as <-.
Qed.

Lemma step_needs_cursor p ev q :
  step p ev = Some q -> needs_cursor ev = true -> p = InCursor.
Proof.
  destruct p; destruct ev as [? | ? | ? | [?|] | [?|] | | | | ? ? [?|] | [?|]];
    try discriminate; reflexivity.
Qed.

Local Abbreviation in_cursor :=
  (fun (_ : state) o evs (_ : state) =>
     scan InCursor evs = Some (phase_after InCursor FailedInCursor o)).

Local Abbreviation when_connected :=
  (fun (_ : state) o evs (_ : state) =>
     scan Connected evs = Some (phase_after Connected FailedOpen o)).

Lemma in_cursor_laws : inner_laws in_cursor.
Proof.
  split; try (intros; reflexivity).
  split; [reflexivity|].
  intros st st1 st2 evs1 evs2 o H1 H2. rewrite scan_app, H1. exact H2.
Qed.

Lemma when_connected_laws : outer_laws in_cursor when_connected.
Proof.
  split; try (intros; reflexivity).
  - split; [reflexivity|].
    intros st st1 st2 evs1 evs2 o H1 H2. rewrite scan_app, H1. exact H2.
  - intros st o evs st' H. cbn [scan step]. rewrite scan_app, H.
    now destruct o as [[]|].
Qed.

Lemma once_connected_phase args scripts st r evs st' :
  once_connected args scripts st = (r, evs, st') ->
  scan Connected evs = Some (phase_after Connected FailedOpen (outcome r)).
Proof.
  exact (respects_after_connect in_cursor when_connected args scripts
           in_cursor_laws when_connected_laws st r evs st').
Qed.

Lemma main_scan args st r evs st' :
  main args st = (r, evs, st') ->
  exists p, scan Starting evs = Some p /\ terminal p = true.
Proof.
  intros H.
  destruct (main_course _ _ _ _ _ H)
    as [x Hp | scripts e Hp Hi | scripts e Hp Hi Hc
        | scripts e evs1 st2 Hp Hi Hc Ha | scripts r1 evs1 st2 Hp Hi Hc Ha Hr].
  - now exists Starting.
  - now exists Halted.
  - now exists Refused.
  - exists Closed. split; [|reflexivity]. cbn [scan step].
    now rewrite scan_app, (once_connected_phase _ _ _ _ _ _ Ha).
  - exists Closed. split; [|reflexivity]. cbn [scan step].
    rewrite scan_app, (once_connected_phase _ _ _ _ _ _ Ha).
    destruct r1 as [b|[| | |e]]; try reflexivity.
Qed.

Lemma sql2latex_main args st t evs st' :
  sql2latex args st = (t, evs, st') ->
  exists r,
    main args st = (r, evs, st') /\
    t = match r with
        | Ok true => Exit 0
        | Ok false => Exit (-1)
        | Raise e => Uncaught e
        end.
Proof.
  unfold sql2latex. destruct (main args st) as [[r evs0] st0].
  intros [= <- <- <-]. now exists r.
Qed.

(** X14: the events of every run follow the order the driver asks for:
    client initialisation and connection first; cursors only on the open
    connection, one at a time; statements, fetches and prompts only
    inside a cursor; after a database error nothing but closing and
    reporting; and at the end of the run no cursor and no connection is
    left open. *)
Theorem driver_protocol args st t evs st' :
  sql2latex args st = (t, evs, st') ->
  exists p, scan Starting evs = Some p /\ terminal p = true.
Proof.
  intros H. destruct (sql2latex_main _ _ _ _ _ H) as (r & Hm & _).
  exact (main_scan _ _ _ _ _ Hm).
Qed.

(** X15: after the event of a database error (a failed client
    initialisation, connection, statement or fetch) the run only closes
    the cursor and the connection and writes to the diagnostic stream:
    no further statement is run, no line is read, and nothing more is
    written to the standard output. *)
Theorem nothing_after_failure args st t evs st' before ev after e :
  sql2latex args st = (t, evs, st') ->
  evs = before ++ ev :: after ->
  db_failure ev = Some e \/ ev = InitClient (Some e) ->
  Forall (fun ev' => aftermath ev' = true) after.
Proof.
  intros H -> Hev. destruct (sql2latex_main _ _ _ _ _ H) as (r & Hm & _).
  destruct (main_scan _ _ _ _ _ Hm) as (p & Hs & _).
  destruct (scan_split _ _ _ _ _ Hs) as (p1 & p2 & _ & H2 & H3).
  exact (scan_spent p2 after p (step_failure _ _ _ _ H2 Hev) H3).
Qed.

(** X16: a statement is run, rows are fetched and a line is read for a
    bind parameter only while a cursor is open on the open connection. *)
Theorem cursor_work_inside_cursor args st t evs st' before ev after :
  sql2latex args st = (t, evs, st') ->
  evs = before ++ ev :: after ->
  needs_cursor ev = true ->
  scan Starting before = Some InCursor.
Proof.
  intros H -> Hev. destruct (sql2latex_main _ _ _ _ _ H) as (r & Hm & _).
  destruct (main_scan _ _ _ _ _ Hm) as (p & Hs & _).
  destruct (scan_split _ _ _ _ _ Hs) as (p1 & p2 & H1 & H2 & _).
  now rewrite <- (step_needs_cursor _ _ _ H2 Hev).
Qed.

(** X17: without a connection nothing is written to the standard
    output. *)
Theorem no_output_without_connection args st t evs st' :
  sql2latex args st = (t, evs, st') ->
  Connect None ∉ evs ->
  stdout_of evs = [].
Proof.
  intros H Hn. destruct (sql2latex_main _ _ _ _ _ H) as (r & Hm & _).
  destruct (main_course _ _ _ _ _ Hm)
    as [x Hp | scripts e Hp Hi | scripts e Hp Hi Hc
        | scripts e evs1 st2 Hp Hi Hc Ha | scripts r1 evs1 st2 Hp Hi Hc Ha Hr];
    try reflexivity;
    exfalso; apply Hn; do 3 apply list_elem_of_further; apply list_elem_of_here.
Qed.

End Protocol.

Section TaskRuns.

Context `{oracle : Oracle} `{sqlparse : SqlParse} `{latexenc : LatexEncode}
  `{order : SetOrder}.

Lemma run_task_eq i script st :
  run_task (i, script) st
  = if Py.str_ok i then
      let '(r, body, st1) := process_script (Py.join "" script) st in
      match r with
      | Ok _ => (Ok tt, task_events i body, st1)
      | Raise x =>
          (Raise x,
           Stderr ("Running task " +:+ Py.str_int i +:+ "..."
                   +:+ String Py.TAB "")
           :: CursorOpen
           :: Stdout (("\section*{Task " +:+ Py.str_int i +:+ "}") +:+ Py.nl)
           :: body ++ [CursorClose],
           st1)
      end
    else (Raise ValueError, [], st).
Proof.
  unfold run_task. destruct (Py.str_ok i); [|reflexivity].
  unfold eprint_raw, eprint, with_cursor, print.
  rewrite !bind_emit. unfold bind at 1. unfold try_finally.
  rewrite bind_emit. unfold bind, emit.
  destruct (process_script (Py.join "" script) st) as [[[[]|x] body] st1].
  - cbn. unfold task_events. now rewrite <- !app_assoc.
  - reflexivity.
Qed.

Lemma for_each_run_task_done scripts : forall st evs st',
  for_each run_task scripts st = (Ok tt, evs, st')
  <-> tasks_done scripts st evs st'.
Proof.
  induction scripts as [|[i script] rest IH]; intros st evs st';
    cbn [for_each].
  - split.
    + intros [= <- <-]. constructor.
    + intros Hd. now inversion Hd.
  - unfold bind. rewrite run_task_eq. destruct (Py.str_ok i) eqn:Ei.
    2:{ split; [discriminate|]. intros Hd.
        inversion Hd as [|? ? ? ? body' st1' evs' ? Hi Hb Hr]; subst.
        congruence. }
    destruct (process_script (Py.join "" script) st)
      as [[[[]|x] body] st1] eqn:Ep.
    + destruct (for_each run_task rest st1) as [[r evs2] st2] eqn:Ef. split.
      * intros [= -> <- <-]. apply (TaskDone i script rest st body st1); auto.
        now apply IH.
      * intros Hd. inversion Hd as [|? ? ? ? body' st1' evs' ? Hi Hb Hr]; subst.
        rewrite Ep in Hb. injection Hb as <- <-.
        apply IH in Hr. rewrite Ef in Hr. now injection Hr as -> -> ->.
    + split; [discriminate|]. intros Hd.
      inversion Hd as [|? ? ? ? body' st1' evs' ? Hi Hb Hr]; subst.
      rewrite Ep in Hb. discriminate.
Qed.

Lemma once_connected_eq args scripts st :
  once_connected args scripts st
  = let '(r, body, st1) := for_each run_task scripts st in
    match r with
    | Ok _ =>
        (Ok true,
         Stderr ("connected!" +:+ Py.nl)
         :: Stdout (header_text (author args) (title args) +:+ Py.nl)
         :: Stdout ("\begin{document}" +:+ Py.nl)
         :: Stdout ("\maketitle" +:+ Py.nl)
         :: body ++ [Stdout ("\end{document}" +:+ Py.nl)],
         st1)
    | Raise x =>
        (Raise x,
         Stderr ("connected!" +:+ Py.nl)
         :: Stdout (header_text (author args) (title args) +:+ Py.nl)
         :: Stdout ("\begin{document}" +:+ Py.nl)
         :: Stdout ("\maketitle" +:+ Py.nl)
         :: body,
         st1)
    end.
Proof.
  unfold once_connected, eprint, print_header, print.
  rewrite !bind_emit. unfold bind at 1.
  destruct (for_each run_task scripts st) as [[[[]|x] body] st1];
    [|reflexivity].
  rewrite bind_emit. reflexivity.
Qed.

End TaskRuns.

Section Termination.

Context `{oracle : Oracle} `{sqlparse : SqlParse} `{latexenc : LatexEncode}
  `{order : SetOrder}.

Lemma inputs_of_app evs1 evs2 :
  inputs_of (evs1 ++ evs2) = inputs_of evs1 ++ inputs_of evs2.
Proof. apply omap_app. Qed.

Local Abbreviation reads :=
  (fun (st : state) (_ : option exn) evs (st' : state) =>
     stdin st = inputs_of evs ++ stdin st').

Lemma reads_sequential : sequential reads.
Proof.
  split; [reflexivity|]. intros st st1 st2 evs1 evs2 o H1 H2.
  now rewrite inputs_of_app, <- app_assoc, <- H2.
Qed.

Lemma reads_inner : inner_laws reads.
Proof.
  split; try (intros; reflexivity).
  - apply reads_sequential.
  - intros st line rest E. exact E.
Qed.

Lemma reads_outer : outer_laws reads reads.
Proof.
  split; try (intros; reflexivity).
  - apply reads_sequential.
  - intros st o evs st' E.
    change (stdin st = inputs_of (evs ++ [CursorClose]) ++ stdin st').
    rewrite inputs_of_app. cbn. now rewrite app_nil_r.
Qed.

Lemma once_connected_reads args scripts st r evs st' :
  once_connected args scripts st = (r, evs, st') ->
  stdin st = inputs_of evs ++ stdin st'.
Proof.
  exact (respects_after_connect reads reads args scripts
           reads_inner reads_outer st r evs st').
Qed.

(** X18: the lines the run reads are the first lines of the standard
    input, in order, and the lines it did not read are left: a run
    neither skips a line nor reads one twice. *)
Theorem stdin_consumed_in_order args st t evs st' :
  sql2latex args st = (t, evs, st') ->
  stdin st = inputs_of evs ++ stdin st'.
Proof.
  intros H. destruct (sql2latex_main _ _ _ _ _ H) as (r & Hm & _).
  destruct (main_course _ _ _ _ _ Hm)
    as [x Hp | scripts e Hp Hi | scripts e Hp Hi Hc
        | scripts e evs1 st2 Hp Hi Hc Ha | scripts r1 evs1 st2 Hp Hi Hc Ha Hr];
    try reflexivity.
  - apply once_connected_reads in Ha. cbn [stdin] in Ha.
    change (stdin st = inputs_of
              (evs1 ++ [error_line e; ConnectionClose;
                        Stderr ("Connection closed." +:+ Py.nl)]) ++ stdin st2).
    rewrite inputs_of_app. cbn. now rewrite app_nil_r.
  - apply once_connected_reads in Ha. cbn [stdin] in Ha.
    change (stdin st = inputs_of
              (evs1 ++ [ConnectionClose;
                        Stderr ("Connection closed." +:+ Py.nl)]) ++ stdin st2).
    rewrite inputs_of_app. cbn. now rewrite app_nil_r.
Qed.

(** The exceptions of the statements: a database error, or the end of
    the standard input, met when no line is left. *)
Local Abbreviation raises_eof :=
  (fun (_ : state) (o : option exn) (_ : list event) (st' : state) =>
     match o with
     | Some ValueError | Some IndexError => False
     | Some EOFError => stdin st' = []
     | _ => True
     end).

(** Around the statements there is one more: the [ValueError] of a task
    number that cannot be printed. *)
Local Abbreviation raises_refused :=
  (fun (_ : state) (o : option exn) (_ : list event) (st' : state) =>
     match o with
     | Some IndexError => False
     | Some EOFError => stdin st' = []
     | _ => True
     end).

Lemma raises_eof_inner : inner_laws raises_eof.
Proof. split; easy. Qed.

Lemma raises_refused_outer : outer_laws raises_eof raises_refused.
Proof.
  split; try easy. intros st o evs st' H. now destruct o as [[]|].
Qed.

Lemma once_connected_raises args scripts st x evs st' :
  once_connected args scripts st = (Raise x, evs, st') ->
  (exists e, x = OracleError e) \/ (x = EOFError /\ stdin st' = [])
  \/ x = ValueError.
Proof.
  intros H.
  pose proof (respects_after_connect raises_eof raises_refused args scripts
                raises_eof_inner raises_refused_outer st _ evs st' H) as Hx.
  cbn in Hx. destruct x as [| | |e]; try contradiction; eauto.
Qed.

Lemma process_script_no_value_error script st evs st' :
  process_script script st <> (Raise ValueError, evs, st').
Proof.
  intros H.
  exact (respects_process_script raises_eof raises_eof_inner script
           st _ evs st' H).
Qed.

Lemma for_each_run_task_refused scripts : forall st evs st',
  for_each run_task scripts st = (Raise ValueError, evs, st') ->
  Exists (fun t => Py.str_ok (fst t) = false) scripts.
Proof.
  induction scripts as [|[i script] rest IH]; intros st evs st';
    cbn [for_each]; [discriminate|].
  unfold bind. rewrite run_task_eq. destruct (Py.str_ok i) eqn:Ei.
  2:{ intros _. now apply Exists_cons_hd. }
  destruct (process_script (Py.join "" script) st)
    as [[[[]|x] body] st1] eqn:Ep.
  - destruct (for_each run_task rest st1) as [[r evs2] st2] eqn:Ef.
    intros [= -> <- <-]. apply Exists_cons_tl. exact (IH _ _ _ Ef).
  - intros [= -> <- <-]. now apply process_script_no_value_error in Ep.
Qed.

Lemma once_connected_refused args scripts st evs st' :
  once_connected args scripts st = (Raise ValueError, evs, st') ->
  Exists (fun t => Py.str_ok (fst t) = false) scripts.
Proof.
  rewrite once_connected_eq.
  destruct (for_each run_task scripts st) as [[[[]|x] body] st1] eqn:Ef;
    [discriminate|].
  intros [= -> <- <-]. exact (for_each_run_task_refused _ _ _ _ Ef).
Qed.

Lemma for_lines_raises lines : forall st x,
  for_lines st lines = Raise x -> x = ValueError.
Proof.
  induction lines as [|line rest IH]; intros st x; cbn [for_lines];
    [discriminate|].
  destruct (loop_body st line) as [st1|y] eqn:El; [apply IH|].
  intros [= <-]. unfold loop_body, on_marker in El.
  destruct st as [scripts script].
  destruct (is_marker line); [|discriminate].
  destruct (marker_number line); [destruct script; discriminate|].
  now injection El as <-.
Qed.

Lemma parse_srcipts_raises contents x :
  parse_srcipts contents = Raise x -> x = ValueError \/ x = IndexError.
Proof.
  unfold parse_srcipts, parse_srcipts_lines.
  destruct (for_lines _ _) as [[scripts script]|y] eqn:E.
  - unfold close_last. destruct (last scripts) as [[k b]|]; [discriminate|].
    intros [= <-]. now right.
  - intros [= <-]. left. exact (for_lines_raises _ _ _ E).
Qed.

Lemma failed_with_framed e (pre post : list event) evs :
  Forall (fun ev => db_failure ev = None) pre ->
  Forall (fun ev => db_failure ev = None) post ->
  failed_with e (pre ++ evs ++ post) <-> failed_with e evs.
Proof.
  intros Hpre Hpost.
  split; intros (ev & Hin & Hev); exists ev; (split; [|exact Hev]).
  - rewrite !elem_of_app in Hin. destruct Hin as [Hin|[Hin|Hin]]; [|exact Hin|].
    + rewrite Forall_forall in Hpre. rewrite (Hpre ev) in Hev; [discriminate|].
      exact Hin.
    + rewrite Forall_forall in Hpost. rewrite (Hpost ev) in Hev; [discriminate|].
      exact Hin.
  - rewrite !elem_of_app. auto.
Qed.

(** X19: how a run can end.  It exits with status 0 only when no
    database error was met, and with status -1 only when one was; an
    uncaught database error comes from the client initialisation, before
    any connection; an uncaught [EOFError] means the standard input had
    no line left for a prompt; an uncaught [IndexError] comes from the
    splitter, before the run did anything; and an uncaught [ValueError]
    comes from the splitter as well, or else from a task number of more
    digits than [str] converts, met when its progress line is built. *)
Theorem termination_causes args st t evs st' :
  sql2latex args st = (t, evs, st') ->
  match t with
  | Exit status =>
      (status = 0 /\ forall e, ~ failed_with e evs)
      \/ (status = -1 /\ exists e, failed_with e evs)
  | Uncaught (OracleError e) =>
      init_oracle_client (database st) = Some e /\ Connect None ∉ evs
  | Uncaught EOFError =>
      stdin st' = [] /\ forall e, ~ failed_with e evs
  | Uncaught IndexError =>
      parse_srcipts (query_file args) = Raise IndexError /\ evs = []
  | Uncaught ValueError =>
      (parse_srcipts (query_file args) = Raise ValueError /\ evs = [])
      \/ (exists scripts,
            parse_srcipts (query_file args) = Ok scripts /\
            Exists (fun t => Py.str_ok (fst t) = false) scripts /\
            forall e, ~ failed_with e evs)
  end.
Proof.
  intros H. destruct (sql2latex_main _ _ _ _ _ H) as (r & Hm & ->).
  destruct (main_course _ _ _ _ _ Hm)
    as [x Hp | scripts e Hp Hi | scripts e Hp Hi Hc
        | scripts e evs1 st2 Hp Hi Hc Ha | scripts r1 evs1 st2 Hp Hi Hc Ha Hr].
  - destruct (parse_srcipts_raises _ _ Hp) as [-> | ->];
      [left|]; now split.
  - split; [exact Hi|]. intros Hin.
    repeat (apply elem_of_cons in Hin; destruct Hin as [Hin|Hin];
            [discriminate Hin|]).
    now apply elem_of_nil in Hin.
  - right. split; [reflexivity|]. exists e, (Connect (Some e)).
    split; [|reflexivity]. do 3 apply list_elem_of_further.
    apply list_elem_of_here.
  - right. split; [reflexivity|]. exists e.
    destruct (regular_after_connect args scripts _ _ _ _ Ha) as (_ & _ & Hf).
    apply (failed_with_framed e
             [Stderr ("Scripts found: "
                      +:+ Py.str_int (Z.of_nat (length scripts)) +:+ Py.nl);
              InitClient None; Stderr "Connecting to the database... ";
              Connect None]
             [error_line e; ConnectionClose;
              Stderr ("Connection closed." +:+ Py.nl)] evs1);
      [repeat constructor | repeat constructor |].
    now apply Hf.
  - destruct (regular_after_connect args scripts _ _ _ _ Ha) as (_ & _ & Hf).
    assert (Hno : forall e,
      ~ failed_with e
          (Stderr ("Scripts found: "
                   +:+ Py.str_int (Z.of_nat (length scripts)) +:+ Py.nl)
           :: InitClient None :: Stderr "Connecting to the database... "
           :: Connect None
           :: evs1 ++ [ConnectionClose;
                       Stderr ("Connection closed." +:+ Py.nl)])).
    { intros e Hfw.
      apply (failed_with_framed e
               [Stderr ("Scripts found: "
                        +:+ Py.str_int (Z.of_nat (length scripts)) +:+ Py.nl);
                InitClient None; Stderr "Connecting to the database... ";
                Connect None]
               [ConnectionClose;
                Stderr ("Connection closed." +:+ Py.nl)] evs1) in Hfw;
        [|repeat constructor|repeat constructor].
      apply Hf in Hfw. now apply (Hr e). }
    destruct r1 as [b|x].
    + rewrite (after_connect_value _ _ _ _ _ _ Ha). left. now split.
    + destruct (once_connected_raises _ _ _ _ _ _ Ha)
        as [[e ->]|[[-> Hs]| ->]].
      * now contradiction (Hr e).
      * now split.
      * right. exists scripts. split; [exact Hp|].
        split; [exact (once_connected_refused _ _ _ _ _ Ha) | exact Hno].
Qed.

End Termination.

Section Success.

Context `{oracle : Oracle} `{sqlparse : SqlParse} `{latexenc : LatexEncode}
  `{order : SetOrder}.

(** X20: a run exits with status 0 exactly when the script splits into
    tasks, the client initialises, the connection is made, every task
    number can be printed and every statement of every task succeeds; its
    events are then the opening,
    the tasks one after the other in the order of the file, each in a
    cursor of its own between its heading and its page break, and the
    closing of the document and of the connection. *)
Theorem successful_run args st evs st' :
  sql2latex args st = (Exit 0, evs, st')
  <-> exists scripts body,
        parse_srcipts (query_file args) = Ok scripts /\
        init_oracle_client (database st) = None /\
        connect (database st) = None /\
        tasks_done scripts
          {| stdin := stdin st; database := database st; connection := true |}
          body st' /\
        evs = opening_events args scripts ++ body ++ closing_events.
Proof.
  split.
  - intros H. destruct (sql2latex_main _ _ _ _ _ H) as (r & Hm & Ht).
    destruct (main_course _ _ _ _ _ Hm)
      as [x Hp | scripts e Hp Hi | scripts e Hp Hi Hc
          | scripts e evs1 st2 Hp Hi Hc Ha | scripts r1 evs1 st2 Hp Hi Hc Ha Hr];
      try discriminate Ht.
    destruct r1 as [[]|x]; try discriminate Ht.
    rewrite once_connected_eq in Ha.
    destruct (for_each run_task scripts _) as [[[[]|x] body] st1] eqn:Ef;
      [|discriminate].
    injection Ha as <- <-. exists scripts, body.
    repeat (split; [assumption|]). split.
    + now apply for_each_run_task_done.
    + unfold opening_events, closing_events. cbn [app].
      now rewrite <- app_assoc.
  - intros (scripts & body & Hp & Hi & Hc & Hd & ->).
    apply for_each_run_task_done in Hd.
    destruct (sql2latex args st) as [[t evs0] st0] eqn:H.
    destruct (sql2latex_main _ _ _ _ _ H) as (r & Hm & Ht).
    destruct (main_course _ _ _ _ _ Hm)
      as [x Hp' | scripts' e Hp' Hi' | scripts' e Hp' Hi' Hc'
          | scripts' e evs1 st2 Hp' Hi' Hc' Ha
          | scripts' r1 evs1 st2 Hp' Hi' Hc' Ha Hr];
      try congruence.
    + assert (scripts' = scripts) as -> by congruence.
      rewrite once_connected_eq, Hd in Ha. discriminate.
    + assert (scripts' = scripts) as -> by congruence.
      rewrite once_connected_eq, Hd in Ha. injection Ha as <- <- <-.
      subst t. unfold opening_events, closing_events. cbn [app].
      now rewrite <- app_assoc.
Qed.

End Success.

Lemma run_eta {A B C : Type} (x : A * B * C) :
  x = (fst (fst x), snd (fst x), snd x).
Proof. now destruct x as [[a b] c]. Qed.

Lemma driver_protocol_witness :
  exists p,
    scan Starting (snd (fst Sample.failing_statement)) = Some p /\
    terminal p = true.
Proof.
  exact (@driver_protocol (Demo.scripted None Demo.respond)
           Demo.sqlparse Demo.latexenc Demo.order _ _ _ _ _
           (run_eta Sample.failing_statement)).
Defined.

Lemma nothing_after_failure_witness :
  Forall (fun ev => aftermath ev = true)
    (drop 35 (snd (fst Sample.failing_statement))).
Proof.
  apply (@nothing_after_failure (Demo.scripted None Demo.respond)
           Demo.sqlparse Demo.latexenc Demo.order _ _ _ _ _
           (take 34 (snd (fst Sample.failing_statement)))
           (Execute "DROP TABLE t" [] (Some Demo.no_such_table))
           (drop 35 (snd (fst Sample.failing_statement)))
           Demo.no_such_table
           (run_eta Sample.failing_statement)).
  - vm_compute. reflexivity.
  - left. reflexivity.
Defined.

Lemma cursor_work_inside_cursor_witness :
  scan Starting (take 14 (snd (fst Sample.failing_statement)))
  = Some InCursor.
Proof.
  apply (@cursor_work_inside_cursor (Demo.scripted None Demo.respond)
           Demo.sqlparse Demo.latexenc Demo.order _ _ _ _ _
           (take 14 (snd (fst Sample.failing_statement)))
           (Execute "SELECT 1 FROM DUAL" [] None)
           (drop 15 (snd (fst Sample.failing_statement)))
           (run_eta Sample.failing_statement)).
  - vm_compute. reflexivity.
  - reflexivity.
Defined.

Lemma no_output_without_connection_witness :
  stdout_of (snd (fst Sample.refused)) = [].
Proof.
  apply (@no_output_without_connection
           (Demo.scripted (Some Demo.no_listener) Demo.respond)
           Demo.sqlparse Demo.latexenc Demo.order _ _ _ _ _
           (run_eta Sample.refused)).
  vm_compute. intros Hin.
  repeat (apply elem_of_cons in Hin; destruct Hin as [Hin|Hin];
          [discriminate Hin|]).
  now apply elem_of_nil in Hin.
Defined.

Lemma stdin_consumed_in_order_witness :
  ["7"; "8"] = inputs_of (snd (fst asked_once)) ++ stdin (snd asked_once)
  /\ inputs_of (snd (fst asked_once)) = ["7"].
Proof.
  split.
  - exact (@stdin_consumed_in_order (Demo.scripted None Demo.respond)
             Demo.sqlparse Demo.latexenc Demo.order _ _ _ _ _
             (run_eta asked_once)).
  - vm_compute. reflexivity.
Defined.

Lemma termination_causes_witness :
  (stdin (snd Sample.no_answer) = [] /\
   forall e, ~ failed_with e (snd (fst Sample.no_answer)))
  /\ (parse_srcipts ("SELECT 1 FROM DUAL;" +:+ Py.nl) = Raise IndexError /\
      snd (fst Sample.no_marker) = []).
Proof.
  assert (H1 : Sample.no_answer
               = (Uncaught EOFError, snd (fst Sample.no_answer),
                  snd Sample.no_answer))
    by (vm_compute; reflexivity).
  assert (H2 : Sample.no_marker
               = (Uncaught IndexError, snd (fst Sample.no_marker),
                  snd Sample.no_marker))
    by (vm_compute; reflexivity).
  split.
  - exact (@termination_causes (Demo.scripted None Demo.respond)
             Demo.sqlparse Demo.latexenc Demo.order _ _ _ _ _ H1).
  - exact (@termination_causes (Demo.scripted None Demo.respond)
             Demo.sqlparse Demo.latexenc Demo.order _ _ _ _ _ H2).
Defined.

Lemma successful_run_witness :
  exists scripts body,
    parse_srcipts
      ("-- Task 1" +:+ Py.nl +:+ "SELECT :x FROM DUAL;" +:+ Py.nl +:+
       "-- Task 2" +:+ Py.nl +:+ "SELECT 2 FROM DUAL;" +:+ Py.nl)
    = Ok scripts /\
    @tasks_done (Demo.scripted None Demo.respond)
      Demo.sqlparse Demo.latexenc Demo.order
      scripts (@State (Demo.scripted None Demo.respond) ["7"; "8"] tt true)
      body (snd asked_once) /\
    snd (fst asked_once)
    = opening_events
        (Args ("-- Task 1" +:+ Py.nl +:+ "SELECT :x FROM DUAL;" +:+ Py.nl +:+
               "-- Task 2" +:+ Py.nl +:+ "SELECT 2 FROM DUAL;" +:+ Py.nl)
           "A" "T") scripts
      ++ body ++ closing_events.
Proof.
  assert (H : asked_once = (Exit 0, snd (fst asked_once), snd asked_once))
    by (vm_compute; reflexivity).
  destruct (proj1 (@successful_run (Demo.scripted None Demo.respond)
                     Demo.sqlparse Demo.latexenc Demo.order _ _ _ _) H)
    as (scripts & body & Hp & _ & _ & Hd & He).
  exists scripts, body. exact (conj Hp (conj Hd He)).
Defined.
